(** * Insta_autoMation: the row-processing workflow of
      [insta_automation_langgraph.py]

    A shallow embedding of the five workflow nodes, the three conditional
    edges and the graph runner, followed by the properties of the
    specification that concern them.

    Conventions of the embedding.
    - Python [int] is [Z]; [str] is [string]; [None] in an [Optional] field
      is [None].
    - The outside world (Sheets client, language model, HTTP endpoints) is a
      deterministic oracle over the history of effects performed so far; the
      history is the trace threaded through every step.
    - [logger] calls are not part of the model, except where evaluating the
      logged f-string can raise. *)

From Stdlib Require Import ZArith List String Ascii Bool Lia DecimalString.
Import ListNotations.
Open Scope string_scope.
Open Scope Z_scope.
Open Scope list_scope.

Set Warnings "-register-all".


(* ===================================================================== *)
(** ** Python values                                                     *)
(* ===================================================================== *)

(** What [response.json()] can return.  Floats are outside the model. *)
Inductive json : Type :=
| JNull
| JBool (b : bool)
| JInt (z : Z)
| JStr (s : string)
| JList (items : list json)
| JDict (entries : list (string * json)).

(** Truth value of a string as tested by [if s:] / [a and b]. *)
Definition str_truthy (s : string) : bool := negb (s =? "")%string.

(** Truth value of an [Optional[str]] field. *)
Definition opt_truthy (o : option string) : bool :=
  match o with
  | Some s => str_truthy s
  | None => false
  end.

(** Truth value of a decoded JSON value. *)
Definition truthy (v : json) : bool :=
  match v with
  | JNull => false
  | JBool b => b
  | JInt z => negb (z =? 0)
  | JStr s => str_truthy s
  | JList items => match items with [] => false | _ => true end
  | JDict entries => match entries with [] => false | _ => true end
  end.

(** Truth value of an optional field that holds a decoded value. *)
Definition field_truthy (o : option json) : bool :=
  match o with
  | Some v => truthy v
  | None => false
  end.

(** [v == n] for an integer literal [n] ([True == 1] and [False == 0] in
    Python). *)
Definition eq_int (v : json) (n : Z) : bool :=
  match v with
  | JInt z => z =? n
  | JBool b => (if b then 1 else 0) =? n
  | _ => false
  end.

Fixpoint assoc (key : string) (entries : list (string * json)) : option json :=
  match entries with
  | [] => None
  | (k, v) :: rest => if (k =? key)%string then Some v else assoc key rest
  end.

(** The name Python prints for the type of a decoded value. *)
Definition type_name (v : json) : string :=
  match v with
  | JNull => "NoneType"
  | JBool _ => "bool"
  | JInt _ => "int"
  | JStr _ => "str"
  | JList _ => "list"
  | JDict _ => "dict"
  end.

(** [str(n)] for an integer. *)
Definition str_of_Z (n : Z) : string := NilZero.string_of_int (Z.to_int n).

(** [range(n)] as the list of its values. *)
Definition range (n : nat) : list Z := map Z.of_nat (seq 0 n).

(** [enumerate(l)]. *)
Fixpoint enumerate_from {A : Type} (start : Z) (l : list A) : list (Z * A) :=
  match l with
  | [] => []
  | x :: rest => (start, x) :: enumerate_from (start + 1) rest
  end.

Definition enumerate {A : Type} (l : list A) : list (Z * A) := enumerate_from 0 l.

(** [l[i]] with Python's negative indexing; [None] stands for [IndexError]. *)
Definition getitem {A : Type} (l : list A) (i : Z) : option A :=
  let n := Z.of_nat (List.length l) in
  if (0 <=? i) && (i <? n) then nth_error l (Z.to_nat i)
  else if (- n <=? i) && (i <? 0) then nth_error l (Z.to_nat (n + i))
  else None.

(* ===================================================================== *)
(** ** Data model                                                        *)
(* ===================================================================== *)

(** One element of [state["rows"]]. *)
Record Row : Type := mkRow {
  row_number : Z;
  prompt : string;
  image_url : string
}.

(** [class WorkflowState(TypedDict)].  The two post identifiers hold whatever
    truthy value the platform returned under ["id"]. *)
Record WorkflowState : Type := mkState {
  rows : list Row;
  current_row_index : Z;
  caption : option string;
  post_id : option json;
  facebook_post_id : option json;
  error : option string
}.

Definition set_rows (st : WorkflowState) (r : list Row) : WorkflowState :=
  mkState r (current_row_index st) (caption st) (post_id st) (facebook_post_id st) (error st).
Definition set_current_row_index (st : WorkflowState) (i : Z) : WorkflowState :=
  mkState (rows st) i (caption st) (post_id st) (facebook_post_id st) (error st).
Definition set_caption (st : WorkflowState) (c : option string) : WorkflowState :=
  mkState (rows st) (current_row_index st) c (post_id st) (facebook_post_id st) (error st).
Definition set_post_id (st : WorkflowState) (p : option json) : WorkflowState :=
  mkState (rows st) (current_row_index st) (caption st) p (facebook_post_id st) (error st).
Definition set_facebook_post_id (st : WorkflowState) (p : option json) : WorkflowState :=
  mkState (rows st) (current_row_index st) (caption st) (post_id st) p (error st).
Definition set_error (st : WorkflowState) (e : option string) : WorkflowState :=
  mkState (rows st) (current_row_index st) (caption st) (post_id st) (facebook_post_id st) e.

(** The dictionary built in [run_workflow]. *)
Definition initial_state : WorkflowState :=
  mkState [] 0 None None None None.

(* ===================================================================== *)
(** ** The row filter of [filter_rows]                                   *)
(* ===================================================================== *)

(** The condition of the comprehension: [len(row) > 1 and row[0] and row[1]].
    [and] short-circuits, so the two subscripts are only evaluated on rows of
    length at least two. *)
Definition row_qualifies (row : list string) : bool :=
  (1 <? Z.of_nat (List.length row)) && str_truthy (nth 0 row "") && str_truthy (nth 1 row "").

(** The element expression of the comprehension. *)
Definition make_row (idx : Z) (row : list string) : Row :=
  mkRow (idx + 2) (nth 0 row "")
        (if 1 <? Z.of_nat (List.length row) then nth 1 row "" else "").

(** [[{...} for idx, row in enumerate(values[1:]) if ...]]. *)
Definition filtered_rows (values : list (list string)) : list Row :=
  map (fun p => make_row (fst p) (snd p))
      (filter (fun p => row_qualifies (snd p)) (enumerate (tl values))).

(** The table of the specification's scenario. *)
Definition scenario_table : list (list string) :=
  [ ["p"; "u"]; ["desc1"; "http://a"]; [""; "http://b"]; ["desc3"; "http://c"] ].

(* ===================================================================== *)
(** ** Exceptions, effects and the outside world                         *)
(* ===================================================================== *)

(** The exception classes the handlers of the program tell apart. *)
Inductive exn : Type :=
| HttpError (status : Z) (msg : string)
    (** [googleapiclient.errors.HttpError]: [e.resp.status] and [str(e)] *)
| HTTPError (msg : string) (response_text : string)
    (** [requests.exceptions.HTTPError] of [raise_for_status]: [str(e)] and
        [e.response.text] *)
| Exception (msg : string).
    (** any other subclass of [Exception], with its [str(e)] *)

Definition str (e : exn) : string :=
  match e with
  | HttpError _ msg => msg
  | HTTPError msg _ => msg
  | Exception msg => msg
  end.

Inductive Result (A : Type) : Type :=
| Ok (a : A)
| Raise (e : exn).
Arguments Ok {A} a.
Arguments Raise {A} e.

(** A [requests.Response] as the program reads it.  [decoded = None] means
    that [response.json()] raises. *)
Record Response : Type := mkResponse {
  status_code : Z;
  text : string;
  decoded : option json
}.

(** The effects a node performs, in the order it performs them. *)
Inductive Event : Type :=
| EvSheetsService
| EvValuesGet (spreadsheetId range_name : string)
| EvValuesClear (spreadsheetId range_name : string)
| EvLlmInvoke (model api_key prompt : string)
| EvPost (url : string) (data : list (string * json))
| EvSleep (seconds : Z).

Definition Trace : Type := list Event.

(** The outside world: each call is answered from the history of effects
    that precede it. *)
Record Env : Type := mkEnv {
  sheets_service : Trace -> option exn;
    (** [get_sheets_service()]: [None] when the client is built *)
  values_get : string -> string -> Trace -> Result (option (list (list string)));
    (** [spreadsheets().values().get(...).execute()]: the ["values"] entry
        of the result, if it has one *)
  values_clear : string -> string -> Trace -> option exn;
    (** [spreadsheets().values().clear(...).execute()] *)
  llm_invoke : string -> string -> string -> Trace -> Result string;
    (** [ChatGoogleGenerativeAI(...).invoke(prompt).content] *)
  requests_post : string -> list (string * json) -> Trace -> Result Response
    (** [requests.post(url, data=..., verify=True)] *)
}.

(** Pure functions of Python and of the [requests] library that the program
    calls and that are not given by the repository. *)
Record Runtime : Type := mkRuntime {
  strip : string -> string;             (** [str.strip] *)
  repr : json -> string;                (** formatting of a value in an f-string *)
  json_error_msg : Response -> string;  (** [str] of the error of [.json()] *)
  http_error_msg : Response -> string   (** [str] of the error of [raise_for_status] *)
}.

(** The settings read from the process environment. *)
Record Config : Type := mkConfig {
  GEMINI_API_KEY : string;
  SPREADSHEET_ID : string;
  SHEET_NAME : string;
  INSTAGRAM_ACCOUNT_ID : string;
  INSTAGRAM_ACCESS_TOKEN : string;
  FACEBOOK_ACCESS_TOKEN : string
}.

(** Computations that perform effects and may raise. *)
Definition M (A : Type) : Type := Trace -> Result A * Trace.

Definition ret {A : Type} (a : A) : M A := fun tr => (Ok a, tr).

Definition raise {A : Type} (e : exn) : M A := fun tr => (Raise e, tr).

Definition bind {A B : Type} (m : M A) (k : A -> M B) : M B :=
  fun tr =>
    match m tr with
    | (Ok a, tr') => k a tr'
    | (Raise e, tr') => (Raise e, tr')
    end.

(** [try: body / except Exception as e: handler]. *)
Definition try_except {A : Type} (body : M A) (handler : exn -> M A) : M A :=
  fun tr =>
    match body tr with
    | (Ok a, tr') => (Ok a, tr')
    | (Raise e, tr') => handler e tr'
    end.

Declare Scope m_scope.
Delimit Scope m_scope with m.
Notation "x <- m ;; k" := (bind m (fun x => k))
  (at level 61, m at next level, right associativity) : m_scope.
Notation "m ;;; k" := (bind m (fun _ => k))
  (at level 61, right associativity) : m_scope.
Open Scope m_scope.

(** [time.sleep(seconds)]. *)
Definition sleep (seconds : Z) : M unit :=
  fun tr => (Ok tt, tr ++ [EvSleep seconds]).

(** Lifting of an optional lookup that raises when it fails. *)
Definition or_raise {A : Type} (o : option A) (e : exn) : M A :=
  match o with
  | Some a => ret a
  | None => raise e
  end.

(** [d.get(key)] and [d.get(key, default)]: [AttributeError] on a value that
    is not a dictionary. *)
Definition dict_get_default (d : json) (key : string) (default : json) : M json :=
  match d with
  | JDict entries =>
      ret (match assoc key entries with Some v => v | None => default end)
  | _ => raise (Exception ("'" ++ type_name d ++ "' object has no attribute 'get'"))
  end.

Definition dict_get (d : json) (key : string) : M json :=
  dict_get_default d key JNull.

(** [s[:50]] inside a logged f-string, for an optional string. *)
Definition subscript_optional (s : option string) : M unit :=
  match s with
  | Some _ => ret tt
  | None => raise (Exception "'NoneType' object is not subscriptable")
  end.

(** [state["rows"][state["current_row_index"]]]. *)
Definition current_row_of (st : WorkflowState) : M Row :=
  or_raise (getitem (rows st) (current_row_index st))
           (Exception "list index out of range").

(** [state["current_row_index"] >= len(state["rows"])]. *)
Definition exhausted (st : WorkflowState) : bool :=
  Z.of_nat (List.length (rows st)) <=? current_row_index st.

Definition max_retries : nat := 5.

(** The statuses on which a Sheets call is tried again. *)
Definition sheets_retryable (status : Z) : bool :=
  existsb (Z.eqb status) [429; 500; 503].

(* ===================================================================== *)
(** ** Endpoints and graph vocabulary                                    *)
(* ===================================================================== *)

Definition create_media_url (cfg : Config) : string :=
  ("https://graph.instagram.com/v21.0/" ++ INSTAGRAM_ACCOUNT_ID cfg ++ "/media")%string.

Definition publish_url (cfg : Config) : string :=
  ("https://graph.instagram.com/v21.0/" ++ INSTAGRAM_ACCOUNT_ID cfg ++ "/media_publish")%string.

Definition facebook_url : string := "https://graph.facebook.com/v21.0/me/photos".

(** The nodes added to the graph. *)
Inductive Node : Type :=
| FilterRows
| GenerateCaption
| CreateInstagramPost
| CreateFacebookPost
| ClearRow.

(** Where an edge leads. *)
Inductive Target : Type :=
| Goto (n : Node)
| END.

(** How a run of the compiled graph ends. *)
Inductive RunStatus : Type :=
| Finished                (** an edge led to [END] within the limit *)
| OutOfSteps              (** the recursion error of the runner: the limit
                              was reached before it saw the end *)
| Crashed (e : exn).      (** an exception left a node *)

Record Run : Type := mkRun {
  updates : list (Node * WorkflowState);
    (** the events of [graph.stream]: each node run and the state it returned *)
  status : RunStatus;
  final_state : WorkflowState;
  effects : Trace
}.

(** What one pass through the body of a retry loop decides. *)
Inductive LoopAction : Type :=
| Return (st : WorkflowState)   (** [return state] from inside the loop *)
| NextAttempt.                  (** go on with the next value of [attempt] *)

(** The form fields of the two Instagram posts. *)
Definition media_payload (cfg : Config) (row : Row) (c : string)
  : list (string * json) :=
  [ ("image_url", JStr (image_url row));
    ("caption", JStr c);
    ("access_token", JStr (INSTAGRAM_ACCESS_TOKEN cfg)) ].

Definition publish_payload (cfg : Config) (media_id : json)
  : list (string * json) :=
  [ ("creation_id", media_id);
    ("access_token", JStr (INSTAGRAM_ACCESS_TOKEN cfg)) ].

(* ===================================================================== *)
(** ** Observations on traces and responses                              *)
(* ===================================================================== *)

Definition is_sleep (e : Event) : bool :=
  match e with EvSleep _ => true | _ => false end.

Definition is_call (e : Event) : bool := negb (is_sleep e).

(** The arguments of the [time.sleep] calls of a trace, in order. *)
Fixpoint sleeps_of (tr : Trace) : list Z :=
  match tr with
  | [] => []
  | EvSleep seconds :: rest => seconds :: sleeps_of rest
  | _ :: rest => sleeps_of rest
  end.

(** The number of calls to the outside world in a trace. *)
Definition attempts_of (tr : Trace) : nat := List.length (filter is_call tr).

(** The number of sleeps that have a call before them and a call after
    them.  [seen] tells whether a call has occurred already. *)
Fixpoint sleeps_between (seen : bool) (tr : Trace) : nat :=
  match tr with
  | [] => O
  | e :: rest =>
      if is_sleep e
      then ((if seen && existsb is_call rest then 1 else 0) + sleeps_between seen rest)%nat
      else sleeps_between true rest
  end.

(** The effects of a loop all of whose passes call and then sleep. *)
Definition call_and_sleep (call : Event) (attempts : list Z) : Trace :=
  flat_map (fun attempt => [call; EvSleep (2 ^ attempt)]) attempts.

(** The number of posts to the publish endpoint in a trace. *)
Definition publish_count (cfg : Config) (tr : Trace) : nat :=
  List.length
    (filter (fun e => match e with
                      | EvPost url _ => (url =? publish_url cfg)%string
                      | _ => false
                      end) tr).

Definition touches_sheet (e : Event) : bool :=
  match e with
  | EvSheetsService | EvValuesGet _ _ | EvValuesClear _ _ => true
  | _ => false
  end.

(** Effects that leave the sheet alone. *)
Definition off_sheet (e : Event) : bool := negb (touches_sheet e).

(** The specification's "media not ready" signature: the body is an object
    whose ["error"] object has code 9007 and subcode 2207027. *)
Definition is_int (v : option json) (n : Z) : bool :=
  match v with
  | Some (JInt z) => z =? n
  | _ => false
  end.

Definition carries_pair (r : Response) : bool :=
  match decoded r with
  | Some (JDict body) =>
      match assoc "error" body with
      | Some (JDict err) =>
          is_int (assoc "code" err) 9007 && is_int (assoc "error_subcode" err) 2207027
      | _ => false
      end
  | _ => false
  end.

(** A body that is a JSON object without an ["id"] member. *)
Definition lacks_id (r : Response) : bool :=
  match decoded r with
  | Some (JDict body) => match assoc "id" body with None => true | Some _ => false end
  | _ => false
  end.

(** A body that is a JSON object whose ["id"] member is the string [id]. *)
Definition has_id (r : Response) (id : string) : Prop :=
  exists body, decoded r = Some (JDict body) /\ assoc "id" body = Some (JStr id).

(** [needle in s]. *)
Fixpoint contains (needle s : string) : bool :=
  if String.prefix needle s then true
  else match s with
       | EmptyString => false
       | String _ s' => contains needle s'
       end.

(** Strictly increasing lists of integers. *)
Fixpoint increasing_from (lo : Z) (l : list Z) : Prop :=
  match l with
  | [] => True
  | x :: rest => lo < x /\ increasing_from x rest
  end.

Definition increasing (l : list Z) : Prop :=
  match l with
  | [] => True
  | x :: rest => increasing_from x rest
  end.

(** The reading of the raw table into rows.  The raw index of a sheet row
    is the index the comprehension enumerates, that of the row in the table
    once the header is dropped ([values[1:]]): the filtered list holds
    exactly the rows of that table whose columns A and B are both non-empty,
    each with the row number raw index + 2. *)
Definition rows_at_raw_index (values : list (list string))
    (filtered : list Row) : Prop :=
  forall r : Row,
    In r filtered <->
    exists (idx : nat) (row : list string),
      nth_error (tl values) idx = Some row /\
      nth 0 row "" <> "" /\ nth 1 row "" <> "" /\
      r = mkRow (Z.of_nat idx + 2) (nth 0 row "") (nth 1 row "").

Definition is_clear_row (n : Node) : bool :=
  match n with ClearRow => true | _ => false end.

Definition is_publish_node (n : Node) : bool :=
  match n with CreateInstagramPost | CreateFacebookPost => true | _ => false end.

(** Rows whose clear step ran. *)
Definition completed_rows (ups : list (Node * WorkflowState)) : nat :=
  List.length (filter (fun u => is_clear_row (fst u)) ups).

(** Rows given up at a publish step: the node returned with an error set. *)
Definition abandoned_rows (ups : list (Node * WorkflowState)) : nat :=
  List.length
    (filter (fun u => is_publish_node (fst u) && opt_truthy (error (snd u))) ups).

(** The row at index [i] entered processing: [generate_caption] ran on it. *)
Definition row_processed (ups : list (Node * WorkflowState)) (i : Z) : Prop :=
  exists st, In (GenerateCaption, st) ups /\ current_row_index st = i.

(** Each update leaves the index where it was, or is a clear step that
    moves it forward by one. *)
Fixpoint index_steps (prev : Z) (ups : list (Node * WorkflowState)) : Prop :=
  match ups with
  | [] => True
  | (n, st) :: rest =>
      (current_row_index st = prev \/
       (n = ClearRow /\ current_row_index st = prev + 1))
      /\ index_steps (current_row_index st) rest
  end.

(** Every effect a computation adds to the trace satisfies [P]. *)
Definition emits_only (P : Event -> bool) {A : Type} (m : M A) : Prop :=
  forall tr r tr',
    m tr = (r, tr') -> exists evs, tr' = tr ++ evs /\ forallb P evs = true.

(** Every value a computation returns satisfies [Q]. *)
Definition returns_with {A : Type} (Q : A -> Prop) (m : M A) : Prop :=
  forall tr a tr', m tr = (Ok a, tr') -> Q a.

(** A computation never raises. *)
Definition never_raises {A : Type} (m : M A) : Prop :=
  forall tr, exists a tr', m tr = (Ok a, tr').

(** Two states on the same row of the same rows. *)
Definition same_row (st st' : WorkflowState) : Prop :=
  rows st' = rows st /\ current_row_index st' = current_row_index st.

(** The claim that a publish failure leaves later rows to be processed in
    the same run: whenever a publish node returned with an error on the row
    at index [i] and a row exists at [i + 1], that row enters processing. *)
Definition later_rows_processed (r : Run) : Prop :=
  forall i : Z,
    (exists n st, In (n, st) (updates r) /\ is_publish_node n = true /\
                  opt_truthy (error st) = true /\ current_row_index st = i) ->
    i + 1 < Z.of_nat (List.length (rows (final_state r))) ->
    row_processed (updates r) (i + 1).

(** The claim that the index advances by one for each completed and each
    abandoned row. *)
Definition index_counts_abandoned (r : Run) : Prop :=
  current_row_index (final_state r) =
  Z.of_nat (completed_rows (updates r) + abandoned_rows (updates r)).

(** The seconds slept in a trace, summed. *)
Definition total_sleep (tr : Trace) : Z := fold_right Z.add 0 (sleeps_of tr).

(** The seconds slept by a loop that backs off on every attempt of a list. *)
Definition backoff_total (attempts : list Z) : Z :=
  fold_right (fun attempt acc => 2 ^ attempt + acc) 0 attempts.

(** A computation adds at most [calls] calls to the trace and sleeps at most
    [slept] seconds. *)
Definition costs (calls : nat) (slept : Z) {A : Type} (m : M A) : Prop :=
  forall tr r tr',
    m tr = (r, tr') ->
    exists evs, tr' = tr ++ evs /\
                (attempts_of evs <= calls)%nat /\ total_sleep evs <= slept.

(** An outcome of a Sheets call that the retry loops do not retry. *)
Definition settled {A : Type} (outcome : Result A) : Prop :=
  match outcome with
  | Raise (HttpError status _) => sheets_retryable status = false
  | _ => True
  end.

(** The nodes that contain a retry loop. *)
Definition has_retry_loop (n : Node) : bool :=
  match n with
  | GenerateCaption | CreateFacebookPost => false
  | _ => true
  end.


(** [s] begins with [p]. *)
Definition starts_with (p s : string) : Prop :=
  exists rest, s = (p ++ rest)%string.

(** An answer to a POST from which the step cannot take an identifier:
    the call raised, the status is in 400..599, the body does not decode,
    or the decoded body is not an object with a truthy ["id"]. *)
Definition answer_fails (outcome : Result Response) : Prop :=
  match outcome with
  | Raise _ => True
  | Ok r =>
      400 <= status_code r < 600 \/
      decoded r = None \/
      exists v, decoded r = Some v /\
                forall body, v = JDict body -> field_truthy (assoc "id" body) = false
  end.

(** What a guarded step may change: the rows and the index never; a field
    other than its own never; nothing but the error when it reports one;
    and when it reports none, the error is absent. *)
Definition step_frame (n : Node) (st st' : WorkflowState) : Prop :=
  rows st' = rows st /\
  current_row_index st' = current_row_index st /\
  (n <> GenerateCaption -> caption st' = caption st) /\
  (n <> CreateInstagramPost -> post_id st' = post_id st) /\
  (n <> CreateFacebookPost -> facebook_post_id st' = facebook_post_id st) /\
  (opt_truthy (error st') = true ->
   caption st' = caption st /\ post_id st' = post_id st /\
   facebook_post_id st' = facebook_post_id st) /\
  (opt_truthy (error st') = false -> error st' = None).

(** The state is on the row [row], inside the rows. *)
Definition at_row (st : WorkflowState) (row : Row) : Prop :=
  0 <= current_row_index st < Z.of_nat (List.length (rows st)) /\
  nth_error (rows st) (Z.to_nat (current_row_index st)) = Some row.

(** The form fields of the Facebook post. *)
Definition facebook_payload (cfg : Config) (row : Row) (c : string)
  : list (string * json) :=
  [ ("url", JStr (image_url row));
    ("caption", JStr c);
    ("access_token", JStr (FACEBOOK_ACCESS_TOKEN cfg)) ].


(** The rows the data model admits: a sheet row below the header, with a
    prompt and an image address. *)
Definition valid_row (r : Row) : Prop :=
  2 <= row_number r /\ prompt r <> "" /\ image_url r <> "".

(** The node that follows a node when the run goes on. *)
Definition successor (n : Node) : Node :=
  match n with
  | FilterRows => GenerateCaption
  | GenerateCaption => CreateInstagramPost
  | CreateInstagramPost => CreateFacebookPost
  | CreateFacebookPost => ClearRow
  | ClearRow => GenerateCaption
  end.

(** The nodes of a list are those of the pipeline from [n] on, in order. *)
Fixpoint in_order (n : Node) (nodes : list Node) : Prop :=
  match nodes with
  | [] => True
  | m :: rest => m = n /\ in_order (successor n) rest
  end.

(** Every clear step of a stream of updates comes right after an Instagram
    step and a Facebook step on the same row that both returned an
    identifier and no error.  [prev2] and [prev1] are the two updates before
    the list. *)
Fixpoint clears_follow_posts (prev2 prev1 : option (Node * WorkflowState))
    (ups : list (Node * WorkflowState)) : Prop :=
  match ups with
  | [] => True
  | (n, st) :: rest =>
      (n = ClearRow ->
       exists s1 s2,
         prev2 = Some (CreateInstagramPost, s1) /\
         prev1 = Some (CreateFacebookPost, s2) /\
         field_truthy (post_id s1) = true /\ error s1 = None /\
         field_truthy (post_id s2) = true /\
         field_truthy (facebook_post_id s2) = true /\ error s2 = None /\
         current_row_index s2 = current_row_index s1 /\
         current_row_index st = current_row_index s2 + 1)
      /\ clears_follow_posts prev1 (Some (n, st)) rest
  end.

(** The states in which the runner enters a node: the index is not
    negative, and the clear step is entered in bounds. *)
Definition entry_ok (n : Node) (st : WorkflowState) : Prop :=
  0 <= current_row_index st /\ (n = ClearRow -> exhausted st = false).

(** What the two updates before a node say when the runner enters it. *)
Definition posts_recorded (n : Node) (st : WorkflowState)
    (prev2 prev1 : option (Node * WorkflowState)) : Prop :=
  (n = CreateFacebookPost ->
   prev1 = Some (CreateInstagramPost, st) /\
   field_truthy (post_id st) = true /\ error st = None) /\
  (n = ClearRow ->
   exists s1,
     prev2 = Some (CreateInstagramPost, s1) /\
     prev1 = Some (CreateFacebookPost, st) /\
     field_truthy (post_id s1) = true /\ error s1 = None /\
     field_truthy (post_id st) = true /\
     field_truthy (facebook_post_id st) = true /\ error st = None /\
     current_row_index st = current_row_index s1).

(** A run that did not end on an exception. *)
Definition never_crashed (s : RunStatus) : Prop :=
  match s with
  | Crashed _ => False
  | _ => True
  end.


(* ===================================================================== *)
(** ** The settings check at start-up                                    *)
(* ===================================================================== *)

Definition required_vars : list string :=
  [ "GOOGLE_CREDENTIALS_PATH";
    "GEMINI_API_KEY";
    "SPREADSHEET_ID";
    "SHEET_NAME";
    "INSTAGRAM_ACCOUNT_ID";
    "INSTAGRAM_ACCESS_TOKEN";
    "FACEBOOK_PAGE_ID";
    "FACEBOOK_ACCESS_TOKEN" ].

(** [[var for var in required_vars if not os.getenv(var)]]. *)
Definition missing_vars (getenv : string -> option string) : list string :=
  filter (fun var => negb (opt_truthy (getenv var))) required_vars.

(** [if missing_vars: raise ValueError(...)], run when the module loads. *)
Definition check_required_vars (getenv : string -> option string) : Result unit :=
  match missing_vars getenv with
  | [] => Ok tt
  | missing =>
      Raise (Exception ("Missing required environment variables: "
                        ++ String.concat ", " missing)%string)
  end.

(** Every effect a computation adds to the trace satisfies the
    proposition [P]. *)
Definition effects_in (P : Event -> Prop) {A : Type} (m : M A) : Prop :=
  forall tr r tr',
    m tr = (r, tr') -> exists evs, tr' = tr ++ evs /\ Forall P evs.

Definition is_a_sleep (e : Event) : Prop := exists seconds, e = EvSleep seconds.


(* ===================================================================== *)
(** ** Scripted worlds for the scenarios                                 *)
(* ===================================================================== *)

Module Scenario.

Definition cfg : Config :=
  mkConfig "gemini-key" "sheet-id" "Sheet1" "1784" "ig-token" "fb-token".

Definition rt : Runtime :=
  mkRuntime (fun s => s) (fun _ => "{...}") (fun _ => "Expecting value")
            (fun r => (str_of_Z (status_code r) ++ " Client Error")%string).

Definition ok_id (id : string) : Response :=
  mkResponse 200 "{id}" (Some (JDict [("id", JStr id)])).

Definition not_ready : Response :=
  mkResponse 400 "{error: media not ready}"
    (Some (JDict [("error", JDict [("message", JStr "Media ID is not available");
                                   ("code", JInt 9007);
                                   ("error_subcode", JInt 2207027)])])).

(** The media-not-ready body under status 200. *)
Definition not_ready_but_200 : Response :=
  mkResponse 200 "{error: media not ready}"
    (Some (JDict [("error", JDict [("code", JInt 9007);
                                   ("error_subcode", JInt 2207027)])])).

Definition bad_request : Response :=
  mkResponse 400 "{error: invalid parameter}"
    (Some (JDict [("error", JDict [("code", JInt 100)])])).

Definition no_id : Response := mkResponse 200 "{}" (Some (JDict [])).

(** A redirect without a location, which [requests] hands back as it is. *)
Definition redirect : Response := mkResponse 302 "" (Some (JDict [])).

(** A world with a fixed answer per endpoint; the publish endpoint answers
    by the number of publish posts made before. *)
Definition world
    (table : Result (option (list (list string)))) (cleared : option exn)
    (container : Response) (publish : nat -> Response) (facebook : Response)
  : Env :=
  mkEnv (fun _ => None)
        (fun _ _ _ => table)
        (fun _ _ _ => cleared)
        (fun _ _ _ _ => Ok "  A caption #tag  ")
        (fun url _ tr =>
           Ok (if (url =? publish_url cfg)%string then publish (publish_count cfg tr)
               else if (url =? create_media_url cfg)%string then container
               else facebook)).

(** Every call succeeds at once. *)
Definition happy : Env :=
  world (Ok (Some scenario_table)) None (ok_id "17") (fun _ => ok_id "999") (ok_id "55").

(** The container creation of Instagram is refused. *)
Definition instagram_down : Env :=
  world (Ok (Some scenario_table)) None bad_request (fun _ => ok_id "999") (ok_id "55").

(** The sheet cannot be read. *)
Definition fetch_denied : Env :=
  world (Raise (HttpError 403 "forbidden")) None (ok_id "17") (fun _ => ok_id "999") (ok_id "55").

(** Every retried call keeps failing in the retryable way. *)
Definition busy : Env :=
  world (Raise (HttpError 503 "unavailable")) (Some (HttpError 503 "unavailable"))
        (ok_id "17") (fun _ => not_ready) (ok_id "55").

(** The media is ready on the fourth publish attempt. *)
Definition ready_on_fourth : Env :=
  world (Ok (Some scenario_table)) None (ok_id "17")
        (fun k => if (k <? 3)%nat then not_ready else ok_id "999") (ok_id "55").

(** The publish endpoint answers 200 with an empty object. *)
Definition publish_without_id : Env :=
  world (Ok (Some scenario_table)) None (ok_id "17") (fun _ => no_id) (ok_id "55").

(** States at the entry of a step for the first row of the scenario table. *)
Definition two_rows : list Row :=
  [ mkRow 2 "desc1" "http://a"; mkRow 4 "desc3" "http://c" ].

Definition at_first_row : WorkflowState :=
  mkState two_rows 0 (Some "A caption #tag") None None None.

Definition posted_first_row : WorkflowState :=
  mkState two_rows 0 (Some "A caption #tag") (Some (JStr "999")) (Some (JStr "55")) None.

(** The state left by [filter_rows] when the sheet cannot be read. *)
Definition fetch_failed : WorkflowState :=
  mkState [] 0 None None None (Some "Error filtering rows: forbidden").

(** The number of events of a trace that satisfy [p]. *)
Definition seen (p : Event -> bool) (tr : Trace) : nat :=
  List.length (filter p tr).

Definition is_get (e : Event) : bool :=
  match e with EvValuesGet _ _ => true | _ => false end.

Definition is_clear (e : Event) : bool :=
  match e with EvValuesClear _ _ => true | _ => false end.

(** Reads and clears of the sheet fail twice with 503 before they succeed,
    and the media is ready on the third publish attempt. *)
Definition flaky : Env :=
  mkEnv (fun _ => None)
        (fun _ _ tr =>
           if (seen is_get tr <? 2)%nat
           then Raise (HttpError 503 "unavailable")
           else Ok (Some scenario_table))
        (fun _ _ tr =>
           if (seen is_clear tr <? 2)%nat
           then Some (HttpError 503 "unavailable")
           else None)
        (fun _ _ _ _ => Ok "A caption #tag")
        (fun url _ tr =>
           Ok (if (url =? publish_url cfg)%string
               then (if (publish_count cfg tr <? 2)%nat then not_ready else ok_id "999")
               else ok_id "17")).

(** The language model refuses every prompt. *)
Definition model_down : Env :=
  mkEnv (fun _ => None)
        (fun _ _ _ => Ok (Some scenario_table))
        (fun _ _ _ => None)
        (fun _ _ _ _ => Raise (Exception "quota exceeded"))
        (fun _ _ _ => Ok (ok_id "17")).

(** The Facebook post is refused. *)
Definition facebook_down : Env :=
  world (Ok (Some scenario_table)) None (ok_id "17") (fun _ => ok_id "999") bad_request.

(** The sheet holds its header and nothing else. *)
Definition header_only : Env :=
  world (Ok (Some [["p"; "u"]])) None (ok_id "17") (fun _ => ok_id "999") (ok_id "55").

(** The first row before its caption is generated. *)
Definition uncaptioned : WorkflowState :=
  mkState two_rows 0 None None None None.

(** The first row after its Instagram post. *)
Definition posted_instagram : WorkflowState :=
  mkState two_rows 0 (Some "A caption #tag") (Some (JStr "999")) None None.

(** An index below the range of Python's negative subscripts. *)
Definition below_range : WorkflowState :=
  mkState two_rows (-3) None None None None.

(** A process environment in which one variable is unset and one is
    empty. *)
Definition partial_environment (var : string) : option string :=
  if (var =? "SHEET_NAME")%string then None
  else if (var =? "FACEBOOK_PAGE_ID")%string then Some ""
  else Some "set".


End Scenario.

(* ===================================================================== *)
(** ** The workflow nodes                                                *)
(* ===================================================================== *)

Section Nodes.

Variable cfg : Config.
Variable rt : Runtime.
Variable env : Env.

(** *** Calls to the outside world, each recorded in the trace *)

Definition get_sheets_service : M unit :=
  fun tr =>
    (match sheets_service env tr with None => Ok tt | Some e => Raise e end,
     tr ++ [EvSheetsService]).

Definition execute_get (range_name : string) : M (option (list (list string))) :=
  fun tr =>
    (values_get env (SPREADSHEET_ID cfg) range_name tr,
     tr ++ [EvValuesGet (SPREADSHEET_ID cfg) range_name]).

Definition execute_clear (range_name : string) : M unit :=
  fun tr =>
    (match values_clear env (SPREADSHEET_ID cfg) range_name tr with
     | None => Ok tt
     | Some e => Raise e
     end,
     tr ++ [EvValuesClear (SPREADSHEET_ID cfg) range_name]).

Definition invoke (prompt_text : string) : M string :=
  fun tr =>
    (llm_invoke env "gemini-2.5-flash" (GEMINI_API_KEY cfg) prompt_text tr,
     tr ++ [EvLlmInvoke "gemini-2.5-flash" (GEMINI_API_KEY cfg) prompt_text]).

Definition post (url : string) (data : list (string * json)) : M Response :=
  fun tr => (requests_post env url data tr, tr ++ [EvPost url data]).

(** [response.raise_for_status()]. *)
Definition raise_for_status (r : Response) : M unit :=
  if (400 <=? status_code r) && (status_code r <? 600)
  then raise (HTTPError (http_error_msg rt r) (text r))
  else ret tt.

(** [response.json()]. *)
Definition response_json (r : Response) : M json :=
  or_raise (decoded r) (Exception (json_error_msg rt r)).

(** *** Node 1: [filter_rows] *)

(** The [for attempt in range(max_retries): ... else: raise] loop around the
    read of the sheet. *)
Fixpoint get_with_retries (range_name : string) (attempts : list Z)
  : M (option (list (list string))) :=
  match attempts with
  | [] => raise (Exception "Max retries exceeded for Google Sheets API call")
  | attempt :: rest =>
      try_except (execute_get range_name)
        (fun e =>
           match e with
           | HttpError status _ =>
               if sheets_retryable status
               then sleep (2 ^ attempt) ;;; get_with_retries range_name rest
               else raise e
           | _ => raise e
           end)
  end.

Definition filter_rows (state : WorkflowState) : M WorkflowState :=
  try_except
    (get_sheets_service ;;;
     let range_name := (SHEET_NAME cfg ++ "!A1:DZ")%string in
     result <- get_with_retries range_name (range max_retries) ;;
     let values := match result with Some v => v | None => [] end in
     ret (set_error
            (set_current_row_index (set_rows state (filtered_rows values)) 0)
            None))
    (fun e =>
       match e with
       | HttpError _ _ =>
           ret (set_error state (Some ("Error filtering rows: " ++ str e)%string))
       | _ =>
           ret (set_error state (Some ("Error filtering rows: " ++ str e)%string))
       end).

(** *** Node 2: [generate_caption] *)

Definition caption_prompt (row_prompt : string) : string :=
  ("Generate a single, concise Instagram post description in English (max 150 words) including trending hashtags "
   ++ "relevant to the content and brand for an image generated by AI based on the following prompt: "
   ++ "'" ++ row_prompt ++ "'. The description should be engaging, highlight the key "
   ++ "elements of the image or product, and align with the brand's aesthetic. Do not provide multiple options; "
   ++ "provide only one description with a maximum of 150 words, including trending hashtags relevant to the content and brand.")%string.

Definition generate_caption (state : WorkflowState) : M WorkflowState :=
  if opt_truthy (error state) then ret state
  else if exhausted state
  then ret (set_error state (Some "No more rows to process"))
  else
    try_except
      (current_row <- current_row_of state ;;
       content <- invoke (caption_prompt (prompt current_row)) ;;
       ret (set_error (set_caption state (Some (strip rt content))) None))
      (fun e =>
         ret (set_error state (Some ("Error generating caption: " ++ str e)%string))).

(** *** Node 3: [create_instagram_post] *)

(** The body of the publish loop once [requests.post] has returned. *)
Definition handle_publish_response
    (state : WorkflowState) (attempt : Z) (publish_response : Response)
  : M LoopAction :=
  if status_code publish_response =? 200 then
    publish_data <- response_json publish_response ;;
    post_id <- dict_get publish_data "id" ;;
    if truthy post_id
    then ret (Return (set_error (set_post_id state (Some post_id)) None))
    else ret NextAttempt
  else
    error_json <- response_json publish_response ;;
    err <- dict_get_default error_json "error" (JDict []) ;;
    error_code <- dict_get err "code" ;;
    err' <- dict_get_default error_json "error" (JDict []) ;;
    error_subcode <- dict_get err' "error_subcode" ;;
    if eq_int error_code 9007 && eq_int error_subcode 2207027
    then
      let wait_time := 2 ^ attempt in
      sleep wait_time ;;; ret NextAttempt
    else
      raise_for_status publish_response ;;; ret NextAttempt.

(** [for attempt in range(max_retries): ...] followed by the [raise] after
    the loop.  [last] is the value of [publish_response] left by the
    previous pass. *)
Fixpoint publish_with_retries
    (state : WorkflowState) (publish_payload : list (string * json))
    (attempts : list Z) (last : option Response) : M WorkflowState :=
  match attempts with
  | [] =>
      match last with
      | Some publish_response =>
          raise (Exception ("Failed to publish media after "
                            ++ str_of_Z (Z.of_nat max_retries)
                            ++ " attempts: " ++ text publish_response)%string)
      | None =>
          raise (Exception "cannot access local variable 'publish_response' where it is not associated with a value")
      end
  | attempt :: rest =>
      publish_response <- post (publish_url cfg) publish_payload ;;
      action <- handle_publish_response state attempt publish_response ;;
      match action with
      | Return st => ret st
      | NextAttempt =>
          publish_with_retries state publish_payload rest (Some publish_response)
      end
  end.

Definition create_instagram_post (state : WorkflowState) : M WorkflowState :=
  if opt_truthy (error state) then ret state
  else if exhausted state
  then ret (set_error state (Some "No more rows to process"))
  else
    try_except
      (current_row <- current_row_of state ;;
       subscript_optional (caption state) ;;;
       let payload :=
         [ ("image_url", JStr (image_url current_row));
           ("caption", match caption state with Some c => JStr c | None => JNull end);
           ("access_token", JStr (INSTAGRAM_ACCESS_TOKEN cfg)) ] in
       response <- post (create_media_url cfg) payload ;;
       raise_for_status response ;;;
       response_data <- response_json response ;;
       media_id <- dict_get response_data "id" ;;
       if negb (truthy media_id)
       then raise (Exception ("Failed to create media container: "
                              ++ repr rt response_data)%string)
       else
         let publish_payload :=
           [ ("creation_id", media_id);
             ("access_token", JStr (INSTAGRAM_ACCESS_TOKEN cfg)) ] in
         publish_with_retries state publish_payload (range max_retries) None)
      (fun e =>
         ret (set_error state (Some ("Error creating Instagram post: " ++ str e)%string))).

(** *** Node 3b: [create_facebook_post] *)

Definition create_facebook_post (state : WorkflowState) : M WorkflowState :=
  if opt_truthy (error state) then ret state
  else if exhausted state
  then ret (set_error state (Some "No more rows to process"))
  else
    try_except
      (current_row <- current_row_of state ;;
       subscript_optional (caption state) ;;;
       let payload :=
         [ ("url", JStr (image_url current_row));
           ("caption", match caption state with Some c => JStr c | None => JNull end);
           ("access_token", JStr (FACEBOOK_ACCESS_TOKEN cfg)) ] in
       response <- post facebook_url payload ;;
       raise_for_status response ;;;
       response_data <- response_json response ;;
       post_id <- dict_get response_data "id" ;;
       if negb (truthy post_id)
       then raise (Exception ("Failed to create Facebook post: "
                              ++ repr rt response_data)%string)
       else ret (set_error (set_facebook_post_id state (Some post_id)) None))
      (fun e =>
         match e with
         | HTTPError msg response_text =>
             ret (set_error state
                    (Some ("Error creating Facebook post: " ++ msg
                           ++ ". Response: " ++ response_text)%string))
         | _ =>
             ret (set_error state (Some ("Error creating Facebook post: " ++ str e)%string))
         end).

(** *** Node 4: [clear_row] *)

(** The retry loop around the clear of one row of the sheet. *)
Fixpoint clear_with_retries (range_name : string) (attempts : list Z) : M unit :=
  match attempts with
  | [] => raise (Exception "Max retries exceeded for Google Sheets API call")
  | attempt :: rest =>
      try_except (execute_clear range_name)
        (fun e =>
           match e with
           | HttpError status _ =>
               if sheets_retryable status
               then sleep (2 ^ attempt) ;;; clear_with_retries range_name rest
               else raise e
           | _ => raise e
           end)
  end.

(** The [try] statement of [clear_row]: the state as the handlers leave it,
    and the final value of [clear_success]. *)
Definition try_clear (state : WorkflowState) (current_row : option Row)
  : M (WorkflowState * bool) :=
  try_except
    (row <- or_raise current_row (Exception "list index out of range") ;;
     let range_name :=
       (SHEET_NAME cfg ++ "!A" ++ str_of_Z (row_number row)
        ++ ":DZ" ++ str_of_Z (row_number row))%string in
     get_sheets_service ;;;
     clear_with_retries range_name (range max_retries) ;;;
     ret (state, true))
    (fun e =>
       ret (set_error state (Some ("Error clearing row: " ++ str e)%string), false)).

(** [current_row] is the local variable of that name: [None] when the
    subscript that assigns it raised, in which case the warning logged on a
    failed clear raises [UnboundLocalError] out of the node. *)
Definition clear_row (state : WorkflowState) : M WorkflowState :=
  if exhausted state
  then ret (set_error state (Some "No more rows to process"))
  else
    let current_row := getitem (rows state) (current_row_index state) in
    outcome <- try_clear state current_row ;;
    let st := fst outcome in
    let clear_success := snd outcome in
    let st :=
      set_facebook_post_id
        (set_post_id
           (set_caption
              (set_current_row_index st (current_row_index st + 1)) None) None) None in
    (if negb clear_success
     then or_raise current_row
            (Exception "cannot access local variable 'current_row' where it is not associated with a value")
          ;;; ret tt
     else ret tt) ;;;
    ret (set_error st None).

(* ===================================================================== *)
(** ** The graph                                                         *)
(* ===================================================================== *)

Definition decide_after_instagram (state : WorkflowState) : Target :=
  if field_truthy (post_id state) && negb (opt_truthy (error state))
  then Goto CreateFacebookPost
  else END.

Definition decide_after_facebook (state : WorkflowState) : Target :=
  if field_truthy (facebook_post_id state) && negb (opt_truthy (error state))
  then Goto ClearRow
  else END.

Definition decide_next_step (state : WorkflowState) : Target :=
  if exhausted state then END else Goto GenerateCaption.

(** [workflow.add_node]. *)
Definition node_fn (n : Node) : WorkflowState -> M WorkflowState :=
  match n with
  | FilterRows => filter_rows
  | GenerateCaption => generate_caption
  | CreateInstagramPost => create_instagram_post
  | CreateFacebookPost => create_facebook_post
  | ClearRow => clear_row
  end.

(** [workflow.add_edge] and [workflow.add_conditional_edges]. *)
Definition next_node (n : Node) (state : WorkflowState) : Target :=
  match n with
  | FilterRows => Goto GenerateCaption
  | GenerateCaption => Goto CreateInstagramPost
  | CreateInstagramPost => decide_after_instagram state
  | CreateFacebookPost => decide_after_facebook state
  | ClearRow => decide_next_step state
  end.

(** The runner of the graph library: it runs the current node, follows the
    edge chosen on the returned state, and gives up after [limit] nodes.
    Seeing that an edge led to [END] costs the runner one more step: a run of
    K nodes ends normally only under a limit of at least K + 1, and under a
    limit of exactly K the K nodes run, their updates are streamed, and the
    runner then stops with its recursion error. *)
Fixpoint run_graph (limit : nat) (n : Node) (state : WorkflowState) (tr : Trace)
  : Run :=
  match limit with
  | O => mkRun [] OutOfSteps state tr
  | S limit' =>
      match node_fn n state tr with
      | (Raise e, tr') => mkRun [] (Crashed e) state tr'
      | (Ok state', tr') =>
          match next_node n state' with
          | END =>
              mkRun [(n, state')]
                    (match limit' with O => OutOfSteps | S _ => Finished end)
                    state' tr'
          | Goto n' =>
              let r := run_graph limit' n' state' tr' in
              mkRun ((n, state') :: updates r) (status r) (final_state r) (effects r)
          end
      end
  end.

Definition recursion_limit : nat := 100.

(** [run_workflow]: the graph is entered at [filter_rows]. *)
Definition run_workflow : Run :=
  run_graph recursion_limit FilterRows initial_state [].

(** The step entries of a run: the node the runner calls, with the state it
    passes to it and the history at that point, for every node of the run
    in order.  It follows [run_graph] call by call. *)
Fixpoint entries (limit : nat) (n : Node) (state : WorkflowState) (tr : Trace)
  : list (Node * WorkflowState * Trace) :=
  match limit with
  | O => []
  | S limit' =>
      (n, state, tr) ::
      match node_fn n state tr with
      | (Raise _, _) => []
      | (Ok state', tr') =>
          match next_node n state' with
          | END => []
          | Goto n' => entries limit' n' state' tr'
          end
      end
  end.

(** What holds of the error whenever the runner enters a node: it is absent
    or tests true, and only [generate_caption] and [create_instagram_post]
    are entered with one. *)
Definition entry_error (n : Node) (st : WorkflowState) : Prop :=
  (error st = None \/ opt_truthy (error st) = true) /\
  (n = FilterRows \/ n = CreateFacebookPost \/ n = ClearRow -> error st = None).

(* ===================================================================== *)
(** ** Vocabulary of the statements                                      *)
(* ===================================================================== *)

(** The calls the program retries. *)
Inductive RetriedCall : Type :=
| SheetFetch (range_name : string)
| SheetClear (range_name : string)
| InstagramPublish (state : WorkflowState) (payload : list (string * json)).

(** The loop the program wraps around each of them, its value dropped. *)
Definition retry_loop (c : RetriedCall) : M unit :=
  match c with
  | SheetFetch range_name =>
      get_with_retries range_name (range max_retries) ;;; ret tt
  | SheetClear range_name =>
      clear_with_retries range_name (range max_retries)
  | InstagramPublish state payload =>
      publish_with_retries state payload (range max_retries) None ;;; ret tt
  end.

(** A publish response on which the loop backs off. *)
Definition media_not_ready (r : Response) : Prop :=
  status_code r <> 200 /\ carries_pair r = true.

(** Whenever the call is made, its outcome is one the loop retries. *)
Definition always_retryable (c : RetriedCall) : Prop :=
  match c with
  | SheetFetch range_name =>
      forall h, exists status msg,
        values_get env (SPREADSHEET_ID cfg) range_name h = Raise (HttpError status msg) /\
        sheets_retryable status = true
  | SheetClear range_name =>
      forall h, exists status msg,
        values_clear env (SPREADSHEET_ID cfg) range_name h = Some (HttpError status msg) /\
        sheets_retryable status = true
  | InstagramPublish _ payload =>
      forall h, exists r,
        requests_post env (publish_url cfg) payload h = Ok r /\ media_not_ready r
  end.

(** The failure each loop raises once its attempts are used up. *)
Definition max_retries_failure (c : RetriedCall) (e : exn) : Prop :=
  match c with
  | SheetFetch _ | SheetClear _ =>
      e = Exception "Max retries exceeded for Google Sheets API call"
  | InstagramPublish _ _ =>
      exists r, e = Exception ("Failed to publish media after 5 attempts: " ++ text r)%string
  end.

(** One pass of the publish loop takes the back-off path: it sleeps
    [2 ^ attempt] and goes on. *)
Definition backs_off (st : WorkflowState) (attempt : Z) (r : Response) (tr : Trace) : Prop :=
  handle_publish_response st attempt r tr = (Ok NextAttempt, tr ++ [EvSleep (2 ^ attempt)]).

(** One pass of the publish loop raises, which ends the loop. *)
Definition fatal (st : WorkflowState) (attempt : Z) (r : Response) (tr : Trace) : Prop :=
  exists e, handle_publish_response st attempt r tr = (Raise e, tr).

(** [create_instagram_post] is entered on a row with a caption and the
    container is created under the identifier [media_id]. *)
Definition container_created (st : WorkflowState) (tr : Trace) (row : Row)
    (c : string) (media_id : json) : Prop :=
  opt_truthy (error st) = false /\
  0 <= current_row_index st < Z.of_nat (List.length (rows st)) /\
  nth_error (rows st) (Z.to_nat (current_row_index st)) = Some row /\
  caption st = Some c /\
  exists resp body,
    requests_post env (create_media_url cfg) (media_payload cfg row c) tr = Ok resp /\
    ~ (400 <= status_code resp < 600) /\
    decoded resp = Some (JDict body) /\
    assoc "id" body = Some media_id /\
    truthy media_id = true.

(** Each attempt of [fails], made after the calls and sleeps of the
    attempts before it, is answered in the retryable way. *)
Definition fetch_fails_on (range_name : string) (tr : Trace) (fails : list Z) : Prop :=
  forall l1 x l2,
    fails = l1 ++ x :: l2 ->
    exists status msg,
      values_get env (SPREADSHEET_ID cfg) range_name
        (tr ++ call_and_sleep (EvValuesGet (SPREADSHEET_ID cfg) range_name) l1)
        = Raise (HttpError status msg) /\
      sheets_retryable status = true.

Definition clear_fails_on (range_name : string) (tr : Trace) (fails : list Z) : Prop :=
  forall l1 x l2,
    fails = l1 ++ x :: l2 ->
    exists status msg,
      values_clear env (SPREADSHEET_ID cfg) range_name
        (tr ++ call_and_sleep (EvValuesClear (SPREADSHEET_ID cfg) range_name) l1)
        = Some (HttpError status msg) /\
      sheets_retryable status = true.

Definition publish_not_ready_on (payload : list (string * json)) (tr : Trace)
    (fails : list Z) : Prop :=
  forall l1 x l2,
    fails = l1 ++ x :: l2 ->
    exists r,
      requests_post env (publish_url cfg) payload
        (tr ++ call_and_sleep (EvPost (publish_url cfg) payload) l1) = Ok r /\
      media_not_ready r.


(** The language model answers every prompt. *)
Definition model_always_answers : Prop :=
  forall model key p h, exists content, llm_invoke env model key p h = Ok content.

(** Every POST is answered with status 200 and an object whose ["id"]
    tests true. *)
Definition posts_always_succeed : Prop :=
  forall url data h,
    exists r body id,
      requests_post env url data h = Ok r /\
      status_code r = 200 /\
      decoded r = Some (JDict body) /\
      assoc "id" body = Some id /\
      truthy id = true.


(** The range a clear of [row] addresses. *)
Definition row_range (row : Row) : string :=
  (SHEET_NAME cfg ++ "!A" ++ str_of_Z (row_number row)
   ++ ":DZ" ++ str_of_Z (row_number row))%string.

(** The effects a node may perform when entered in [st]: [filter_rows]
    reads the one fixed range; the other nodes act on the current row
    only. *)
Definition allowed_effect (n : Node) (st : WorkflowState) (e : Event) : Prop :=
  match n with
  | FilterRows =>
      e = EvSheetsService \/
      e = EvValuesGet (SPREADSHEET_ID cfg) (SHEET_NAME cfg ++ "!A1:DZ")%string \/
      is_a_sleep e
  | GenerateCaption =>
      exists row,
        getitem (rows st) (current_row_index st) = Some row /\
        e = EvLlmInvoke "gemini-2.5-flash" (GEMINI_API_KEY cfg)
                        (caption_prompt (prompt row))
  | CreateInstagramPost =>
      exists row c,
        getitem (rows st) (current_row_index st) = Some row /\
        caption st = Some c /\
        (e = EvPost (create_media_url cfg) (media_payload cfg row c) \/
         (exists media_id, e = EvPost (publish_url cfg) (publish_payload cfg media_id)) \/
         is_a_sleep e)
  | CreateFacebookPost =>
      exists row c,
        getitem (rows st) (current_row_index st) = Some row /\
        caption st = Some c /\
        e = EvPost facebook_url (facebook_payload cfg row c)
  | ClearRow =>
      exists row,
        getitem (rows st) (current_row_index st) = Some row /\
        (e = EvSheetsService \/
         e = EvValuesClear (SPREADSHEET_ID cfg) (row_range row) \/
         is_a_sleep e)
  end.


(* ===================================================================== *)
(** ** Basic facts                                                       *)
(* ===================================================================== *)

(** Unfolds the operations of the monad. *)
Ltac unfold_m :=
  cbv beta iota zeta delta [bind try_except ret raise or_raise sleep] in *.

Ltac setters :=
  unfold set_rows, set_current_row_index, set_caption, set_post_id,
    set_facebook_post_id, set_error in *;
  cbn [rows current_row_index caption post_id facebook_post_id error] in *.

Lemma getitem_in_bounds {A : Type} (l : list A) (i : Z) :
  0 <= i < Z.of_nat (List.length l) -> exists x, getitem l i = Some x.
Proof.
  intros [Hlo Hhi]. unfold getitem.
  replace (0 <=? i) with true by (symmetry; apply Z.leb_le; lia).
  replace (i <? Z.of_nat (List.length l)) with true by (symmetry; apply Z.ltb_lt; lia).
  simpl. destruct (nth_error l (Z.to_nat i)) eqn:E; [eauto|].
  apply nth_error_None in E. lia.
Qed.

Lemma exhausted_false_iff (st : WorkflowState) :
  exhausted st = false <-> current_row_index st < Z.of_nat (List.length (rows st)).
Proof. unfold exhausted. rewrite Z.leb_gt. reflexivity. Qed.

(** [exhausted] only reads the rows and the index. *)
Lemma exhausted_ext (st st' : WorkflowState) :
  rows st' = rows st -> current_row_index st' = current_row_index st ->
  exhausted st' = exhausted st.
Proof. unfold exhausted. intros -> ->. reflexivity. Qed.

Lemma sleep_run (seconds : Z) (tr : Trace) :
  sleep seconds tr = (Ok tt, tr ++ [EvSleep seconds]).
Proof. reflexivity. Qed.

Lemma app_cons_assoc {A : Type} (l : list A) (x : A) (l' : list A) :
  (l ++ [x]) ++ l' = l ++ x :: l'.
Proof. rewrite <- app_assoc. reflexivity. Qed.

(* --------------------------------------------------------------------- *)
(** *** The row filter                                                   *)
(* --------------------------------------------------------------------- *)

Lemma in_enumerate_from {A : Type} (l : list A) :
  forall start i x,
    In (i, x) (enumerate_from start l) <->
    exists k : nat, i = start + Z.of_nat k /\ nth_error l k = Some x.
Proof.
  induction l as [|y l IH]; intros start i x; simpl.
  - split; [tauto|]. intros [k [_ Hk]]. destruct k; discriminate.
  - split.
    + intros [Heq | Hin].
      * inversion Heq; subst. exists O. split; [lia | reflexivity].
      * apply IH in Hin. destruct Hin as [k [Hi Hk]].
        exists (S k). split; [lia | exact Hk].
    + intros [k [Hi Hk]]. destruct k as [|k]; simpl in Hk.
      * left. inversion Hk; subst. f_equal. lia.
      * right. apply IH. exists k. split; [lia | exact Hk].
Qed.

Lemma nth_error_tl {A : Type} (l : list A) (k : nat) :
  nth_error (tl l) k = nth_error l (S k).
Proof. destruct l; [destruct k|]; reflexivity. Qed.

Lemma str_truthy_iff (s : string) : str_truthy s = true <-> s <> "".
Proof.
  unfold str_truthy. destruct (String.eqb_spec s ""); simpl; split; congruence.
Qed.

(** The test of the comprehension says that both columns are non-empty,
    an absent cell reading as empty. *)
Lemma row_qualifies_iff (row : list string) :
  row_qualifies row = true <-> nth 0 row "" <> "" /\ nth 1 row "" <> "".
Proof.
  unfold row_qualifies. rewrite !andb_true_iff, !str_truthy_iff, Z.ltb_lt.
  split; [tauto|]. intros [Ha Hb]. repeat split; auto.
  destruct row as [|a [|b rest]]; simpl in *; try congruence. lia.
Qed.

Lemma make_row_qualified (idx : Z) (row : list string) :
  row_qualifies row = true ->
  make_row idx row = mkRow (idx + 2) (nth 0 row "") (nth 1 row "").
Proof.
  unfold row_qualifies, make_row. rewrite !andb_true_iff.
  intros [[-> _] _]. reflexivity.
Qed.

Lemma in_filtered_rows (values : list (list string)) (r : Row) :
  In r (filtered_rows values) <->
  exists (i : nat) (row : list string),
    (1 <= i)%nat /\ nth_error values i = Some row /\
    nth 0 row "" <> "" /\ nth 1 row "" <> "" /\
    r = mkRow (Z.of_nat i + 1) (nth 0 row "") (nth 1 row "").
Proof.
  unfold filtered_rows, enumerate. rewrite in_map_iff. split.
  - intros [[idx row] [Hr Hin]]. simpl in Hr.
    apply filter_In in Hin. destruct Hin as [Hin Hq]. simpl in Hq.
    apply in_enumerate_from in Hin. destruct Hin as [k [Hidx Hk]].
    rewrite nth_error_tl in Hk.
    rewrite (make_row_qualified _ _ Hq) in Hr.
    apply row_qualifies_iff in Hq. destruct Hq as [Ha Hb].
    exists (S k), row. repeat split; auto; try lia.
    subst. f_equal. lia.
  - intros [i [row [Hi [Hnth [Ha [Hb Hr]]]]]].
    destruct i as [|k]; [lia|].
    assert (Hq : row_qualifies row = true) by (apply row_qualifies_iff; auto).
    exists (Z.of_nat k, row). split.
    + simpl. rewrite (make_row_qualified _ _ Hq). subst. f_equal. lia.
    + apply filter_In. split; [|exact Hq].
      apply in_enumerate_from. exists k. split; [lia|].
      rewrite nth_error_tl. exact Hnth.
Qed.

Lemma increasing_from_weaken (l : list Z) :
  forall lo lo', lo' <= lo -> increasing_from lo l -> increasing_from lo' l.
Proof. destruct l; simpl; intros; [tauto|]. split; [lia|tauto]. Qed.

Lemma filtered_from_increasing (l : list (list string)) :
  forall start,
    increasing_from (start + 1)
      (map row_number
         (map (fun p => make_row (fst p) (snd p))
            (filter (fun p => row_qualifies (snd p)) (enumerate_from start l)))).
Proof.
  induction l as [|row l IH]; intros start; simpl; [exact I|].
  destruct (row_qualifies row); simpl.
  - split; [lia|].
    apply increasing_from_weaken with (lo := start + 1 + 1); [lia|]. apply IH.
  - apply increasing_from_weaken with (lo := start + 1 + 1); [lia|]. apply IH.
Qed.

Lemma filtered_rows_increasing (values : list (list string)) :
  increasing (map row_number (filtered_rows values)).
Proof.
  unfold filtered_rows, enumerate.
  pose proof (filtered_from_increasing (tl values) 0) as H.
  destruct (map row_number _) as [|x rest]; simpl in *; tauto.
Qed.

(* ===================================================================== *)
(** ** Properties of single steps                                        *)
(* ===================================================================== *)

Lemma filter_rows_fetched (state : WorkflowState) (tr : Trace)
    (values : list (list string)) :
  sheets_service env tr = None ->
  values_get env (SPREADSHEET_ID cfg) (SHEET_NAME cfg ++ "!A1:DZ")%string
             (tr ++ [EvSheetsService]) = Ok (Some values) ->
  filter_rows state tr =
    (Ok (mkState (filtered_rows values) 0 (caption state) (post_id state)
                 (facebook_post_id state) None),
     tr ++ [EvSheetsService;
            EvValuesGet (SPREADSHEET_ID cfg) (SHEET_NAME cfg ++ "!A1:DZ")%string]).
Proof.
  intros Hs Hv. unfold filter_rows, get_sheets_service, max_retries, range.
  simpl. unfold_m. rewrite Hs. simpl. unfold execute_get. rewrite Hv.
  rewrite app_cons_assoc. reflexivity.
Qed.

(** Whatever the number of attempts the read took, [filter_rows] stores
    the filtered table it returned. *)
Lemma filter_rows_read (state : WorkflowState) (tr tr' : Trace)
    (result : option (list (list string))) :
  sheets_service env tr = None ->
  get_with_retries (SHEET_NAME cfg ++ "!A1:DZ")%string (range max_retries)
                   (tr ++ [EvSheetsService]) = (Ok result, tr') ->
  filter_rows state tr =
    (Ok (mkState (filtered_rows (match result with Some v => v | None => [] end)) 0
                 (caption state) (post_id state) (facebook_post_id state) None),
     tr').
Proof.
  intros Hs Hg. unfold filter_rows, get_sheets_service.
  unfold_m. rewrite Hs. cbn -[range get_with_retries filtered_rows].
  rewrite Hg. reflexivity.
Qed.

Lemma in_filtered_rows_raw (values : list (list string)) :
  rows_at_raw_index values (filtered_rows values).
Proof.
  intros r. rewrite in_filtered_rows. split.
  - intros [i [row [Hi [Hnth [Ha [Hb Hr]]]]]].
    destruct i as [|k]; [lia|].
    exists k, row. rewrite nth_error_tl. repeat split; auto.
    subst. f_equal. lia.
  - intros [idx [row [Hnth [Ha [Hb Hr]]]]].
    exists (S idx), row. rewrite nth_error_tl in Hnth. repeat split; auto; try lia.
    subst. f_equal. lia.
Qed.

(** C2.  Whenever the read of the sheet returns a table, at the first
    attempt or after retries, [filter_rows] stores exactly the rows found
    after the header whose columns A and B are both non-empty, in sheet
    order, each with [row_number] equal to its raw index (the index the
    loop enumerates over the header-less table) plus 2, and leaves the index
    at 0 with no error; the scenario table yields the rows numbered 2 and
    4. *)
Theorem C2_filter_rows_numbers_rows_from_two :
  forall (state : WorkflowState) (tr tr' : Trace)
         (result : option (list (list string))),
    sheets_service env tr = None ->
    get_with_retries (SHEET_NAME cfg ++ "!A1:DZ")%string (range max_retries)
                     (tr ++ [EvSheetsService]) = (Ok result, tr') ->
    let values := match result with Some v => v | None => [] end in
    exists st',
      filter_rows state tr = (Ok st', tr') /\
      rows st' = filtered_rows values /\
      current_row_index st' = 0 /\
      error st' = None /\
      rows_at_raw_index values (rows st') /\
      increasing (map row_number (rows st')) /\
      filtered_rows scenario_table
        = [mkRow 2 "desc1" "http://a"; mkRow 4 "desc3" "http://c"].
Proof.
  intros state tr tr' result Hs Hg values.
  eexists. split; [apply (filter_rows_read state tr tr' result Hs Hg)|].
  cbn [rows current_row_index error]. fold values.
  split; [reflexivity|]. split; [reflexivity|]. split; [reflexivity|].
  split; [apply in_filtered_rows_raw|].
  split; [apply filtered_rows_increasing | reflexivity].
Qed.

Lemma try_clear_returns (state : WorkflowState) (current_row : option Row) (tr : Trace) :
  exists st1 ok tr',
    try_clear state current_row tr = (Ok (st1, ok), tr') /\
    rows st1 = rows state /\
    current_row_index st1 = current_row_index state.
Proof.
  unfold try_clear.
  destruct current_row as [row|].
  - unfold_m. cbn -[range get_sheets_service].
    destruct (get_sheets_service tr) as [[[]|e] tr1].
    + destruct (clear_with_retries _ _ tr1) as [[[]|e] tr2];
        do 3 eexists; (split; [reflexivity|]); simpl; auto.
    + do 3 eexists; (split; [reflexivity|]); simpl; auto.
  - unfold_m. do 3 eexists; (split; [reflexivity|]); simpl; auto.
Qed.

Lemma clear_row_in_bounds (st : WorkflowState) (tr : Trace) :
  0 <= current_row_index st < Z.of_nat (List.length (rows st)) ->
  exists tr',
    clear_row st tr =
      (Ok (mkState (rows st) (current_row_index st + 1) None None None None), tr').
Proof.
  intros Hb. unfold clear_row.
  replace (exhausted st) with false
    by (symmetry; apply exhausted_false_iff; lia).
  destruct (getitem_in_bounds (rows st) _ Hb) as [row Hrow]. rewrite Hrow.
  destruct (try_clear_returns st (Some row) tr) as [st1 [ok [tr' [Ht [Hr Hi]]]]].
  unfold bind at 1. rewrite Ht. simpl fst. simpl snd.
  exists tr'. destruct ok; unfold_m; simpl; setters; rewrite Hr, Hi; reflexivity.
Qed.

(** C3.  When the clear step is entered with the index in bounds, it
    returns, whatever the clear call answered, the state whose index is one
    more and whose caption, two post identifiers and error are absent; and
    when a row remains the edge after it leads to [generate_caption], which
    the absent error lets run. *)
Theorem C3_clear_row_advances_and_resets :
  forall (st : WorkflowState) (tr : Trace),
    0 <= current_row_index st < Z.of_nat (List.length (rows st)) ->
    exists st' tr',
      clear_row st tr = (Ok st', tr') /\
      current_row_index st' = current_row_index st + 1 /\
      rows st' = rows st /\
      caption st' = None /\ post_id st' = None /\ facebook_post_id st' = None /\
      error st' = None /\
      (current_row_index st + 1 < Z.of_nat (List.length (rows st)) ->
       next_node ClearRow st' = Goto GenerateCaption).
Proof.
  intros st tr Hb.
  destruct (clear_row_in_bounds st tr Hb) as [tr' H].
  eexists. exists tr'. split; [exact H|]. simpl. repeat split.
  intros Hmore. unfold decide_next_step.
  replace (exhausted _) with false; [reflexivity|].
  symmetry. apply exhausted_false_iff. simpl. lia.
Qed.

(** The three guarded steps return at once on an error that tests true. *)
Lemma guarded_step_skips (n : Node) (st : WorkflowState) (tr : Trace) :
  n = GenerateCaption \/ n = CreateInstagramPost \/ n = CreateFacebookPost ->
  opt_truthy (error st) = true ->
  node_fn n st tr = (Ok st, tr).
Proof.
  intros [-> | [-> | ->]] He; simpl;
    unfold generate_caption, create_instagram_post, create_facebook_post;
    rewrite He; reflexivity.
Qed.

(** An exhausted state, once it carries the "no more rows" error, ends the
    run at the next conditional edge. *)
Lemma exhausted_step (n : Node) (st : WorkflowState) (tr : Trace) :
  n <> FilterRows ->
  exhausted st = true ->
  n = ClearRow \/ opt_truthy (error st) = false ->
  node_fn n st tr = (Ok (set_error st (Some "No more rows to process")), tr).
Proof.
  intros Hn Hex Hg. destruct n; try congruence; simpl;
    unfold generate_caption, create_instagram_post, create_facebook_post, clear_row;
    rewrite Hex;
    try (destruct Hg as [Hg | Hg]; [discriminate | rewrite Hg]);
    reflexivity.
Qed.

(** C7 (amended).  A step other than [filter_rows] entered with the index
    at or past the end of the rows, and (except for [clear_row], which does
    not look at the error) with no error that tests true, sets the error to
    "No more rows to process", touches no other field and performs no
    effect.  Under every limit the run from that step performs no effect and
    streams that state only; it runs at most two nodes, and ends normally
    when the limit is at least 3. *)
Theorem C7_exhausted_step_is_terminal :
  forall (n : Node) (st : WorkflowState) (tr : Trace) (limit : nat),
    n <> FilterRows ->
    exhausted st = true ->
    n = ClearRow \/ opt_truthy (error st) = false ->
    let st' := mkState (rows st) (current_row_index st) (caption st)
                       (post_id st) (facebook_post_id st)
                       (Some "No more rows to process") in
    node_fn n st tr = (Ok st', tr) /\
    (forall l : nat,
        Forall (fun u => snd u = st') (updates (run_graph l n st tr)) /\
        effects (run_graph l n st tr) = tr) /\
    exists ups,
      run_graph (S (S (S limit))) n st tr = mkRun ups Finished st' tr /\
      (List.length ups <= 2)%nat.
Proof.
  intros n st tr limit Hn Hex Hg st'.
  pose proof (exhausted_step n st tr Hn Hex Hg) as Hstep.
  change (set_error st (Some "No more rows to process")) with st' in Hstep.
  split; [exact Hstep|].
  assert (Hskip : node_fn CreateInstagramPost st' tr = (Ok st', tr))
    by (apply guarded_step_skips; auto).
  assert (Hex' : exhausted st' = true) by exact Hex.
  assert (Hi : decide_after_instagram st' = END).
  { unfold decide_after_instagram. simpl opt_truthy.
    rewrite andb_false_r. reflexivity. }
  assert (Hf : decide_after_facebook st' = END).
  { unfold decide_after_facebook. simpl opt_truthy.
    rewrite andb_false_r. reflexivity. }
  assert (Hc : decide_next_step st' = END).
  { unfold decide_next_step. rewrite Hex'. reflexivity. }
  split.
  - intros l. destruct l as [|[|l]]; [split; [constructor | reflexivity] | |];
      destruct n; try congruence;
      cbn [run_graph]; rewrite Hstep; cbn [next_node];
      rewrite ?Hskip; cbn [next_node]; rewrite ?Hi, ?Hf, ?Hc;
      cbn [updates effects]; (split; [repeat constructor | reflexivity]).
  - destruct n; try congruence;
      cbn [run_graph]; rewrite Hstep; cbn [next_node];
      rewrite ?Hskip; cbn [next_node]; rewrite ?Hi, ?Hf, ?Hc;
      cbn [updates status final_state effects];
      (eexists; split; [reflexivity | simpl; lia]).
Qed.

(* ===================================================================== *)
(** ** The retry loops                                                   *)
(* ===================================================================== *)

Lemma get_with_retries_exhausts (range_name : string) :
  (forall h, exists status msg,
      values_get env (SPREADSHEET_ID cfg) range_name h = Raise (HttpError status msg) /\
      sheets_retryable status = true) ->
  forall attempts tr,
    get_with_retries range_name attempts tr =
      (Raise (Exception "Max retries exceeded for Google Sheets API call"),
       tr ++ call_and_sleep (EvValuesGet (SPREADSHEET_ID cfg) range_name) attempts).
Proof.
  intros Hbusy. induction attempts as [|attempt rest IH]; intros tr.
  - simpl. unfold raise. rewrite app_nil_r. reflexivity.
  - cbn [get_with_retries]. unfold try_except, execute_get.
    destruct (Hbusy tr) as [status [msg [-> Hretry]]]. rewrite Hretry.
    unfold bind. rewrite sleep_run, IH.
    unfold call_and_sleep. cbn [flat_map]. rewrite !app_cons_assoc. reflexivity.
Qed.

Lemma clear_with_retries_exhausts (range_name : string) :
  (forall h, exists status msg,
      values_clear env (SPREADSHEET_ID cfg) range_name h = Some (HttpError status msg) /\
      sheets_retryable status = true) ->
  forall attempts tr,
    clear_with_retries range_name attempts tr =
      (Raise (Exception "Max retries exceeded for Google Sheets API call"),
       tr ++ call_and_sleep (EvValuesClear (SPREADSHEET_ID cfg) range_name) attempts).
Proof.
  intros Hbusy. induction attempts as [|attempt rest IH]; intros tr.
  - simpl. unfold raise. rewrite app_nil_r. reflexivity.
  - cbn [clear_with_retries]. unfold try_except, execute_clear.
    destruct (Hbusy tr) as [status [msg [-> Hretry]]]. rewrite Hretry.
    unfold bind. rewrite sleep_run, IH.
    unfold call_and_sleep. cbn [flat_map]. rewrite !app_cons_assoc. reflexivity.
Qed.

(** The test of the program on the decoded error agrees with the
    signature of the specification. *)
Lemma eq_int_is_int (v : json) (n : Z) :
  n <> 0 -> n <> 1 -> eq_int v n = is_int (Some v) n.
Proof.
  intros H0 H1. destruct v; simpl; try reflexivity.
  destruct b; apply Z.eqb_neq; lia.
Qed.

(** A response other than 200 that carries the pair: sleep, next pass. *)
Lemma handle_publish_not_ready (st : WorkflowState) (attempt : Z) (r : Response) (tr : Trace) :
  status_code r <> 200 ->
  carries_pair r = true ->
  handle_publish_response st attempt r tr = (Ok NextAttempt, tr ++ [EvSleep (2 ^ attempt)]).
Proof.
  intros Hs Hp. unfold handle_publish_response.
  apply Z.eqb_neq in Hs. rewrite Hs.
  revert Hp. unfold carries_pair, response_json.
  destruct (decoded r) as [[| | | | |body]|]; try discriminate.
  unfold dict_get, dict_get_default. unfold_m.
  destruct (assoc "error" body) as [[| | | | |err]|]; try discriminate.
  rewrite andb_true_iff.
  destruct (assoc "code" err) as [[| | c | | |]|]; try (intros [? ?]; discriminate).
  destruct (assoc "error_subcode" err) as [[| | sc | | |]|];
    try (intros [? ?]; discriminate).
  cbn [is_int]. intros [Hc Hsub]. cbn [eq_int]. rewrite Hc, Hsub. reflexivity.
Qed.

(** A response other than 200 that does not carry the pair: no sleep; the
    pass raises, or, when [raise_for_status] sees a status outside 400..599,
    falls through to the next pass. *)
Lemma handle_publish_other (st : WorkflowState) (attempt : Z) (r : Response) (tr : Trace) :
  status_code r <> 200 ->
  carries_pair r = false ->
  (exists e, handle_publish_response st attempt r tr = (Raise e, tr)) \/
  (handle_publish_response st attempt r tr = (Ok NextAttempt, tr) /\
   ~ (400 <= status_code r < 600)).
Proof.
  intros Hs Hp. unfold handle_publish_response.
  apply Z.eqb_neq in Hs. rewrite Hs.
  revert Hp. unfold carries_pair, response_json.
  assert (Hrfs :
    (exists e, (raise_for_status r ;;; ret NextAttempt) tr = (Raise e, tr)) \/
    ((raise_for_status r ;;; ret NextAttempt) tr = (Ok NextAttempt, tr) /\
     ~ (400 <= status_code r < 600))).
  { unfold raise_for_status.
    destruct ((400 <=? status_code r) && (status_code r <? 600)) eqn:E.
    - left. eexists. reflexivity.
    - right. split; [reflexivity|].
      apply andb_false_iff in E. rewrite Z.leb_gt, Z.ltb_ge in E. lia. }
  destruct (decoded r) as [[| | | | |body]|];
    try (intros _; left; eexists; reflexivity).
  unfold dict_get, dict_get_default. unfold_m.
  destruct (assoc "error" body) as [[| | | | |err]|];
    try (intros _; left; eexists; reflexivity).
  - intros Hp.
    assert (Hc : eq_int (match assoc "code" err with Some v => v | None => JNull end) 9007
                 && eq_int (match assoc "error_subcode" err with
                            | Some v => v
                            | None => JNull
                            end) 2207027 = false).
    { destruct (assoc "code" err) as [code|], (assoc "error_subcode" err) as [sub|];
        rewrite ?eq_int_is_int by lia; try exact Hp;
        cbn; rewrite ?andb_false_r; reflexivity. }
    rewrite Hc. exact Hrfs.
  - intros _. exact Hrfs.
Qed.

(** A 200 response whose object has no ["id"]: next pass at once. *)
Lemma handle_publish_no_id (st : WorkflowState) (attempt : Z) (r : Response) (tr : Trace) :
  status_code r = 200 ->
  lacks_id r = true ->
  handle_publish_response st attempt r tr = (Ok NextAttempt, tr).
Proof.
  intros Hs Hl. unfold handle_publish_response. rewrite Hs. simpl.
  revert Hl. unfold lacks_id, response_json.
  destruct (decoded r) as [[| | | | |body]|]; try discriminate.
  unfold dict_get, dict_get_default. unfold_m.
  destruct (assoc "id" body); [discriminate | reflexivity].
Qed.

(** A 200 response whose object has a string ["id"] that is not empty:
    the state is returned with that identifier. *)
Lemma handle_publish_id (st : WorkflowState) (attempt : Z) (r : Response)
    (id : string) (tr : Trace) :
  status_code r = 200 ->
  has_id r id ->
  id <> "" ->
  handle_publish_response st attempt r tr =
    (Ok (Return (set_error (set_post_id st (Some (JStr id))) None)), tr).
Proof.
  intros Hs [body [Hd Hid]] Hne. unfold handle_publish_response. rewrite Hs. simpl.
  unfold response_json. rewrite Hd.
  unfold dict_get, dict_get_default. unfold_m. rewrite Hid.
  simpl. apply str_truthy_iff in Hne. rewrite Hne. reflexivity.
Qed.

Lemma publish_with_retries_not_ready (st : WorkflowState) (payload : list (string * json)) :
  (forall h, exists r,
      requests_post env (publish_url cfg) payload h = Ok r /\ media_not_ready r) ->
  forall attempts last tr,
    attempts <> [] \/ last <> None ->
    exists r,
      publish_with_retries st payload attempts last tr =
        (Raise (Exception ("Failed to publish media after 5 attempts: " ++ text r)%string),
         tr ++ call_and_sleep (EvPost (publish_url cfg) payload) attempts).
Proof.
  intros Hbusy. induction attempts as [|attempt rest IH]; intros last tr Hne.
  - destruct last as [r|]; [|destruct Hne; congruence].
    exists r. simpl. unfold raise. rewrite app_nil_r. reflexivity.
  - cbn [publish_with_retries]. unfold bind at 1. unfold post.
    destruct (Hbusy tr) as [r [-> [Hs Hp]]].
    unfold bind at 1.
    rewrite (handle_publish_not_ready st attempt r _ Hs Hp).
    destruct (IH (Some r) ((tr ++ [EvPost (publish_url cfg) payload])
                             ++ [EvSleep (2 ^ attempt)])) as [r' Hr'];
      [right; discriminate|].
    exists r'. rewrite Hr'.
    unfold call_and_sleep. cbn [flat_map]. rewrite !app_cons_assoc. reflexivity.
Qed.

Lemma publish_with_retries_no_id (st : WorkflowState) (payload : list (string * json)) :
  (forall h, exists r,
      requests_post env (publish_url cfg) payload h = Ok r /\
      status_code r = 200 /\ lacks_id r = true) ->
  forall attempts last tr,
    attempts <> [] \/ last <> None ->
    exists r,
      publish_with_retries st payload attempts last tr =
        (Raise (Exception ("Failed to publish media after 5 attempts: " ++ text r)%string),
         tr ++ repeat (EvPost (publish_url cfg) payload) (List.length attempts)).
Proof.
  intros Hbusy. induction attempts as [|attempt rest IH]; intros last tr Hne.
  - destruct last as [r|]; [|destruct Hne; congruence].
    exists r. simpl. unfold raise. rewrite app_nil_r. reflexivity.
  - cbn [publish_with_retries]. unfold bind at 1. unfold post.
    destruct (Hbusy tr) as [r [-> [Hs Hl]]].
    unfold bind at 1.
    rewrite (handle_publish_no_id st attempt r _ Hs Hl).
    destruct (IH (Some r) (tr ++ [EvPost (publish_url cfg) payload])) as [r' Hr'];
      [right; discriminate|].
    exists r'. rewrite Hr'. cbn [List.length repeat].
    rewrite app_cons_assoc. reflexivity.
Qed.

(** C4.  A retried call (sheet fetch, sheet clear, Instagram publish) all
    of whose attempts are classified retryable is attempted exactly 5
    times; the sleeps are 1, 2, 4, 8, 16, strictly increasing, 4 of them
    lying between two attempts; then the loop raises its max-retries
    failure. *)
Theorem C4_backoff_schedule :
  forall (c : RetriedCall) (tr : Trace),
    always_retryable c ->
    exists e evs,
      retry_loop c tr = (Raise e, tr ++ evs) /\
      max_retries_failure c e /\
      attempts_of evs = 5%nat /\
      sleeps_of evs = [1; 2; 4; 8; 16] /\
      increasing (sleeps_of evs) /\
      sleeps_between false evs = 4%nat.
Proof.
  intros c tr Hbusy. destruct c as [range_name | range_name | st payload];
    cbn [retry_loop always_retryable max_retries_failure] in *.
  - exists (Exception "Max retries exceeded for Google Sheets API call").
    eexists. unfold bind.
    rewrite (get_with_retries_exhausts range_name Hbusy).
    split; [reflexivity|]. cbn. repeat split; lia.
  - exists (Exception "Max retries exceeded for Google Sheets API call").
    eexists.
    rewrite (clear_with_retries_exhausts range_name Hbusy).
    split; [reflexivity|]. cbn. repeat split; lia.
  - destruct (publish_with_retries_not_ready st payload Hbusy
                (range max_retries) None tr) as [r Hr];
      [left; discriminate|].
    eexists. eexists. unfold bind. rewrite Hr.
    split; [reflexivity|]. split; [exists r; reflexivity|].
    cbn. repeat split; lia.
Qed.

Lemma app_singleton_neq {A : Type} (l : list A) (x : A) : l ++ [x] <> l.
Proof.
  intros H. apply (f_equal (@List.length A)) in H.
  rewrite length_app in H. simpl in H. lia.
Qed.

(** A pass that raises ends the loop: the exception leaves it after the one
    post of that pass. *)
Lemma publish_with_retries_fatal (st : WorkflowState) (payload : list (string * json))
    (attempt : Z) (rest : list Z) (last : option Response) (r : Response)
    (tr : Trace) (e : exn) :
  requests_post env (publish_url cfg) payload tr = Ok r ->
  handle_publish_response st attempt r (tr ++ [EvPost (publish_url cfg) payload])
    = (Raise e, tr ++ [EvPost (publish_url cfg) payload]) ->
  publish_with_retries st payload (attempt :: rest) last tr =
    (Raise e, tr ++ [EvPost (publish_url cfg) payload]).
Proof.
  intros Hpost Hh. cbn [publish_with_retries]. unfold bind at 1. unfold post.
  rewrite Hpost. unfold bind. rewrite Hh. reflexivity.
Qed.

(** C5 (amended).  For a publish response whose status is not 200, the pass
    takes the back-off path exactly when the body carries the pair
    (9007, 2207027); without the pair, a status in 400..599 makes the pass
    raise at once, and the loop ends there after that single post. *)
Theorem C5_publish_classification :
  forall (st : WorkflowState) (attempt : Z) (r : Response) (tr : Trace),
    status_code r <> 200 ->
    (backs_off st attempt r tr <-> carries_pair r = true) /\
    (carries_pair r = false ->
     400 <= status_code r < 600 ->
     fatal st attempt r tr /\
     forall payload rest last h,
       requests_post env (publish_url cfg) payload h = Ok r ->
       exists e,
         publish_with_retries st payload (attempt :: rest) last h =
           (Raise e, h ++ [EvPost (publish_url cfg) payload])).
Proof.
  intros st attempt r tr Hs. split; [split|].
  - intros Hb. destruct (carries_pair r) eqn:Hp; [reflexivity|].
    unfold backs_off in Hb.
    destruct (handle_publish_other st attempt r tr Hs Hp) as [[e He] | [Hn _]];
      rewrite Hb in *; [discriminate|].
    inversion Hn as [Heq]. exfalso. exact (app_singleton_neq _ _ Heq).
  - intros Hp. apply handle_publish_not_ready; assumption.
  - intros Hp Hrange.
    assert (Hfatal : forall h, fatal st attempt r h).
    { intros h. destruct (handle_publish_other st attempt r h Hs Hp) as [He | [_ Hn]];
        [exact He | contradiction]. }
    split; [apply Hfatal|].
    intros payload rest last h Hpost.
    destruct (Hfatal (h ++ [EvPost (publish_url cfg) payload])) as [e He].
    exists e. apply publish_with_retries_fatal with (r := r); assumption.
Qed.

(** Once the container exists, the step is the publish loop under the
    handler of the step. *)
Lemma create_instagram_post_after_container (st : WorkflowState) (tr : Trace)
    (row : Row) (c : string) (media_id : json) :
  container_created st tr row c media_id ->
  create_instagram_post st tr =
    try_except
      (publish_with_retries st (publish_payload cfg media_id) (range max_retries) None)
      (fun e => ret (set_error st (Some ("Error creating Instagram post: " ++ str e)%string)))
      (tr ++ [EvPost (create_media_url cfg) (media_payload cfg row c)]).
Proof.
  intros [Herr [Hb [Hrow [Hcap [resp [body [Hpost [Hst [Hdec [Hid Htruthy]]]]]]]]]].
  unfold create_instagram_post. rewrite Herr.
  replace (exhausted st) with false by (symmetry; apply exhausted_false_iff; lia).
  unfold current_row_of, getitem.
  replace (0 <=? current_row_index st) with true by (symmetry; apply Z.leb_le; lia).
  replace (current_row_index st <? Z.of_nat (List.length (rows st))) with true
    by (symmetry; apply Z.ltb_lt; lia).
  cbn [andb]. rewrite Hrow, Hcap.
  unfold subscript_optional, post, raise_for_status, response_json.
  set (loop := publish_with_retries st).
  unfold_m. fold (media_payload cfg row c). rewrite Hpost.
  replace ((400 <=? status_code resp) && (status_code resp <? 600)) with false
    by (symmetry; apply andb_false_iff; rewrite Z.leb_gt, Z.ltb_ge; lia).
  rewrite Hdec. unfold dict_get, dict_get_default. unfold_m. rewrite Hid, Htruthy.
  cbn [negb]. fold (publish_payload cfg media_id). reflexivity.
Qed.

(** C6.  When the publish endpoint answers the first three attempts with
    the media-not-ready error and the fourth with status 200 and the
    identifier "999", the step returns with that post identifier and no
    error after exactly four posts to the endpoint, having slept 1, 2 and 4
    in between and nothing after the fourth. *)
Theorem C6_media_ready_on_fourth_attempt :
  forall (st : WorkflowState) (tr : Trace) (row : Row) (c : string)
         (media_id : json) (r1 r2 r3 r4 : Response),
    container_created st tr row c media_id ->
    let publish := EvPost (publish_url cfg) (publish_payload cfg media_id) in
    let h1 := tr ++ [EvPost (create_media_url cfg) (media_payload cfg row c)] in
    let h2 := h1 ++ [publish; EvSleep 1] in
    let h3 := h2 ++ [publish; EvSleep 2] in
    let h4 := h3 ++ [publish; EvSleep 4] in
    requests_post env (publish_url cfg) (publish_payload cfg media_id) h1 = Ok r1 ->
    requests_post env (publish_url cfg) (publish_payload cfg media_id) h2 = Ok r2 ->
    requests_post env (publish_url cfg) (publish_payload cfg media_id) h3 = Ok r3 ->
    requests_post env (publish_url cfg) (publish_payload cfg media_id) h4 = Ok r4 ->
    media_not_ready r1 -> media_not_ready r2 -> media_not_ready r3 ->
    status_code r4 = 200 -> has_id r4 "999" ->
    exists st' evs,
      create_instagram_post st tr = (Ok st', h1 ++ evs) /\
      post_id st' = Some (JStr "999") /\
      error st' = None /\
      evs = [publish; EvSleep 1; publish; EvSleep 2; publish; EvSleep 4; publish] /\
      attempts_of evs = 4%nat /\
      sleeps_of evs = [1; 2; 4].
Proof.
  intros st tr row c media_id r1 r2 r3 r4 Hc publish h1 h2 h3 h4
         H1 H2 H3 H4 [Hs1 Hp1] [Hs2 Hp2] [Hs3 Hp3] Hs4 Hid.
  rewrite (create_instagram_post_after_container st tr row c media_id Hc).
  fold h1. subst publish h2 h3 h4.
  change (range max_retries) with [0; 1; 2; 3; 4].
  unfold try_except. cbn [publish_with_retries]. unfold post, bind.
  rewrite H1, (handle_publish_not_ready st _ r1 _ Hs1 Hp1).
  change (2 ^ 0) with 1. rewrite !app_cons_assoc.
  rewrite H2, (handle_publish_not_ready st _ r2 _ Hs2 Hp2).
  change (2 ^ 1) with 2. rewrite !app_cons_assoc.
  rewrite H3, (handle_publish_not_ready st _ r3 _ Hs3 Hp3).
  change (2 ^ 2) with 4. rewrite !app_cons_assoc.
  rewrite H4, (handle_publish_id st _ r4 "999" _ Hs4 Hid) by discriminate.
  eexists. eexists. split.
  { unfold ret. f_equal. rewrite <- !app_assoc. reflexivity. }
  repeat split.
Qed.

(** C10.  A publish attempt answered with status 200 and an object without
    ["id"] goes on to the next attempt without sleeping; when all five
    attempts end so, the step returns, after five posts and no sleep, a
    state whose error contains "Failed to publish media after 5 attempts"
    and whose other fields are unchanged. *)
Theorem C10_ok_without_id_exhausts_attempts :
  forall (st : WorkflowState) (tr : Trace) (row : Row) (c : string) (media_id : json),
    container_created st tr row c media_id ->
    (forall h, exists r,
        requests_post env (publish_url cfg) (publish_payload cfg media_id) h = Ok r /\
        status_code r = 200 /\ lacks_id r = true) ->
    (forall attempt r h,
        status_code r = 200 -> lacks_id r = true ->
        handle_publish_response st attempt r h = (Ok NextAttempt, h)) /\
    exists msg evs,
      create_instagram_post st tr =
        (Ok (set_error st (Some msg)),
         (tr ++ [EvPost (create_media_url cfg) (media_payload cfg row c)]) ++ evs) /\
      contains "Failed to publish media after 5 attempts" msg = true /\
      evs = repeat (EvPost (publish_url cfg) (publish_payload cfg media_id)) 5 /\
      attempts_of evs = 5%nat /\
      sleeps_of evs = [].
Proof.
  intros st tr row c media_id Hc Hall. split.
  - intros attempt r h. apply handle_publish_no_id.
  - rewrite (create_instagram_post_after_container st tr row c media_id Hc).
    unfold try_except.
    destruct (publish_with_retries_no_id st (publish_payload cfg media_id) Hall
                (range max_retries) None
                (tr ++ [EvPost (create_media_url cfg) (media_payload cfg row c)]))
      as [r Hr]; [left; discriminate|].
    rewrite Hr. eexists. eexists. split; [reflexivity|].
    split; [|repeat split].
    cbn [str]. vm_compute. reflexivity.
Qed.

(* ===================================================================== *)
(** ** What the steps return and what they emit                          *)
(* ===================================================================== *)

Lemma returns_ret {A : Type} (Q : A -> Prop) (a : A) : Q a -> returns_with Q (ret a).
Proof. intros H tr a' tr' E. inversion E; subst. exact H. Qed.

Lemma returns_raise {A : Type} (Q : A -> Prop) (e : exn) : returns_with Q (raise e).
Proof. intros tr a' tr' E. discriminate. Qed.

Lemma returns_bind {A B : Type} (Q : B -> Prop) (m : M A) (k : A -> M B) :
  (forall a, returns_with Q (k a)) -> returns_with Q (bind m k).
Proof.
  intros Hk tr b tr' E. unfold bind in E.
  destruct (m tr) as [[a|e] tr1]; [|discriminate].
  exact (Hk a tr1 b tr' E).
Qed.

Lemma returns_try {A : Type} (Q : A -> Prop) (body : M A) (handler : exn -> M A) :
  returns_with Q body -> (forall e, returns_with Q (handler e)) ->
  returns_with Q (try_except body handler).
Proof.
  intros Hb Hh tr a tr' E. unfold try_except in E.
  destruct (body tr) as [[a1|e] tr1] eqn:Eb.
  - inversion E; subst. exact (Hb tr a tr' Eb).
  - exact (Hh e tr1 a tr' E).
Qed.

Lemma emits_ret (P : Event -> bool) {A : Type} (a : A) : emits_only P (ret a).
Proof.
  intros tr r tr' E. inversion E; subst. exists []. rewrite app_nil_r. auto.
Qed.

Lemma emits_raise (P : Event -> bool) {A : Type} (e : exn) :
  emits_only P (@raise A e).
Proof.
  intros tr r tr' E. inversion E; subst. exists []. rewrite app_nil_r. auto.
Qed.

Lemma emits_bind (P : Event -> bool) {A B : Type} (m : M A) (k : A -> M B) :
  emits_only P m -> (forall a, emits_only P (k a)) -> emits_only P (bind m k).
Proof.
  intros Hm Hk tr r tr' E. unfold bind in E.
  destruct (m tr) as [[a|e] tr1] eqn:Em;
    destruct (Hm tr _ tr1 Em) as [evs1 [-> H1]].
  - destruct (Hk a _ _ _ E) as [evs2 [-> H2]].
    exists (evs1 ++ evs2). rewrite app_assoc, forallb_app, H1, H2. auto.
  - inversion E; subst. exists evs1. auto.
Qed.

Lemma emits_try (P : Event -> bool) {A : Type} (body : M A) (handler : exn -> M A) :
  emits_only P body -> (forall e, emits_only P (handler e)) ->
  emits_only P (try_except body handler).
Proof.
  intros Hb Hh tr r tr' E. unfold try_except in E.
  destruct (body tr) as [[a|e] tr1] eqn:Eb;
    destruct (Hb tr _ tr1 Eb) as [evs1 [-> H1]].
  - inversion E; subst. exists evs1. auto.
  - destruct (Hh e _ _ _ E) as [evs2 [-> H2]].
    exists (evs1 ++ evs2). rewrite app_assoc, forallb_app, H1, H2. auto.
Qed.

Lemma emits_one (P : Event -> bool) {A : Type} (f : Trace -> Result A) (ev : Event) :
  P ev = true -> emits_only P (fun tr => (f tr, tr ++ [ev])).
Proof.
  intros Hev tr r tr' E. inversion E; subst. exists [ev]. simpl. rewrite Hev. auto.
Qed.

Lemma emits_or_raise (P : Event -> bool) {A : Type} (o : option A) (e : exn) :
  emits_only P (or_raise o e).
Proof. destruct o; [apply emits_ret | apply emits_raise]. Qed.

Lemma emits_dict_get_default (P : Event -> bool) (d : json) (key : string) (dflt : json) :
  emits_only P (dict_get_default d key dflt).
Proof. destruct d; simpl; first [apply emits_ret | apply emits_raise]. Qed.

Lemma emits_raise_for_status (P : Event -> bool) (r : Response) :
  emits_only P (raise_for_status r).
Proof.
  unfold raise_for_status.
  destruct (_ && _); [apply emits_raise | apply emits_ret].
Qed.

Create HintDb emits.
#[local] Hint Resolve emits_ret emits_raise emits_or_raise emits_dict_get_default
  emits_raise_for_status : emits.

Ltac emits_step :=
  first
    [ apply emits_bind; [|intros ?]
    | apply emits_try; [|intros ?]
    | apply emits_one; reflexivity
    | solve [auto with emits] ].

Lemma emits_handle_publish_response (st : WorkflowState) (attempt : Z) (r : Response) :
  emits_only off_sheet (handle_publish_response st attempt r).
Proof.
  unfold handle_publish_response, response_json, dict_get, sleep.
  destruct (status_code r =? 200).
  - repeat emits_step. destruct (truthy _); auto with emits.
  - repeat emits_step. destruct (_ && _); repeat emits_step.
Qed.

Lemma emits_publish_with_retries (st : WorkflowState) (payload : list (string * json)) :
  forall attempts last,
    emits_only off_sheet (publish_with_retries st payload attempts last).
Proof.
  induction attempts as [|attempt rest IH]; intros last.
  - simpl. destruct last; auto with emits.
  - cbn [publish_with_retries]. unfold post.
    apply emits_bind; [apply emits_one; reflexivity|]. intros r.
    apply emits_bind; [apply emits_handle_publish_response|]. intros [st'|];
      [auto with emits | apply IH].
Qed.

Lemma emits_publish_node (n : Node) (st : WorkflowState) :
  is_publish_node n = true -> emits_only off_sheet (node_fn n st).
Proof.
  destruct n; try discriminate; intros _; cbn [node_fn].
  - unfold create_instagram_post.
    destruct (opt_truthy _); [auto with emits|].
    destruct (exhausted _); [auto with emits|].
    unfold current_row_of, subscript_optional, post, response_json, dict_get.
    apply emits_try; [|intros e; auto with emits].
    repeat emits_step.
    + destruct (caption st); auto with emits.
    + destruct (negb _); [auto with emits | apply emits_publish_with_retries].
  - unfold create_facebook_post.
    destruct (opt_truthy _); [auto with emits|].
    destruct (exhausted _); [auto with emits|].
    unfold current_row_of, subscript_optional, post, response_json, dict_get.
    apply emits_try; [|intros e; destruct e; auto with emits].
    repeat emits_step.
    + destruct (caption st); auto with emits.
    + destruct (negb _); auto with emits.
Qed.

Lemma returns_handle_publish_response (st : WorkflowState) (attempt : Z) (r : Response) :
  returns_with
    (fun action => match action with
                   | Return st' => same_row st st'
                   | NextAttempt => True
                   end)
    (handle_publish_response st attempt r).
Proof.
  unfold handle_publish_response.
  destruct (status_code r =? 200).
  - apply returns_bind; intros publish_data.
    apply returns_bind; intros id.
    destruct (truthy id); apply returns_ret; [split; reflexivity | exact I].
  - repeat (apply returns_bind; intros ?).
    destruct (_ && _); apply returns_bind; intros ?; apply returns_ret; exact I.
Qed.

Lemma returns_publish_with_retries (st : WorkflowState) (payload : list (string * json)) :
  forall attempts last,
    returns_with (same_row st) (publish_with_retries st payload attempts last).
Proof.
  induction attempts as [|attempt rest IH]; intros last.
  - simpl. destruct last; apply returns_raise.
  - cbn [publish_with_retries].
    apply returns_bind; intros r.
    intros tr st' tr' E. unfold bind in E.
    destruct (handle_publish_response st attempt r tr) as [[action|e] tr1] eqn:Eh;
      [|discriminate].
    pose proof (returns_handle_publish_response st attempt r tr action tr1 Eh) as Ha.
    destruct action as [st1|].
    + inversion E; subst. exact Ha.
    + exact (IH _ _ _ _ E).
Qed.

(** The three guarded steps never change the rows or the index. *)
Lemma guarded_step_same_row (n : Node) (st : WorkflowState) :
  n = GenerateCaption \/ n = CreateInstagramPost \/ n = CreateFacebookPost ->
  returns_with (same_row st) (node_fn n st).
Proof.
  intros [-> | [-> | ->]]; cbn [node_fn];
    unfold generate_caption, create_instagram_post, create_facebook_post;
    (destruct (opt_truthy (error st)); [(apply returns_ret; split; reflexivity)|]);
    (destruct (exhausted st); [(apply returns_ret; split; reflexivity)|]);
    apply returns_try;
    try (intros e; destruct e; (apply returns_ret; split; reflexivity)).
  - repeat (apply returns_bind; intros ?). (apply returns_ret; split; reflexivity).
  - repeat (apply returns_bind; intros ?).
    destruct (negb _); [apply returns_raise | apply returns_publish_with_retries].
  - repeat (apply returns_bind; intros ?).
    destruct (negb _); [apply returns_raise | (apply returns_ret; split; reflexivity)].
Qed.

(** The guarded steps, and [filter_rows], always return. *)
Lemma try_except_never_raises {A : Type} (body : M A) (handler : exn -> M A) :
  (forall e, never_raises (handler e)) -> never_raises (try_except body handler).
Proof.
  intros Hh tr. unfold try_except.
  destruct (body tr) as [[a|e] tr1]; [eauto | apply Hh].
Qed.

Lemma ret_never_raises {A : Type} (a : A) : never_raises (ret a).
Proof. intros tr. eexists. eexists. reflexivity. Qed.

Lemma unclearing_step_returns (n : Node) (st : WorkflowState) :
  n <> ClearRow -> never_raises (node_fn n st).
Proof.
  intros Hn. destruct n; try congruence; cbn [node_fn];
    unfold filter_rows, generate_caption, create_instagram_post, create_facebook_post;
    try (destruct (opt_truthy (error st)); [apply ret_never_raises|]);
    try (destruct (exhausted st); [apply ret_never_raises|]);
    apply try_except_never_raises; intros e; destruct e; apply ret_never_raises.
Qed.

(** [filter_rows] leaves the index where it was or at 0. *)
Lemma filter_rows_index (st : WorkflowState) :
  returns_with
    (fun st' => current_row_index st' = 0 \/ current_row_index st' = current_row_index st)
    (filter_rows st).
Proof.
  unfold filter_rows. apply returns_try.
  - repeat (apply returns_bind; intros ?). apply returns_ret. left. reflexivity.
  - intros e; destruct e; apply returns_ret; right; reflexivity.
Qed.

(** A clear step entered in bounds moves the index forward by one. *)
Lemma clear_row_index (st : WorkflowState) :
  exhausted st = false ->
  returns_with
    (fun st' => rows st' = rows st /\
                current_row_index st' = current_row_index st + 1)
    (clear_row st).
Proof.
  intros Hex tr st' tr' E. unfold clear_row in E. rewrite Hex in E.
  destruct (try_clear_returns st (getitem (rows st) (current_row_index st)) tr)
    as [st1 [ok [tr1 [Ht [Hr Hi]]]]].
  unfold bind at 1 in E. rewrite Ht in E. cbn [fst snd] in E.
  unfold bind in E.
  match type of E with
  | (let (_, _) := ?m tr1 in _) = _ =>
      destruct (m tr1) as [[[]|e] tr2]; [|discriminate]
  end.
  inversion E; subst. setters. rewrite Hr, Hi. auto.
Qed.

(** [create_facebook_post] returns without an error only on a row in
    bounds. *)
Lemma facebook_success_in_bounds (st st' : WorkflowState) (tr tr' : Trace) :
  create_facebook_post st tr = (Ok st', tr') ->
  opt_truthy (error st') = false ->
  exhausted st = false.
Proof.
  unfold create_facebook_post. intros E Hok.
  destruct (opt_truthy (error st)) eqn:He.
  - inversion E; subst. congruence.
  - destruct (exhausted st); [|reflexivity].
    inversion E; subst. discriminate.
Qed.

(** No edge leads back to [filter_rows], and the edge into [clear_row] is
    taken only when the Facebook step returned without an error. *)
Lemma next_node_not_filter (n n' : Node) (st : WorkflowState) :
  next_node n st = Goto n' -> n' <> FilterRows.
Proof.
  destruct n; cbn [next_node];
    unfold decide_after_instagram, decide_after_facebook, decide_next_step;
    try destruct (_ && _); try destruct (exhausted st);
    intros E; inversion E; discriminate.
Qed.

Lemma next_node_clear (n : Node) (st : WorkflowState) :
  next_node n st = Goto ClearRow ->
  n = CreateFacebookPost /\ opt_truthy (error st) = false.
Proof.
  destruct n; cbn [next_node];
    unfold decide_after_instagram, decide_after_facebook, decide_next_step;
    intros E.
  - discriminate E.
  - discriminate E.
  - destruct (_ && _); discriminate E.
  - destruct (field_truthy _), (opt_truthy (error st));
      cbn [andb negb] in E; try discriminate E. auto.
  - destruct (exhausted st); discriminate E.
Qed.

(** A publish step that returns with an error is followed by [END]. *)
Lemma publish_failure_ends (n : Node) (st : WorkflowState) :
  is_publish_node n = true ->
  opt_truthy (error st) = true ->
  next_node n st = END.
Proof.
  destruct n; try discriminate; intros _ He; cbn [next_node];
    unfold decide_after_instagram, decide_after_facebook;
    rewrite He, andb_false_r; reflexivity.
Qed.

(* ===================================================================== *)
(** ** Properties of runs                                                *)
(* ===================================================================== *)

Lemma completed_rows_cons (n : Node) (st : WorkflowState)
    (ups : list (Node * WorkflowState)) :
  completed_rows ((n, st) :: ups) =
  ((if is_clear_row n then 1 else 0) + completed_rows ups)%nat.
Proof. unfold completed_rows. simpl. destruct (is_clear_row n); reflexivity. Qed.

(** What one node of a run does to the row index. *)
Lemma node_index_step (n : Node) (st st' : WorkflowState) (tr tr' : Trace) :
  n <> FilterRows ->
  (n = ClearRow -> exhausted st = false) ->
  node_fn n st tr = (Ok st', tr') ->
  rows st' = rows st /\
  current_row_index st' =
    current_row_index st + (if is_clear_row n then 1 else 0).
Proof.
  intros Hn Hclear E. destruct n; try congruence; cbn [is_clear_row].
  - destruct (guarded_step_same_row GenerateCaption st (or_introl eq_refl) _ _ _ E).
    split; [assumption | lia].
  - destruct (guarded_step_same_row CreateInstagramPost st
                (or_intror (or_introl eq_refl)) _ _ _ E).
    split; [assumption | lia].
  - destruct (guarded_step_same_row CreateFacebookPost st
                (or_intror (or_intror eq_refl)) _ _ _ E).
    split; [assumption | lia].
  - exact (clear_row_index st (Hclear eq_refl) _ _ _ E).
Qed.

(** Along a run that starts after [filter_rows], each update keeps the
    index or is a clear step that adds one, and the index at the end is the
    index at the start plus the number of clear steps. *)
Lemma run_graph_index (limit : nat) :
  forall (n : Node) (st : WorkflowState) (tr : Trace),
    n <> FilterRows ->
    (n = ClearRow -> exhausted st = false) ->
    index_steps (current_row_index st) (updates (run_graph limit n st tr)) /\
    current_row_index (final_state (run_graph limit n st tr)) =
      current_row_index st
      + Z.of_nat (completed_rows (updates (run_graph limit n st tr))).
Proof.
  induction limit as [|limit IH]; intros n st tr Hn Hclear.
  - simpl. split; [exact I | unfold completed_rows; simpl; lia].
  - cbn [run_graph].
    destruct (node_fn n st tr) as [[st'|e] tr'] eqn:En;
      [|simpl; split; [exact I | unfold completed_rows; simpl; lia]].
    destruct (node_index_step n st st' tr tr' Hn Hclear En) as [Hrows Hidx].
    assert (Hhead : current_row_index st' = current_row_index st \/
                    (n = ClearRow /\ current_row_index st' = current_row_index st + 1)).
    { destruct n; cbn [is_clear_row] in Hidx; try (left; lia). right. auto. }
    destruct (next_node n st') as [n'|] eqn:Enext.
    + assert (Hn' : n' <> FilterRows) by exact (next_node_not_filter n n' st' Enext).
      assert (Hclear' : n' = ClearRow -> exhausted st' = false).
      { intros ->. destruct (next_node_clear n st' Enext) as [-> Hok].
        rewrite (exhausted_ext st st' Hrows
                   ltac:(cbn [is_clear_row] in Hidx; lia)).
        exact (facebook_success_in_bounds st st' tr tr' En Hok). }
      destruct (IH n' st' tr' Hn' Hclear') as [Hsteps Hfinal].
      cbn [updates final_state]. rewrite completed_rows_cons.
      split; [cbn [index_steps]; auto|].
      rewrite Hfinal, Hidx. destruct (is_clear_row n); lia.
    + cbn [updates final_state]. rewrite completed_rows_cons.
      split; [cbn [index_steps]; auto|].
      rewrite Hidx. unfold completed_rows. simpl. destruct (is_clear_row n); lia.
Qed.

(** C9 (amended).  In every run of the workflow the row index starts at 0,
    each node leaves it unchanged or, for a clear step, adds exactly one,
    and at the end of the run it equals the number of clear steps that ran:
    it advances by one per completed row and does not advance for a row
    abandoned at a publish step. *)
Theorem C9_index_advances_only_at_clear_row :
  forall limit : nat,
    index_steps 0 (updates (run_graph limit FilterRows initial_state [])) /\
    current_row_index (final_state (run_graph limit FilterRows initial_state [])) =
      Z.of_nat (completed_rows (updates (run_graph limit FilterRows initial_state []))).
Proof.
  intros [|limit]; [simpl; auto|].
  cbn [run_graph].
  destruct (unclearing_step_returns FilterRows initial_state
              ltac:(discriminate) []) as [st' [tr' E]].
  rewrite E. cbn [next_node updates final_state].
  assert (Hidx : current_row_index st' = 0).
  { destruct (filter_rows_index initial_state [] st' tr' E) as [H | H]; exact H. }
  destruct (run_graph_index limit GenerateCaption st' tr'
              ltac:(discriminate) ltac:(discriminate)) as [Hsteps Hfinal].
  rewrite completed_rows_cons. cbn [is_clear_row]. rewrite Hidx in *.
  split; [cbn [index_steps]; rewrite Hidx; auto|].
  rewrite Hfinal. lia.
Qed.

(** C1 (amended).  When the Instagram or the Facebook publish step returns
    with an error, the run ends at that step: no clear step and no further
    row follow in this run (the run ends normally when the limit leaves a
    step after the node, and on the runner's recursion error when the node
    was the last the limit allows); the rows and the index are as they were,
    and the step performed no effect on the sheet. *)
Theorem C1_publish_failure_ends_the_run :
  forall (n : Node) (st st' : WorkflowState) (tr tr' : Trace) (limit : nat),
    n = CreateInstagramPost \/ n = CreateFacebookPost ->
    node_fn n st tr = (Ok st', tr') ->
    opt_truthy (error st') = true ->
    run_graph (S limit) n st tr =
      mkRun [(n, st')] (match limit with O => OutOfSteps | S _ => Finished end)
            st' tr' /\
    rows st' = rows st /\
    current_row_index st' = current_row_index st /\
    exists evs, tr' = tr ++ evs /\ forallb off_sheet evs = true.
Proof.
  intros n st st' tr tr' limit Hn E Herr.
  assert (Hpub : is_publish_node n = true) by (destruct Hn; subst; reflexivity).
  assert (Hsame : same_row st st').
  { apply (guarded_step_same_row n st) with (tr := tr) (tr' := tr'); tauto. }
  destruct Hsame as [Hrows Hidx].
  split; [|split; [exact Hrows | split; [exact Hidx|]]].
  - cbn [run_graph]. rewrite E, (publish_failure_ends n st' Hpub Herr). reflexivity.
  - exact (emits_publish_node n st Hpub tr _ tr' E).
Qed.

(* ===================================================================== *)
(** ** Recovery of the retry loops                                       *)
(* ===================================================================== *)

Lemma sleeps_of_app (tr1 tr2 : Trace) :
  sleeps_of (tr1 ++ tr2) = sleeps_of tr1 ++ sleeps_of tr2.
Proof.
  induction tr1 as [|e tr1 IH]; [reflexivity|].
  destruct e; simpl; rewrite IH; reflexivity.
Qed.

Lemma sleeps_of_call_and_sleep (call : Event) (attempts : list Z) :
  is_sleep call = false ->
  sleeps_of (call_and_sleep call attempts) = map (Z.pow 2) attempts.
Proof.
  intros Hc. induction attempts as [|a rest IH]; [reflexivity|].
  unfold call_and_sleep in *. cbn [flat_map map]. rewrite <- IH.
  destruct call; try discriminate Hc; reflexivity.
Qed.

Lemma sleeps_of_settled_loop (call : Event) (fails : list Z) :
  is_sleep call = false ->
  sleeps_of (call_and_sleep call fails ++ [call]) = map (Z.pow 2) fails.
Proof.
  intros Hc. rewrite sleeps_of_app, (sleeps_of_call_and_sleep call fails Hc).
  destruct call; try discriminate Hc; simpl; apply app_nil_r.
Qed.

Lemma call_and_sleep_cons (call : Event) (a : Z) (l : list Z) (tr : Trace) :
  tr ++ call_and_sleep call (a :: l) =
  ((tr ++ [call]) ++ [EvSleep (2 ^ a)]) ++ call_and_sleep call l.
Proof.
  unfold call_and_sleep. cbn [flat_map]. rewrite <- !app_assoc. reflexivity.
Qed.

Lemma get_with_retries_settles (range_name : string) (attempt : Z) (rest : list Z) :
  forall (fails : list Z) (tr : Trace),
    fetch_fails_on range_name tr fails ->
    settled (values_get env (SPREADSHEET_ID cfg) range_name
               (tr ++ call_and_sleep (EvValuesGet (SPREADSHEET_ID cfg) range_name) fails)) ->
    get_with_retries range_name (fails ++ attempt :: rest) tr =
      (values_get env (SPREADSHEET_ID cfg) range_name
         (tr ++ call_and_sleep (EvValuesGet (SPREADSHEET_ID cfg) range_name) fails),
       (tr ++ call_and_sleep (EvValuesGet (SPREADSHEET_ID cfg) range_name) fails)
       ++ [EvValuesGet (SPREADSHEET_ID cfg) range_name]).
Proof.
  induction fails as [|f fails IH]; intros tr Hfails Hset.
  - cbn [app get_with_retries call_and_sleep flat_map] in *.
    rewrite app_nil_r in *. unfold try_except, execute_get.
    destruct (values_get env (SPREADSHEET_ID cfg) range_name tr) as [v|e];
      [reflexivity|].
    destruct e as [status msg| |]; try reflexivity.
    cbn [settled] in Hset. rewrite Hset. reflexivity.
  - cbn [app get_with_retries]. unfold try_except, execute_get.
    destruct (Hfails [] f fails eq_refl) as [status [msg [Hget Hretry]]].
    cbn [call_and_sleep flat_map] in Hget. rewrite app_nil_r in Hget.
    rewrite Hget, Hretry. unfold bind. rewrite sleep_run.
    rewrite call_and_sleep_cons. apply IH.
    + intros l1 x l2 E. rewrite <- call_and_sleep_cons.
      apply (Hfails (f :: l1) x l2). rewrite E. reflexivity.
    + rewrite <- call_and_sleep_cons. exact Hset.
Qed.

Lemma clear_with_retries_settles (range_name : string) (attempt : Z) (rest : list Z) :
  forall (fails : list Z) (tr : Trace),
    clear_fails_on range_name tr fails ->
    settled (match values_clear env (SPREADSHEET_ID cfg) range_name
                     (tr ++ call_and_sleep
                              (EvValuesClear (SPREADSHEET_ID cfg) range_name) fails) with
             | None => Ok tt
             | Some e => Raise e
             end) ->
    clear_with_retries range_name (fails ++ attempt :: rest) tr =
      (match values_clear env (SPREADSHEET_ID cfg) range_name
               (tr ++ call_and_sleep
                        (EvValuesClear (SPREADSHEET_ID cfg) range_name) fails) with
       | None => Ok tt
       | Some e => Raise e
       end,
       (tr ++ call_and_sleep (EvValuesClear (SPREADSHEET_ID cfg) range_name) fails)
       ++ [EvValuesClear (SPREADSHEET_ID cfg) range_name]).
Proof.
  induction fails as [|f fails IH]; intros tr Hfails Hset.
  - cbn [app clear_with_retries call_and_sleep flat_map] in *.
    rewrite app_nil_r in *. unfold try_except, execute_clear.
    destruct (values_clear env (SPREADSHEET_ID cfg) range_name tr) as [e|];
      [|reflexivity].
    destruct e as [status msg| |]; try reflexivity.
    cbn [settled] in Hset. rewrite Hset. reflexivity.
  - cbn [app clear_with_retries]. unfold try_except, execute_clear.
    destruct (Hfails [] f fails eq_refl) as [status [msg [Hclear Hretry]]].
    cbn [call_and_sleep flat_map] in Hclear. rewrite app_nil_r in Hclear.
    rewrite Hclear, Hretry. unfold bind. rewrite sleep_run.
    rewrite call_and_sleep_cons. apply IH.
    + intros l1 x l2 E. rewrite <- call_and_sleep_cons.
      apply (Hfails (f :: l1) x l2). rewrite E. reflexivity.
    + rewrite <- call_and_sleep_cons. exact Hset.
Qed.

Lemma publish_with_retries_settles (st : WorkflowState) (payload : list (string * json))
    (attempt : Z) (rest : list Z) (r : Response) (id : string) :
  forall (fails : list Z) (last : option Response) (tr : Trace),
    publish_not_ready_on payload tr fails ->
    requests_post env (publish_url cfg) payload
      (tr ++ call_and_sleep (EvPost (publish_url cfg) payload) fails) = Ok r ->
    status_code r = 200 -> has_id r id -> id <> "" ->
    publish_with_retries st payload (fails ++ attempt :: rest) last tr =
      (Ok (set_error (set_post_id st (Some (JStr id))) None),
       (tr ++ call_and_sleep (EvPost (publish_url cfg) payload) fails)
       ++ [EvPost (publish_url cfg) payload]).
Proof.
  induction fails as [|f fails IH]; intros last tr Hfails Hpost Hs Hid Hne.
  - cbn [app publish_with_retries call_and_sleep flat_map] in *.
    rewrite app_nil_r in *. unfold bind at 1. unfold post. rewrite Hpost.
    unfold bind. rewrite (handle_publish_id st attempt r id _ Hs Hid Hne).
    reflexivity.
  - cbn [app publish_with_retries]. unfold bind at 1. unfold post.
    destruct (Hfails [] f fails eq_refl) as [r0 [Hp0 [Hs0 Hpair0]]].
    cbn [call_and_sleep flat_map] in Hp0. rewrite app_nil_r in Hp0.
    rewrite Hp0. unfold bind at 1.
    rewrite (handle_publish_not_ready st f r0 _ Hs0 Hpair0).
    rewrite call_and_sleep_cons. apply IH; try assumption.
    + intros l1 x l2 E. rewrite <- call_and_sleep_cons.
      apply (Hfails (f :: l1) x l2). rewrite E. reflexivity.
    + rewrite <- call_and_sleep_cons. exact Hpost.
Qed.

(** X1.  The read of the sheet recovers from transient failures: when the
    first attempts are answered with 429, 500 or 503 and the next one with
    anything else (a result, or an error the loop does not retry), the loop
    ends with that outcome after that attempt, having slept 2^0, 2^1, ...
    once per failed attempt and not after the last call. *)
Theorem X1_fetch_settles_after_transient_failures :
  forall (range_name : string) (fails : list Z) (attempt : Z) (rest : list Z)
         (tr : Trace),
    fails ++ attempt :: rest = range max_retries ->
    fetch_fails_on range_name tr fails ->
    settled (values_get env (SPREADSHEET_ID cfg) range_name
               (tr ++ call_and_sleep (EvValuesGet (SPREADSHEET_ID cfg) range_name) fails)) ->
    exists evs,
      get_with_retries range_name (range max_retries) tr =
        (values_get env (SPREADSHEET_ID cfg) range_name
           (tr ++ call_and_sleep (EvValuesGet (SPREADSHEET_ID cfg) range_name) fails),
         tr ++ evs) /\
      attempts_of evs = S (List.length fails) /\
      sleeps_of evs = map (Z.pow 2) fails /\
      sleeps_between false evs = List.length fails.
Proof.
  intros range_name fails attempt rest tr Hsplit Hfails Hset.
  exists (call_and_sleep (EvValuesGet (SPREADSHEET_ID cfg) range_name) fails
          ++ [EvValuesGet (SPREADSHEET_ID cfg) range_name]).
  rewrite <- Hsplit, app_assoc.
  split; [apply get_with_retries_settles; assumption|].
  clear Hfails Hset.
  assert (Hlen : (List.length fails <= 4)%nat).
  { apply (f_equal (@List.length Z)) in Hsplit.
    rewrite length_app in Hsplit. simpl in Hsplit. lia. }
  split; [|split; [apply sleeps_of_settled_loop; reflexivity|]].
  - destruct fails as [|a [|b [|c [|d [|e fails]]]]]; try reflexivity.
    simpl in Hlen. lia.
  - destruct fails as [|a [|b [|c [|d [|e fails]]]]]; try reflexivity.
    simpl in Hlen. lia.
Qed.

(** X2.  The clear of a row recovers from transient failures in the same
    way: retryable answers on the first attempts, then any other outcome,
    end the loop with that outcome after one sleep per failed attempt. *)
Theorem X2_clear_settles_after_transient_failures :
  forall (range_name : string) (fails : list Z) (attempt : Z) (rest : list Z)
         (tr : Trace),
    fails ++ attempt :: rest = range max_retries ->
    clear_fails_on range_name tr fails ->
    settled (match values_clear env (SPREADSHEET_ID cfg) range_name
                     (tr ++ call_and_sleep
                              (EvValuesClear (SPREADSHEET_ID cfg) range_name) fails) with
             | None => Ok tt
             | Some e => Raise e
             end) ->
    exists evs,
      clear_with_retries range_name (range max_retries) tr =
        (match values_clear env (SPREADSHEET_ID cfg) range_name
                 (tr ++ call_and_sleep
                          (EvValuesClear (SPREADSHEET_ID cfg) range_name) fails) with
         | None => Ok tt
         | Some e => Raise e
         end,
         tr ++ evs) /\
      attempts_of evs = S (List.length fails) /\
      sleeps_of evs = map (Z.pow 2) fails /\
      sleeps_between false evs = List.length fails.
Proof.
  intros range_name fails attempt rest tr Hsplit Hfails Hset.
  exists (call_and_sleep (EvValuesClear (SPREADSHEET_ID cfg) range_name) fails
          ++ [EvValuesClear (SPREADSHEET_ID cfg) range_name]).
  rewrite <- Hsplit, app_assoc.
  split; [apply clear_with_retries_settles; assumption|].
  clear Hfails Hset.
  assert (Hlen : (List.length fails <= 4)%nat).
  { apply (f_equal (@List.length Z)) in Hsplit.
    rewrite length_app in Hsplit. simpl in Hsplit. lia. }
  split; [|split; [apply sleeps_of_settled_loop; reflexivity|]].
  - destruct fails as [|a [|b [|c [|d [|e fails]]]]]; try reflexivity.
    simpl in Hlen. lia.
  - destruct fails as [|a [|b [|c [|d [|e fails]]]]]; try reflexivity.
    simpl in Hlen. lia.
Qed.

(** X3.  The publish loop succeeds on the first answer with status 200 and
    a non-empty string identifier that follows any number (0 to 4) of
    media-not-ready answers: it returns the state with that identifier and
    no error, after one sleep of 2^attempt per not-ready answer and none
    after the successful post. *)
Theorem X3_publish_succeeds_after_not_ready :
  forall (st : WorkflowState) (payload : list (string * json))
         (fails : list Z) (attempt : Z) (rest : list Z) (tr : Trace)
         (r : Response) (id : string),
    fails ++ attempt :: rest = range max_retries ->
    publish_not_ready_on payload tr fails ->
    requests_post env (publish_url cfg) payload
      (tr ++ call_and_sleep (EvPost (publish_url cfg) payload) fails) = Ok r ->
    status_code r = 200 -> has_id r id -> id <> "" ->
    exists evs,
      publish_with_retries st payload (range max_retries) None tr =
        (Ok (mkState (rows st) (current_row_index st) (caption st)
                     (Some (JStr id)) (facebook_post_id st) None),
         tr ++ evs) /\
      attempts_of evs = S (List.length fails) /\
      sleeps_of evs = map (Z.pow 2) fails.
Proof.
  intros st payload fails attempt rest tr r id Hsplit Hfails Hpost Hs Hid Hne.
  exists (call_and_sleep (EvPost (publish_url cfg) payload) fails
          ++ [EvPost (publish_url cfg) payload]).
  rewrite <- Hsplit, app_assoc.
  split; [apply publish_with_retries_settles with (r := r); assumption|].
  assert (Hlen : (List.length fails <= 4)%nat).
  { apply (f_equal (@List.length Z)) in Hsplit.
    rewrite length_app in Hsplit. simpl in Hsplit. lia. }
  split; [|apply sleeps_of_settled_loop; reflexivity].
  destruct fails as [|a [|b [|c [|d [|e fails]]]]]; try reflexivity.
  simpl in Hlen. lia.
Qed.


(* ===================================================================== *)
(** ** Worst-case cost of a node                                         *)
(* ===================================================================== *)

Lemma attempts_of_app (tr1 tr2 : Trace) :
  attempts_of (tr1 ++ tr2) = (attempts_of tr1 + attempts_of tr2)%nat.
Proof. unfold attempts_of. rewrite filter_app, length_app. reflexivity. Qed.

Lemma total_sleep_app (tr1 tr2 : Trace) :
  total_sleep (tr1 ++ tr2) = total_sleep tr1 + total_sleep tr2.
Proof.
  unfold total_sleep. rewrite sleeps_of_app.
  induction (sleeps_of tr1) as [|x l IH]; simpl; [reflexivity | lia].
Qed.

Lemma backoff_total_nonneg (attempts : list Z) : 0 <= backoff_total attempts.
Proof.
  induction attempts as [|a rest IH]; simpl; [lia|].
  pose proof (Z.pow_nonneg 2 a). lia.
Qed.

Lemma costs_weaken {A : Type} (c c' : nat) (s s' : Z) (m : M A) :
  (c <= c')%nat -> s <= s' -> costs c s m -> costs c' s' m.
Proof.
  intros Hc Hs Hm tr r tr' E.
  destruct (Hm tr r tr' E) as [evs [-> [H1 H2]]].
  exists evs. repeat split; lia.
Qed.

Lemma costs_ret {A : Type} (a : A) : costs 0 0 (ret a).
Proof.
  intros tr r tr' E. inversion E; subst. exists [].
  rewrite app_nil_r. unfold attempts_of, total_sleep. simpl. repeat split; lia.
Qed.

Lemma costs_raise {A : Type} (e : exn) : costs 0 0 (@raise A e).
Proof.
  intros tr r tr' E. inversion E; subst. exists [].
  rewrite app_nil_r. unfold attempts_of, total_sleep. simpl. repeat split; lia.
Qed.

Lemma costs_bind {A B : Type} (c1 c2 : nat) (s1 s2 : Z) (m : M A) (k : A -> M B) :
  0 <= s2 ->
  costs c1 s1 m -> (forall a, costs c2 s2 (k a)) ->
  costs (c1 + c2) (s1 + s2) (bind m k).
Proof.
  intros Hs2 Hm Hk tr r tr' E. unfold bind in E.
  destruct (m tr) as [[a|e] tr1] eqn:Em;
    destruct (Hm tr _ tr1 Em) as [evs1 [-> [Hc1 Ht1]]].
  - destruct (Hk a _ _ _ E) as [evs2 [-> [Hc2 Ht2]]].
    exists (evs1 ++ evs2).
    rewrite app_assoc, attempts_of_app, total_sleep_app. repeat split; lia.
  - inversion E; subst. exists evs1. repeat split; lia.
Qed.

Lemma costs_try {A : Type} (c1 c2 : nat) (s1 s2 : Z) (body : M A)
    (handler : exn -> M A) :
  0 <= s2 ->
  costs c1 s1 body -> (forall e, costs c2 s2 (handler e)) ->
  costs (c1 + c2) (s1 + s2) (try_except body handler).
Proof.
  intros Hs2 Hb Hh tr r tr' E. unfold try_except in E.
  destruct (body tr) as [[a|e] tr1] eqn:Eb;
    destruct (Hb tr _ tr1 Eb) as [evs1 [-> [Hc1 Ht1]]].
  - inversion E; subst. exists evs1. repeat split; lia.
  - destruct (Hh e _ _ _ E) as [evs2 [-> [Hc2 Ht2]]].
    exists (evs1 ++ evs2).
    rewrite app_assoc, attempts_of_app, total_sleep_app. repeat split; lia.
Qed.

Lemma costs_bind_le {A B : Type} (c1 c2 : nat) (s1 s2 : Z) (c : nat) (s : Z)
    (m : M A) (k : A -> M B) :
  0 <= s2 -> (c1 + c2 <= c)%nat -> s1 + s2 <= s ->
  costs c1 s1 m -> (forall a, costs c2 s2 (k a)) -> costs c s (bind m k).
Proof.
  intros Hs2 Hc Hs Hm Hk.
  apply (costs_weaken (c1 + c2) c (s1 + s2) s); [exact Hc | exact Hs |].
  apply costs_bind; assumption.
Qed.

Lemma costs_try_le {A : Type} (c1 c2 : nat) (s1 s2 : Z) (c : nat) (s : Z)
    (body : M A) (handler : exn -> M A) :
  0 <= s2 -> (c1 + c2 <= c)%nat -> s1 + s2 <= s ->
  costs c1 s1 body -> (forall e, costs c2 s2 (handler e)) ->
  costs c s (try_except body handler).
Proof.
  intros Hs2 Hc Hs Hb Hh.
  apply (costs_weaken (c1 + c2) c (s1 + s2) s); [exact Hc | exact Hs |].
  apply costs_try; assumption.
Qed.

(** A call to the outside world: one call, no sleep. *)
Lemma costs_call {A : Type} (f : Trace -> Result A) (ev : Event) :
  is_sleep ev = false -> costs 1 0 (fun tr => (f tr, tr ++ [ev])).
Proof.
  intros Hev tr r tr' E. inversion E; subst. exists [ev].
  unfold attempts_of, is_call, total_sleep. simpl. rewrite Hev.
  destruct ev; try discriminate Hev; simpl; repeat split; lia.
Qed.

Lemma costs_sleep (seconds : Z) : costs 0 seconds (sleep seconds).
Proof.
  intros tr r tr' E. inversion E; subst. exists [EvSleep seconds].
  unfold attempts_of, total_sleep. simpl. repeat split; lia.
Qed.

Lemma costs_or_raise {A : Type} (o : option A) (e : exn) : costs 0 0 (or_raise o e).
Proof. destruct o; [apply costs_ret | apply costs_raise]. Qed.

Lemma costs_dict_get_default (d : json) (key : string) (dflt : json) :
  costs 0 0 (dict_get_default d key dflt).
Proof. destruct d; simpl; first [apply costs_ret | apply costs_raise]. Qed.

Lemma costs_raise_for_status (r : Response) : costs 0 0 (raise_for_status r).
Proof.
  unfold raise_for_status. destruct (_ && _); [apply costs_raise | apply costs_ret].
Qed.

(** A computation that only decides: its steps cost nothing. *)
Ltac costs_free :=
  repeat first
    [ apply costs_ret | apply costs_raise | apply costs_or_raise
    | apply costs_dict_get_default | apply costs_raise_for_status
    | match goal with
      | |- costs 0 0 (bind _ _) =>
          apply (costs_bind_le 0 0 0 0); [lia | lia | lia | | intros ?]
      | |- costs 0 0 (if ?b then _ else _) => destruct b
      | |- costs 0 0 (match ?x with _ => _ end) => destruct x
      end ].

Lemma costs_get_with_retries (range_name : string) (attempts : list Z) :
  costs (List.length attempts) (backoff_total attempts)
        (get_with_retries range_name attempts).
Proof.
  induction attempts as [|a rest IH].
  - simpl. apply costs_raise.
  - cbn [get_with_retries List.length].
    change (backoff_total (a :: rest)) with (2 ^ a + backoff_total rest).
    unfold execute_get.
    pose proof (backoff_total_nonneg rest). assert (0 <= 2 ^ a) by (apply Z.pow_nonneg; lia).
    apply (costs_try_le 1 (List.length rest) 0 (2 ^ a + backoff_total rest)); [lia | lia | lia | apply costs_call; reflexivity |].
    intros e.
    assert (Hraise : costs (List.length rest) (2 ^ a + backoff_total rest)
                       (@raise (option (list (list string))) e)).
    { apply (costs_weaken 0 _ 0 _); [lia | lia | apply costs_raise]. }
    destruct e as [status msg| |]; try exact Hraise.
    destruct (sheets_retryable status); [|exact Hraise].
    apply (costs_bind_le 0 (List.length rest) (2 ^ a) (backoff_total rest)); [lia | lia | lia | apply costs_sleep | intros _; exact IH].
Qed.

Lemma costs_clear_with_retries (range_name : string) (attempts : list Z) :
  costs (List.length attempts) (backoff_total attempts)
        (clear_with_retries range_name attempts).
Proof.
  induction attempts as [|a rest IH].
  - simpl. apply costs_raise.
  - cbn [clear_with_retries List.length].
    change (backoff_total (a :: rest)) with (2 ^ a + backoff_total rest).
    unfold execute_clear.
    pose proof (backoff_total_nonneg rest). assert (0 <= 2 ^ a) by (apply Z.pow_nonneg; lia).
    apply (costs_try_le 1 (List.length rest) 0 (2 ^ a + backoff_total rest)); [lia | lia | lia | apply costs_call; reflexivity |].
    intros e.
    assert (Hraise : costs (List.length rest) (2 ^ a + backoff_total rest)
                       (@raise unit e)).
    { apply (costs_weaken 0 _ 0 _); [lia | lia | apply costs_raise]. }
    destruct e as [status msg| |]; try exact Hraise.
    destruct (sheets_retryable status); [|exact Hraise].
    apply (costs_bind_le 0 (List.length rest) (2 ^ a) (backoff_total rest)); [lia | lia | lia | apply costs_sleep | intros _; exact IH].
Qed.

Lemma costs_handle_publish_response (st : WorkflowState) (attempt : Z) (r : Response) :
  costs 0 (2 ^ attempt) (handle_publish_response st attempt r).
Proof.
  assert (0 <= 2 ^ attempt) by (apply Z.pow_nonneg; lia).
  unfold handle_publish_response, response_json, dict_get.
  destruct (status_code r =? 200).
  - apply (costs_weaken 0 0 0 _); [lia | lia |]. costs_free.
  - apply (costs_bind_le 0 0 0 (2 ^ attempt)); [lia | lia | lia | costs_free | intros error_json].
    apply (costs_bind_le 0 0 0 (2 ^ attempt)); [lia | lia | lia | costs_free | intros err].
    apply (costs_bind_le 0 0 0 (2 ^ attempt)); [lia | lia | lia | costs_free | intros code].
    apply (costs_bind_le 0 0 0 (2 ^ attempt)); [lia | lia | lia | costs_free | intros err'].
    apply (costs_bind_le 0 0 0 (2 ^ attempt)); [lia | lia | lia | costs_free | intros sub].
    destruct (_ && _).
    + apply (costs_bind_le 0 0 (2 ^ attempt) 0); [lia | lia | lia | apply costs_sleep | intros _; apply costs_ret].
    + apply (costs_weaken 0 0 0 _); [lia | lia |]. costs_free.
Qed.

Lemma costs_publish_with_retries (st : WorkflowState) (payload : list (string * json)) :
  forall attempts last,
    costs (List.length attempts) (backoff_total attempts)
          (publish_with_retries st payload attempts last).
Proof.
  induction attempts as [|a rest IH]; intros last.
  - simpl. destruct last; apply costs_raise.
  - cbn [publish_with_retries List.length].
    change (backoff_total (a :: rest)) with (2 ^ a + backoff_total rest).
    unfold post.
    pose proof (backoff_total_nonneg rest). assert (0 <= 2 ^ a) by (apply Z.pow_nonneg; lia).
    apply (costs_bind_le 1 (List.length rest) 0 (2 ^ a + backoff_total rest)); [lia | lia | lia | apply costs_call; reflexivity | intros r].
    apply (costs_bind_le 0 (List.length rest) (2 ^ a) (backoff_total rest)); [lia | lia | lia | apply costs_handle_publish_response | intros [st'|]].
    + apply (costs_weaken 0 _ 0 _); [lia | lia | apply costs_ret].
    + apply IH.
Qed.

Lemma costs_one_call_body {A : Type} (m : M A) (handler : exn -> M A) :
  costs 1 0 m -> (forall e, costs 0 0 (handler e)) ->
  costs 1 0 (try_except m handler).
Proof. intros Hm Hh. apply (costs_try_le 1 0 0 0); [lia | lia | lia | exact Hm | exact Hh]. Qed.

Lemma costs_generate_caption (st : WorkflowState) : costs 1 0 (generate_caption st).
Proof.
  unfold generate_caption.
  destruct (opt_truthy _); [apply (costs_weaken 0 1 0 0); [lia | lia | apply costs_ret]|].
  destruct (exhausted _); [apply (costs_weaken 0 1 0 0); [lia | lia | apply costs_ret]|].
  apply costs_one_call_body; [|intros e; apply costs_ret].
  unfold current_row_of.
  apply (costs_bind_le 0 1 0 0); [lia | lia | lia | apply costs_or_raise | intros row].
  apply (costs_bind_le 1 0 0 0); [lia | lia | lia | apply costs_call; reflexivity | intros c].
  apply costs_ret.
Qed.

Lemma costs_create_facebook_post (st : WorkflowState) :
  costs 1 0 (create_facebook_post st).
Proof.
  unfold create_facebook_post.
  destruct (opt_truthy _); [apply (costs_weaken 0 1 0 0); [lia | lia | apply costs_ret]|].
  destruct (exhausted _); [apply (costs_weaken 0 1 0 0); [lia | lia | apply costs_ret]|].
  apply costs_one_call_body; [|intros e; destruct e; apply costs_ret].
  unfold current_row_of, subscript_optional, response_json, dict_get.
  apply (costs_bind_le 0 1 0 0); [lia | lia | lia | apply costs_or_raise | intros row].
  apply (costs_bind_le 0 1 0 0); [lia | lia | lia | costs_free | intros _].
  apply (costs_bind_le 1 0 0 0); [lia | lia | lia | apply costs_call; reflexivity | intros resp].
  costs_free.
Qed.

Lemma costs_create_instagram_post (st : WorkflowState) :
  costs 6 31 (create_instagram_post st).
Proof.
  unfold create_instagram_post.
  destruct (opt_truthy _); [apply (costs_weaken 0 6 0 31); [lia | lia | apply costs_ret]|].
  destruct (exhausted _); [apply (costs_weaken 0 6 0 31); [lia | lia | apply costs_ret]|].
  apply (costs_try_le 6 0 31 0); [lia | lia | lia | | intros e; apply costs_ret].
  unfold current_row_of, subscript_optional, response_json, dict_get.
  apply (costs_bind_le 0 6 0 31); [lia | lia | lia | apply costs_or_raise | intros row].
  apply (costs_bind_le 0 6 0 31); [lia | lia | lia | costs_free | intros _].
  apply (costs_bind_le 1 5 0 31); [lia | lia | lia | apply costs_call; reflexivity | intros resp].
  apply (costs_bind_le 0 5 0 31); [lia | lia | lia | costs_free | intros _].
  apply (costs_bind_le 0 5 0 31); [lia | lia | lia | costs_free | intros data].
  apply (costs_bind_le 0 5 0 31); [lia | lia | lia | costs_free | intros media_id].
  destruct (negb _).
  - apply (costs_weaken 0 5 0 31); [lia | lia | apply costs_raise].
  - apply (costs_publish_with_retries st _ (range max_retries) None).
Qed.

Lemma costs_filter_rows (st : WorkflowState) : costs 6 31 (filter_rows st).
Proof.
  unfold filter_rows.
  apply (costs_try_le 6 0 31 0); [lia | lia | lia | | intros e; destruct e; apply costs_ret].
  apply (costs_bind_le 1 5 0 31); [lia | lia | lia | apply costs_call; reflexivity | intros _].
  apply (costs_bind_le 5 0 31 0); [lia | lia | lia | | intros result; apply costs_ret].
  apply (costs_get_with_retries _ (range max_retries)).
Qed.

Lemma costs_try_clear (st : WorkflowState) (current_row : option Row) :
  costs 6 31 (try_clear st current_row).
Proof.
  unfold try_clear.
  apply (costs_try_le 6 0 31 0); [lia | lia | lia | | intros e; apply costs_ret].
  apply (costs_bind_le 0 6 0 31); [lia | lia | lia | apply costs_or_raise | intros row].
  apply (costs_bind_le 1 5 0 31); [lia | lia | lia | apply costs_call; reflexivity | intros _].
  apply (costs_bind_le 5 0 31 0); [lia | lia | lia | | intros _; apply costs_ret].
  apply (costs_clear_with_retries _ (range max_retries)).
Qed.

Lemma costs_clear_row (st : WorkflowState) : costs 6 31 (clear_row st).
Proof.
  unfold clear_row.
  destruct (exhausted _); [apply (costs_weaken 0 6 0 31); [lia | lia | apply costs_ret]|].
  apply (costs_bind_le 6 0 31 0); [lia | lia | lia | apply costs_try_clear | intros outcome].
  costs_free.
Qed.

(** X4.  No node makes more than 6 calls to the outside world or sleeps
    more than 31 seconds in all, whatever the world answers; the caption and
    the Facebook steps make at most one call and never sleep. *)
Theorem X4_node_cost_is_bounded :
  forall (n : Node) (st : WorkflowState) (tr : Trace)
         (r : Result WorkflowState) (tr' : Trace),
    node_fn n st tr = (r, tr') ->
    exists evs,
      tr' = tr ++ evs /\
      (attempts_of evs <= (if has_retry_loop n then 6 else 1))%nat /\
      total_sleep evs <= (if has_retry_loop n then 31 else 0).
Proof.
  intros n st tr r tr' E. destruct n; cbn [node_fn has_retry_loop] in *.
  - exact (costs_filter_rows st tr r tr' E).
  - exact (costs_generate_caption st tr r tr' E).
  - exact (costs_create_instagram_post st tr r tr' E).
  - exact (costs_create_facebook_post st tr r tr' E).
  - exact (costs_clear_row st tr r tr' E).
Qed.


(* ===================================================================== *)
(** ** Outcomes of the single steps                                      *)
(* ===================================================================== *)

Lemma current_row_of_at_row (st : WorkflowState) (row : Row) (tr : Trace) :
  at_row st row -> current_row_of st tr = (Ok row, tr).
Proof.
  intros [Hb Hrow]. unfold current_row_of, getitem.
  replace (0 <=? current_row_index st) with true by (symmetry; apply Z.leb_le; lia).
  replace (current_row_index st <? Z.of_nat (List.length (rows st))) with true
    by (symmetry; apply Z.ltb_lt; lia).
  cbn [andb]. rewrite Hrow. reflexivity.
Qed.

Lemma at_row_not_exhausted (st : WorkflowState) (row : Row) :
  at_row st row -> exhausted st = false.
Proof. intros [Hb _]. apply exhausted_false_iff. lia. Qed.

(** The two ways [filter_rows] returns. *)
Lemma filter_rows_outcome :
  forall (st : WorkflowState) (tr : Trace),
    exists st' tr',
      filter_rows st tr = (Ok st', tr') /\
      caption st' = caption st /\
      post_id st' = post_id st /\
      facebook_post_id st' = facebook_post_id st /\
      ((error st' = None /\ current_row_index st' = 0 /\
        exists values, rows st' = filtered_rows values) \/
       (exists msg, error st' = Some ("Error filtering rows: " ++ msg)%string /\
                    rows st' = rows st /\
                    current_row_index st' = current_row_index st)).
Proof.
  intros st tr. unfold filter_rows, try_except, bind.
  destruct (get_sheets_service tr) as [[[]|e] tr1].
  - destruct (get_with_retries _ _ tr1) as [[result|e] tr2].
    + eexists. eexists. split; [reflexivity|]. cbn. repeat split.
      left. repeat split. eexists. reflexivity.
    + destruct e; eexists; eexists; (split; [reflexivity|]); cbn; repeat split;
        right; eexists; repeat split.
  - destruct e; eexists; eexists; (split; [reflexivity|]); cbn; repeat split;
      right; eexists; repeat split.
Qed.

(** X5.  [filter_rows] never lets an exception out.  It returns either the
    state with the filtered rows of some fetched table, index 0 and no
    error, or the entry state with only the error changed, to a message
    that starts with "Error filtering rows: "; the caption and the two post
    identifiers are never touched. *)
Theorem X5_filter_rows_always_returns :
  forall (st : WorkflowState) (tr : Trace),
    exists st' tr',
      filter_rows st tr = (Ok st', tr') /\
      caption st' = caption st /\
      post_id st' = post_id st /\
      facebook_post_id st' = facebook_post_id st /\
      ((error st' = None /\ current_row_index st' = 0 /\
        exists values, rows st' = filtered_rows values) \/
       (exists msg, error st' = Some ("Error filtering rows: " ++ msg)%string /\
                    rows st' = rows st /\
                    current_row_index st' = current_row_index st)).
Proof. exact filter_rows_outcome. Qed.

(** X6.  The caption is asked for exactly once and never retried: when the
    call to the model raises on a row in bounds, the step records
    "Error generating caption: ..." and leaves every other field as it was,
    and the run ends after the (skipped) Instagram step without any HTTP
    request or clear: normally under a limit of at least 3 from this step,
    and on the runner's recursion error, after the same two nodes, under a
    limit of exactly 2. *)
Theorem X6_caption_failure_ends_the_run :
  forall (st : WorkflowState) (tr : Trace) (row : Row) (e : exn) (limit : nat),
    opt_truthy (error st) = false ->
    at_row st row ->
    llm_invoke env "gemini-2.5-flash" (GEMINI_API_KEY cfg)
               (caption_prompt (prompt row)) tr = Raise e ->
    let st' := mkState (rows st) (current_row_index st) (caption st) (post_id st)
                       (facebook_post_id st)
                       (Some ("Error generating caption: " ++ str e)%string) in
    let tr' := tr ++ [EvLlmInvoke "gemini-2.5-flash" (GEMINI_API_KEY cfg)
                                  (caption_prompt (prompt row))] in
    generate_caption st tr = (Ok st', tr') /\
    run_graph (S (S limit)) GenerateCaption st tr =
      mkRun [(GenerateCaption, st'); (CreateInstagramPost, st')]
            (match limit with O => OutOfSteps | S _ => Finished end) st' tr'.
Proof.
  intros st tr row e limit Herr Hrow Hllm st' tr'.
  assert (Hstep : generate_caption st tr = (Ok st', tr')).
  { unfold generate_caption. rewrite Herr, (at_row_not_exhausted st row Hrow).
    unfold try_except, bind. rewrite (current_row_of_at_row st row tr Hrow).
    unfold invoke. rewrite Hllm. reflexivity. }
  split; [exact Hstep|].
  assert (Hskip : create_instagram_post st' tr' = (Ok st', tr')).
  { apply (guarded_step_skips CreateInstagramPost st' tr'); [tauto | reflexivity]. }
  cbn [run_graph node_fn next_node]. rewrite Hstep, Hskip. cbn [next_node].
  unfold decide_after_instagram. cbn [error st' opt_truthy].
  change (str_truthy ("Error generating caption: " ++ str e)) with true.
  rewrite andb_false_r. reflexivity.
Qed.

Lemma facebook_step_on_answer (st : WorkflowState) (tr : Trace) (row : Row) (c : string) :
  opt_truthy (error st) = false ->
  at_row st row ->
  caption st = Some c ->
  create_facebook_post st tr =
    try_except
      (response <- post facebook_url (facebook_payload cfg row c) ;;
       raise_for_status response ;;;
       response_data <- response_json response ;;
       post_id <- dict_get response_data "id" ;;
       if negb (truthy post_id)
       then raise (Exception ("Failed to create Facebook post: "
                              ++ repr rt response_data)%string)
       else ret (set_error (set_facebook_post_id st (Some post_id)) None))
      (fun e =>
         match e with
         | HTTPError msg response_text =>
             ret (set_error st
                    (Some ("Error creating Facebook post: " ++ msg
                           ++ ". Response: " ++ response_text)%string))
         | _ =>
             ret (set_error st (Some ("Error creating Facebook post: " ++ str e)%string))
         end) tr.
Proof.
  intros Herr Hrow Hcap. unfold create_facebook_post.
  rewrite Herr, (at_row_not_exhausted st row Hrow).
  unfold try_except. unfold bind at 1.
  rewrite (current_row_of_at_row st row tr Hrow).
  unfold bind at 1. rewrite Hcap. cbn [subscript_optional ret].
  reflexivity.
Qed.

(** X7.  The Facebook step makes one POST and no second try.  On an answer
    that fails (the call raises, status 400..599, undecodable body, or no
    truthy "id") it returns the entry state with only the error set, and
    the edge after it leads to [END], so the row is not cleared; for a
    status in 400..599 the error carries the text of the response. *)
Theorem X7_facebook_failure_is_recorded :
  forall (st : WorkflowState) (tr : Trace) (row : Row) (c : string),
    opt_truthy (error st) = false ->
    at_row st row ->
    caption st = Some c ->
    answer_fails (requests_post env facebook_url (facebook_payload cfg row c) tr) ->
    exists msg,
      create_facebook_post st tr =
        (Ok (mkState (rows st) (current_row_index st) (caption st) (post_id st)
                     (facebook_post_id st) (Some msg)),
         tr ++ [EvPost facebook_url (facebook_payload cfg row c)]) /\
      starts_with "Error creating Facebook post: " msg /\
      next_node CreateFacebookPost
        (mkState (rows st) (current_row_index st) (caption st) (post_id st)
                 (facebook_post_id st) (Some msg)) = END /\
      (forall r,
          requests_post env facebook_url (facebook_payload cfg row c) tr = Ok r ->
          400 <= status_code r < 600 ->
          msg = ("Error creating Facebook post: " ++ http_error_msg rt r
                 ++ ". Response: " ++ text r)%string).
Proof.
  intros st tr row c Herr Hrow Hcap Hfail.
  rewrite (facebook_step_on_answer st tr row c Herr Hrow Hcap).
  unfold try_except, bind, post.
  assert (Hend : forall msg,
             starts_with "Error creating Facebook post: " msg ->
             next_node CreateFacebookPost
               (mkState (rows st) (current_row_index st) (caption st) (post_id st)
                        (facebook_post_id st) (Some msg)) = END).
  { intros msg Hp. cbn [next_node]. unfold decide_after_facebook.
    cbn [error opt_truthy].
    destruct Hp as [rest ->]. cbn [append].
    change (str_truthy _) with true. rewrite andb_false_r. reflexivity. }
  destruct (requests_post env facebook_url (facebook_payload cfg row c) tr)
    as [r|e] eqn:Hpost; cbn [answer_fails] in Hfail.
  - unfold raise_for_status.
    destruct ((400 <=? status_code r) && (status_code r <? 600)) eqn:Hst.
    + eexists. split; [reflexivity|]. split; [eexists; reflexivity|].
      split; [apply Hend; eexists; reflexivity|].
      intros r' E _. inversion E; subst. reflexivity.
    + assert (Hout : ~ (400 <= status_code r < 600)).
      { apply andb_false_iff in Hst. rewrite Z.leb_gt, Z.ltb_ge in Hst. lia. }
      unfold response_json, ret.
      destruct Hfail as [Hin | [Hnone | [v [Hv Hid]]]]; [contradiction| |].
      * rewrite Hnone. cbn [or_raise raise].
        eexists. split; [reflexivity|]. split; [eexists; reflexivity|].
        split; [apply Hend; eexists; reflexivity|].
        intros r' E Hin. inversion E; subst. contradiction.
      * rewrite Hv. cbn [or_raise ret]. unfold dict_get, dict_get_default.
        destruct v as [| | | | |body];
          try (cbn [raise]; eexists; split; [reflexivity|];
               split; [eexists; reflexivity|]; split; [apply Hend; eexists; reflexivity|];
               intros r' E Hin; inversion E; subst; contradiction).
        specialize (Hid body eq_refl). unfold ret.
        replace (truthy match assoc "id" body with Some v => v | None => JNull end)
          with false
          by (destruct (assoc "id" body); [symmetry; exact Hid | reflexivity]).
        cbn [negb raise].
        eexists. split; [reflexivity|]. split; [eexists; reflexivity|].
        split; [apply Hend; eexists; reflexivity|].
        intros r' E Hin. inversion E; subst. contradiction.
  - destruct e; eexists; (split; [reflexivity|]); (split; [eexists; reflexivity|]);
      (split; [apply Hend; eexists; reflexivity|]); intros r' E; discriminate E.
Qed.


Lemma instagram_step_on_answer (st : WorkflowState) (tr : Trace) (row : Row) (c : string) :
  opt_truthy (error st) = false ->
  at_row st row ->
  caption st = Some c ->
  create_instagram_post st tr =
    try_except
      (response <- post (create_media_url cfg) (media_payload cfg row c) ;;
       raise_for_status response ;;;
       response_data <- response_json response ;;
       media_id <- dict_get response_data "id" ;;
       if negb (truthy media_id)
       then raise (Exception ("Failed to create media container: "
                              ++ repr rt response_data)%string)
       else
         publish_with_retries st (publish_payload cfg media_id) (range max_retries) None)
      (fun e =>
         ret (set_error st (Some ("Error creating Instagram post: " ++ str e)%string)))
      tr.
Proof.
  intros Herr Hrow Hcap. unfold create_instagram_post.
  rewrite Herr, (at_row_not_exhausted st row Hrow).
  unfold try_except. unfold bind at 1.
  rewrite (current_row_of_at_row st row tr Hrow).
  unfold bind at 1. rewrite Hcap. cbn [subscript_optional ret].
  reflexivity.
Qed.

(** X8.  When the creation of the media container fails (the call raises,
    status 400..599, undecodable body, or no truthy "id"), the Instagram
    step makes no publish attempt: after that single POST it returns the
    entry state with only the error set, to a message that starts with
    "Error creating Instagram post: ", and the edge after it leads to
    [END]. *)
Theorem X8_container_failure_skips_publish :
  forall (st : WorkflowState) (tr : Trace) (row : Row) (c : string),
    opt_truthy (error st) = false ->
    at_row st row ->
    caption st = Some c ->
    answer_fails (requests_post env (create_media_url cfg) (media_payload cfg row c) tr) ->
    exists msg,
      create_instagram_post st tr =
        (Ok (mkState (rows st) (current_row_index st) (caption st) (post_id st)
                     (facebook_post_id st) (Some msg)),
         tr ++ [EvPost (create_media_url cfg) (media_payload cfg row c)]) /\
      starts_with "Error creating Instagram post: " msg /\
      next_node CreateInstagramPost
        (mkState (rows st) (current_row_index st) (caption st) (post_id st)
                 (facebook_post_id st) (Some msg)) = END.
Proof.
  intros st tr row c Herr Hrow Hcap Hfail.
  rewrite (instagram_step_on_answer st tr row c Herr Hrow Hcap).
  set (loop := publish_with_retries st).
  unfold try_except, bind, post.
  assert (Hend : forall msg,
             starts_with "Error creating Instagram post: " msg ->
             next_node CreateInstagramPost
               (mkState (rows st) (current_row_index st) (caption st) (post_id st)
                        (facebook_post_id st) (Some msg)) = END).
  { intros msg [rest ->]. cbn [next_node]. unfold decide_after_instagram.
    cbn [error opt_truthy append].
    change (str_truthy _) with true. rewrite andb_false_r. reflexivity. }
  destruct (requests_post env (create_media_url cfg) (media_payload cfg row c) tr)
    as [r|e] eqn:Hpost; cbn [answer_fails] in Hfail.
  - unfold raise_for_status.
    destruct ((400 <=? status_code r) && (status_code r <? 600)) eqn:Hst.
    + eexists. split; [reflexivity|]. split; [eexists; reflexivity|].
      apply Hend. eexists; reflexivity.
    + assert (Hout : ~ (400 <= status_code r < 600)).
      { apply andb_false_iff in Hst. rewrite Z.leb_gt, Z.ltb_ge in Hst. lia. }
      unfold response_json, ret.
      destruct Hfail as [Hin | [Hnone | [v [Hv Hid]]]]; [contradiction| |].
      * rewrite Hnone. cbn [or_raise raise].
        eexists. split; [reflexivity|]. split; [eexists; reflexivity|].
        apply Hend. eexists; reflexivity.
      * rewrite Hv. cbn [or_raise ret]. unfold dict_get, dict_get_default.
        destruct v as [| | | | |body];
          try (cbn [raise]; eexists; split; [reflexivity|];
               split; [eexists; reflexivity|]; apply Hend; eexists; reflexivity).
        specialize (Hid body eq_refl). unfold ret.
        replace (truthy match assoc "id" body with Some v => v | None => JNull end)
          with false
          by (destruct (assoc "id" body); [symmetry; exact Hid | reflexivity]).
        cbn [negb raise].
        eexists. split; [reflexivity|]. split; [eexists; reflexivity|].
        apply Hend. eexists; reflexivity.
  - eexists. split; [reflexivity|]. split; [eexists; reflexivity|].
    apply Hend. eexists; reflexivity.
Qed.

(** X9.  A publish step entered on a row in bounds without a caption fails
    before any request: the logged slice of the absent caption raises, so
    the step performs no effect and returns the entry state with only the
    error set. *)
Theorem X9_publish_without_caption_makes_no_request :
  forall (n : Node) (st : WorkflowState) (tr : Trace) (row : Row),
    n = CreateInstagramPost \/ n = CreateFacebookPost ->
    opt_truthy (error st) = false ->
    at_row st row ->
    caption st = None ->
    exists msg,
      node_fn n st tr =
        (Ok (mkState (rows st) (current_row_index st) None (post_id st)
                     (facebook_post_id st) (Some msg)), tr) /\
      str_truthy msg = true.
Proof.
  intros n st tr row Hn Herr Hrow Hcap.
  destruct Hn as [-> | ->]; cbn [node_fn];
    unfold create_instagram_post, create_facebook_post;
    rewrite Herr, (at_row_not_exhausted st row Hrow);
    unfold try_except; unfold bind at 1;
    rewrite (current_row_of_at_row st row tr Hrow);
    unfold bind at 1; rewrite Hcap; cbn [subscript_optional raise];
    eexists; (split; [unfold ret, set_error; rewrite Hcap; reflexivity|]);
    reflexivity.
Qed.

(* ===================================================================== *)
(** ** What a guarded step changes                                       *)
(* ===================================================================== *)

Ltac frame_leaf :=
  unfold step_frame, set_error, set_caption, set_post_id, set_facebook_post_id;
  cbn [rows current_row_index caption post_id facebook_post_id error opt_truthy];
  repeat split; intros; try congruence; try discriminate.

Lemma frame_handle_publish_response (st : WorkflowState) (attempt : Z) (r : Response) :
  returns_with
    (fun action => match action with
                   | Return st' =>
                       step_frame CreateInstagramPost st st' /\
                       error st' = None /\ field_truthy (post_id st') = true
                   | NextAttempt => True
                   end)
    (handle_publish_response st attempt r).
Proof.
  unfold handle_publish_response.
  destruct (status_code r =? 200).
  - apply returns_bind; intros publish_data.
    apply returns_bind; intros id.
    destruct (truthy id) eqn:Hid; apply returns_ret; [|exact I].
    split; [frame_leaf | split; [reflexivity | exact Hid]].
  - repeat (apply returns_bind; intros ?).
    destruct (_ && _); apply returns_bind; intros ?; apply returns_ret; exact I.
Qed.

Lemma frame_publish_with_retries (st : WorkflowState) (payload : list (string * json)) :
  forall attempts last,
    returns_with
      (fun st' => step_frame CreateInstagramPost st st' /\
                  error st' = None /\ field_truthy (post_id st') = true)
      (publish_with_retries st payload attempts last).
Proof.
  induction attempts as [|attempt rest IH]; intros last.
  - simpl. destruct last; apply returns_raise.
  - cbn [publish_with_retries].
    apply returns_bind; intros r.
    intros tr st' tr' E. unfold bind in E.
    destruct (handle_publish_response st attempt r tr) as [[action|e] tr1] eqn:Eh;
      [|discriminate].
    pose proof (frame_handle_publish_response st attempt r tr action tr1 Eh) as Ha.
    destruct action as [st1|].
    + inversion E; subst. exact Ha.
    + exact (IH _ _ _ _ E).
Qed.

(** What the three guarded steps return: the frame, and with no error a
    truthy identifier in the field of a publish step. *)
Lemma guarded_step_frame (n : Node) (st : WorkflowState) :
  n = GenerateCaption \/ n = CreateInstagramPost \/ n = CreateFacebookPost ->
  returns_with
    (fun st' =>
       step_frame n st st' /\
       (opt_truthy (error st') = false ->
        (n = CreateInstagramPost -> field_truthy (post_id st') = true) /\
        (n = CreateFacebookPost -> field_truthy (facebook_post_id st') = true)))
    (node_fn n st).
Proof.
  intros [-> | [-> | ->]]; cbn [node_fn];
    unfold generate_caption, create_instagram_post, create_facebook_post;
    (destruct (opt_truthy (error st)) eqn:Herr;
     [apply returns_ret; split; [frame_leaf | intros; congruence]|]);
    (destruct (exhausted st);
     [apply returns_ret; split; [frame_leaf | cbn; intros; discriminate]|]);
    apply returns_try;
    try (intros e; destruct e; apply returns_ret;
         (split; [frame_leaf | cbn; intros; discriminate])).
  - repeat (apply returns_bind; intros ?). apply returns_ret.
    split; [frame_leaf | intros _; split; intros; discriminate].
  - repeat (apply returns_bind; intros ?).
    destruct (negb _); [apply returns_raise|].
    intros tr st' tr' E.
    destruct (frame_publish_with_retries st _ _ _ tr st' tr' E) as [Hf [_ Hid]].
    split; [exact Hf | intros _; split; [intros _; exact Hid | intros; discriminate]].
  - repeat (apply returns_bind; intros ?).
    destruct (negb (truthy _)) eqn:Hid; [apply returns_raise|].
    apply returns_ret. split; [frame_leaf|].
    intros _. split; [intros; discriminate|]. intros _.
    cbn. apply negb_false_iff in Hid. exact Hid.
Qed.

(** X10.  After a publish step the edge depends on the error alone: it
    leads to [END] exactly when the returned state carries an error that
    tests true.  A stale identifier left in the state cannot route a failed
    row onward, and a step that reports no error always holds an
    identifier that tests true. *)
Theorem X10_publish_edge_follows_the_error :
  forall (n : Node) (st st' : WorkflowState) (tr tr' : Trace),
    n = CreateInstagramPost \/ n = CreateFacebookPost ->
    node_fn n st tr = (Ok st', tr') ->
    (next_node n st' = END <-> opt_truthy (error st') = true) /\
    (opt_truthy (error st') = false ->
     next_node n st' =
       Goto (match n with
             | CreateInstagramPost => CreateFacebookPost
             | _ => ClearRow
             end)).
Proof.
  intros n st st' tr tr' Hn E.
  destruct (guarded_step_frame n st
              ltac:(destruct Hn; [right; left | right; right]; assumption)
              tr st' tr' E) as [_ Hid].
  destruct (opt_truthy (error st')) eqn:Herr.
  - split; [|intros; discriminate].
    split; [reflexivity|]. intros _.
    apply publish_failure_ends; [destruct Hn; subst; reflexivity | exact Herr].
  - destruct (Hid eq_refl) as [Hig Hfb].
    assert (Hgo : next_node n st' =
                  Goto (match n with
                        | CreateInstagramPost => CreateFacebookPost
                        | _ => ClearRow
                        end)).
    { destruct Hn as [-> | ->]; cbn [next_node];
        unfold decide_after_instagram, decide_after_facebook;
        rewrite Herr; [rewrite (Hig eq_refl) | rewrite (Hfb eq_refl)]; reflexivity. }
    split; [|intros _; exact Hgo].
    split; [intros Hend; rewrite Hgo in Hend; discriminate | intros; discriminate].
Qed.

(** X11.  A guarded step (caption, Instagram, Facebook) never changes the
    rows or the index, nor a result field that is not its own; when it
    returns with an error it has changed nothing but the error, and when it
    returns without one the error is absent. *)
Theorem X11_guarded_step_frame :
  forall (n : Node) (st st' : WorkflowState) (tr tr' : Trace),
    n = GenerateCaption \/ n = CreateInstagramPost \/ n = CreateFacebookPost ->
    node_fn n st tr = (Ok st', tr') ->
    step_frame n st st'.
Proof.
  intros n st st' tr tr' Hn E.
  exact (proj1 (guarded_step_frame n st Hn tr st' tr' E)).
Qed.


(* ===================================================================== *)
(** ** Invariants of runs                                                *)
(* ===================================================================== *)

Lemma filtered_rows_valid (values : list (list string)) :
  Forall valid_row (filtered_rows values).
Proof.
  apply Forall_forall. intros r Hin.
  apply in_filtered_rows in Hin.
  destruct Hin as [i [row [Hi [_ [Ha [Hb ->]]]]]].
  unfold valid_row. cbn. repeat split; try assumption. lia.
Qed.

Lemma clear_row_rows (st st' : WorkflowState) (tr tr' : Trace) :
  clear_row st tr = (Ok st', tr') -> rows st' = rows st.
Proof.
  intros E. destruct (exhausted st) eqn:Hex.
  - unfold clear_row in E. rewrite Hex in E. inversion E; subst. reflexivity.
  - exact (proj1 (clear_row_index st Hex tr st' tr' E)).
Qed.

(** A node keeps the rows, or is [filter_rows] storing a filtered table. *)
Lemma node_rows (n : Node) (st st' : WorkflowState) (tr tr' : Trace) :
  node_fn n st tr = (Ok st', tr') ->
  rows st' = rows st \/ exists values, rows st' = filtered_rows values.
Proof.
  intros E. destruct n; cbn [node_fn] in E.
  - destruct (filter_rows_outcome st tr)
      as [st1 [tr1 [E1 [_ [_ [_ [[_ [_ Hv]] | [msg [_ [Hr _]]]]]]]]]];
      rewrite E in E1; inversion E1; subst; auto.
  - left. apply (guarded_step_same_row GenerateCaption st) with (tr := tr) (tr' := tr');
      [tauto | exact E].
  - left. apply (guarded_step_same_row CreateInstagramPost st) with (tr := tr) (tr' := tr');
      [tauto | exact E].
  - left. apply (guarded_step_same_row CreateFacebookPost st) with (tr := tr) (tr' := tr');
      [tauto | exact E].
  - left. exact (clear_row_rows st st' tr tr' E).
Qed.

(** A property of states that every node preserves holds after every
    update of a run. *)
Lemma run_graph_states (P : WorkflowState -> Prop) :
  (forall n st tr st' tr', P st -> node_fn n st tr = (Ok st', tr') -> P st') ->
  forall limit n st tr,
    P st -> Forall (fun u => P (snd u)) (updates (run_graph limit n st tr)).
Proof.
  intros Hstep. induction limit as [|limit IH]; intros n st tr HP; [constructor|].
  cbn [run_graph].
  destruct (node_fn n st tr) as [[st'|e] tr'] eqn:E; [|constructor].
  pose proof (Hstep n st tr st' tr' HP E) as HP'.
  destruct (next_node n st') as [n'|]; cbn [updates].
  - constructor; [exact HP' | apply IH; exact HP'].
  - constructor; [exact HP' | constructor].
Qed.

(** X12.  Throughout every run the rows of the context satisfy the data
    model: each has a row number of at least 2 (a sheet row below the
    header), a non-empty prompt and a non-empty image address. *)
Theorem X12_rows_stay_valid :
  forall limit : nat,
    Forall (fun u => Forall valid_row (rows (snd u)))
           (updates (run_graph limit FilterRows initial_state [])).
Proof.
  intros limit.
  apply (run_graph_states (fun st => Forall valid_row (rows st))); [|constructor].
  intros n st tr st' tr' HP E.
  destruct (node_rows n st st' tr tr' E) as [-> | [values ->]];
    [exact HP | apply filtered_rows_valid].
Qed.

Lemma entry_ok_next (n n' : Node) (st st' : WorkflowState) (tr tr' : Trace) :
  entry_ok n st ->
  node_fn n st tr = (Ok st', tr') ->
  next_node n st' = Goto n' ->
  entry_ok n' st'.
Proof.
  intros [Hidx Hclear] E Enext.
  assert (Hstep : 0 <= current_row_index st' /\
                  (n = CreateFacebookPost -> same_row st st')).
  { destruct n; cbn [node_fn] in E.
    - split; [|discriminate].
      destruct (filter_rows_index st tr st' tr' E) as [-> | ->]; lia.
    - destruct (guarded_step_same_row GenerateCaption st
                  (or_introl eq_refl) tr st' tr' E) as [_ ->].
      split; [lia | discriminate].
    - destruct (guarded_step_same_row CreateInstagramPost st
                  (or_intror (or_introl eq_refl)) tr st' tr' E) as [_ ->].
      split; [lia | discriminate].
    - pose proof (guarded_step_same_row CreateFacebookPost st
                    (or_intror (or_intror eq_refl)) tr st' tr' E) as Hs.
      split; [destruct Hs as [_ ->]; lia | intros _; exact Hs].
    - destruct (clear_row_index st (Hclear eq_refl) tr st' tr' E) as [_ ->].
      split; [lia | discriminate]. }
  destruct Hstep as [Hidx' Hfb].
  split; [exact Hidx'|].
  intros ->. destruct (next_node_clear n st' Enext) as [-> Hok].
  destruct (Hfb eq_refl) as [Hrows Hi].
  rewrite (exhausted_ext st st' Hrows Hi).
  exact (facebook_success_in_bounds st st' tr tr' E Hok).
Qed.

Lemma entry_ok_returns (n : Node) (st : WorkflowState) (tr : Trace) :
  entry_ok n st -> exists st' tr', node_fn n st tr = (Ok st', tr').
Proof.
  intros [Hidx Hclear].
  destruct n; try (apply unclearing_step_returns; discriminate).
  cbn [node_fn].
  destruct (clear_row_in_bounds st tr) as [tr' E];
    [split; [exact Hidx | apply exhausted_false_iff; auto]|].
  eauto.
Qed.

Lemma run_graph_never_crashes (limit : nat) :
  forall n st tr,
    entry_ok n st -> never_crashed (status (run_graph limit n st tr)).
Proof.
  induction limit as [|limit IH]; intros n st tr Hok; [exact I|].
  cbn [run_graph].
  destruct (entry_ok_returns n st tr Hok) as [st' [tr' E]]. rewrite E.
  destruct (next_node n st') as [n'|] eqn:Enext; cbn [status];
    [|destruct limit; exact I].
  apply IH. exact (entry_ok_next n n' st st' tr tr' Hok E Enext).
Qed.

(** X13.  No run of the workflow ends on an exception: whatever the outside
    world answers and whatever the recursion limit, the run finishes or
    runs out of steps. *)
Theorem X13_run_never_crashes :
  forall limit : nat,
    never_crashed (status (run_graph limit FilterRows initial_state [])).
Proof.
  intros limit. apply run_graph_never_crashes.
  split; [cbn; lia | discriminate].
Qed.

Lemma next_node_successor (n n' : Node) (st : WorkflowState) :
  next_node n st = Goto n' -> n' = successor n.
Proof.
  destruct n; cbn [next_node successor];
    unfold decide_after_instagram, decide_after_facebook, decide_next_step;
    try destruct (_ && _); try destruct (exhausted st);
    intros E; inversion E; reflexivity.
Qed.

(** X14.  The nodes of every run are those of the pipeline in order:
    starting at the entry node, each update is followed by that of the next
    stage (caption, Instagram, Facebook, clear, then the caption of the next
    row); no stage is skipped or repeated. *)
Theorem X14_nodes_run_in_pipeline_order :
  forall (limit : nat) (n : Node) (st : WorkflowState) (tr : Trace),
    in_order n (map fst (updates (run_graph limit n st tr))).
Proof.
  induction limit as [|limit IH]; intros n st tr; [exact I|].
  cbn [run_graph].
  destruct (node_fn n st tr) as [[st'|e] tr']; [|exact I].
  destruct (next_node n st') as [n'|] eqn:Enext; cbn [updates map fst in_order].
  - split; [reflexivity|].
    rewrite <- (next_node_successor n n' st' Enext). apply IH.
  - split; [reflexivity | exact I].
Qed.


Lemma next_node_facebook (n : Node) (st : WorkflowState) :
  next_node n st = Goto CreateFacebookPost ->
  n = CreateInstagramPost /\ opt_truthy (error st) = false.
Proof.
  destruct n; cbn [next_node];
    unfold decide_after_instagram, decide_after_facebook, decide_next_step;
    intros E.
  - discriminate E.
  - discriminate E.
  - destruct (field_truthy _), (opt_truthy (error st));
      cbn [andb negb] in E; try discriminate E. auto.
  - destruct (_ && _); discriminate E.
  - destruct (exhausted st); discriminate E.
Qed.

Lemma run_graph_clears_follow_posts (limit : nat) :
  forall n st tr prev2 prev1,
    entry_ok n st ->
    posts_recorded n st prev2 prev1 ->
    clears_follow_posts prev2 prev1 (updates (run_graph limit n st tr)).
Proof.
  induction limit as [|limit IH]; intros n st tr prev2 prev1 Hok Hrec; [exact I|].
  cbn [run_graph].
  destruct (node_fn n st tr) as [[st'|e] tr'] eqn:E; [|exact I].
  assert (Hhead :
    n = ClearRow ->
    exists s1 s2,
      prev2 = Some (CreateInstagramPost, s1) /\
      prev1 = Some (CreateFacebookPost, s2) /\
      field_truthy (post_id s1) = true /\ error s1 = None /\
      field_truthy (post_id s2) = true /\
      field_truthy (facebook_post_id s2) = true /\ error s2 = None /\
      current_row_index s2 = current_row_index s1 /\
      current_row_index st' = current_row_index s2 + 1).
  { intros ->. destruct Hrec as [_ Hc].
    destruct (Hc eq_refl) as [s1 [H2 [H1 [Hp1 [He1 [Hp [Hf [He Hi]]]]]]]].
    exists s1, st. repeat split; try assumption.
    destruct Hok as [_ Hin].
    exact (proj2 (clear_row_index st (Hin eq_refl) tr st' tr' E)). }
  destruct (next_node n st') as [n'|] eqn:Enext; cbn [updates clears_follow_posts];
    (split; [exact Hhead|]); [|exact I].
  apply IH; [exact (entry_ok_next n n' st st' tr tr' Hok E Enext)|].
  split.
  - intros ->. destruct (next_node_facebook n st' Enext) as [-> Herr].
    destruct (guarded_step_frame CreateInstagramPost st
                (or_intror (or_introl eq_refl)) tr st' tr' E) as [Hf Hid].
    destruct Hf as [_ [_ [_ [_ [_ [_ Hnone]]]]]].
    split; [reflexivity|]. split; [exact (proj1 (Hid Herr) eq_refl) | exact (Hnone Herr)].
  - intros ->. destruct (next_node_clear n st' Enext) as [-> Herr].
    destruct Hrec as [Hfb _]. destruct (Hfb eq_refl) as [-> [Hp He]].
    destruct (guarded_step_frame CreateFacebookPost st
                (or_intror (or_intror eq_refl)) tr st' tr' E) as [Hf Hid].
    destruct Hf as [_ [Hi [_ [Hpost [_ [_ Hnone]]]]]].
    exists st. repeat split; try assumption.
    + rewrite (Hpost ltac:(discriminate)). exact Hp.
    + exact (proj2 (Hid Herr) eq_refl).
    + exact (Hnone Herr).
Qed.

(** X15.  A row is cleared only after both posts succeeded: in every run,
    each clear step comes right after the Instagram step and the Facebook
    step of the same row, both of which returned a truthy identifier and no
    error, and it moves the index to the next row. *)
Theorem X15_clear_only_after_both_posts :
  forall limit : nat,
    clears_follow_posts None None
      (updates (run_graph limit FilterRows initial_state [])).
Proof.
  intros limit. apply run_graph_clears_follow_posts.
  - split; [cbn; lia | discriminate].
  - split; discriminate.
Qed.

(* ===================================================================== *)
(** ** The error at the entry of a step                                  *)
(* ===================================================================== *)

(** [clear_row] returns with the error absent, or with the message of the
    exhausted rows. *)
Lemma clear_row_error (st : WorkflowState) :
  returns_with
    (fun st' => error st' = None \/ opt_truthy (error st') = true)
    (clear_row st).
Proof.
  unfold clear_row. destruct (exhausted st).
  - apply returns_ret. right. reflexivity.
  - apply returns_bind. intros outcome.
    apply returns_bind. intros _. apply returns_ret. left. reflexivity.
Qed.

(** Every update of a run is the result of one of its entries. *)
Lemma updates_have_entries (limit : nat) :
  forall n st tr n1 st1,
    In (n1, st1) (updates (run_graph limit n st tr)) ->
    exists st0 tr0 tr1,
      In (n1, st0, tr0) (entries limit n st tr) /\
      node_fn n1 st0 tr0 = (Ok st1, tr1).
Proof.
  induction limit as [|limit IH]; intros n st tr n1 st1 Hin; [destruct Hin|].
  cbn [run_graph entries] in *.
  destruct (node_fn n st tr) as [[st'|e] tr'] eqn:E; [|destruct Hin].
  destruct (next_node n st') as [n'|] eqn:Enext; cbn [updates] in Hin.
  - destruct Hin as [Heq | Hin].
    + inversion Heq; subst. exists st, tr, tr'. split; [left; reflexivity | exact E].
    + destruct (IH n' st' tr' n1 st1 Hin) as [st0 [tr0 [tr1 [Hin0 E0]]]].
      exists st0, tr0, tr1. split; [right; exact Hin0 | exact E0].
  - destruct Hin as [Heq | []].
    inversion Heq; subst. exists st, tr, tr'. split; [left; reflexivity | exact E].
Qed.

Lemma entry_error_next (n n' : Node) (st st' : WorkflowState) (tr tr' : Trace) :
  node_fn n st tr = (Ok st', tr') ->
  next_node n st' = Goto n' ->
  entry_error n' st'.
Proof.
  intros E Enext.
  assert (Herr : error st' = None \/ opt_truthy (error st') = true).
  { destruct n; cbn [node_fn] in E.
    - destruct (filter_rows_outcome st tr)
        as [st2 [tr2 [E2 [_ [_ [_ [[H _] | [msg [H _]]]]]]]]];
        rewrite E in E2; inversion E2; subst.
      + left. exact H.
      + right. rewrite H. reflexivity.
    - destruct (guarded_step_frame GenerateCaption st (or_introl eq_refl)
                  tr st' tr' E) as [[_ [_ [_ [_ [_ [_ H]]]]]] _].
      destruct (opt_truthy (error st')); auto.
    - destruct (guarded_step_frame CreateInstagramPost st
                  (or_intror (or_introl eq_refl)) tr st' tr' E)
        as [[_ [_ [_ [_ [_ [_ H]]]]]] _].
      destruct (opt_truthy (error st')); auto.
    - destruct (guarded_step_frame CreateFacebookPost st
                  (or_intror (or_intror eq_refl)) tr st' tr' E)
        as [[_ [_ [_ [_ [_ [_ H]]]]]] _].
      destruct (opt_truthy (error st')); auto.
    - exact (clear_row_error st tr st' tr' E). }
  split; [exact Herr|].
  intros [-> | [-> | ->]].
  - exfalso. exact (next_node_not_filter n FilterRows st' Enext eq_refl).
  - destruct (next_node_facebook n st' Enext) as [_ Hok].
    destruct Herr as [H | H]; [exact H | congruence].
  - destruct (next_node_clear n st' Enext) as [_ Hok].
    destruct Herr as [H | H]; [exact H | congruence].
Qed.

Lemma entries_entry_error (limit : nat) :
  forall n st tr,
    entry_error n st ->
    forall n1 st1 tr1,
      In (n1, st1, tr1) (entries limit n st tr) -> entry_error n1 st1.
Proof.
  induction limit as [|limit IH]; intros n st tr Hent n1 st1 tr1 Hin;
    [destruct Hin|].
  cbn [entries] in Hin. destruct Hin as [Heq | Hin].
  - inversion Heq; subst. exact Hent.
  - destruct (node_fn n st tr) as [[st'|e] tr'] eqn:E; [|destruct Hin].
    destruct (next_node n st') as [n'|] eqn:Enext; [|destruct Hin].
    apply (IH n' st' tr' (entry_error_next n n' st st' tr tr' E Enext) _ _ _ Hin).
Qed.

(** C8.  In every run from the initial state, in every world and under
    every limit, a step entered with an error that is not absent returns
    the same state and performs no effect: no field is modified, no call is
    made and the error keeps its value.  Such an entry occurs at
    [generate_caption] and [create_instagram_post] only, and the error then
    tests true: the runner never enters [filter_rows],
    [create_facebook_post] or [clear_row] with an error. *)
Theorem C8_step_entered_with_error_skips :
  forall (limit : nat) (n : Node) (st : WorkflowState) (tr : Trace),
    In (n, st, tr) (entries limit FilterRows initial_state []) ->
    error st <> None ->
    node_fn n st tr = (Ok st, tr) /\
    (n = GenerateCaption \/ n = CreateInstagramPost) /\
    opt_truthy (error st) = true.
Proof.
  intros limit n st tr Hin Herr.
  assert (Hinit : entry_error FilterRows initial_state).
  { split; [left; reflexivity | intros _; reflexivity]. }
  destruct (entries_entry_error limit FilterRows initial_state [] Hinit n st tr Hin)
    as [[Hnone | Htrue] Hnodes]; [congruence|].
  assert (Hn : n = GenerateCaption \/ n = CreateInstagramPost).
  { destruct n; auto; exfalso; apply Herr, Hnodes; auto. }
  split; [|split; [exact Hn | exact Htrue]].
  apply guarded_step_skips; [tauto | exact Htrue].
Qed.

(* ===================================================================== *)
(** ** Termination of runs                                               *)
(* ===================================================================== *)

(** One node of a run that returns. *)
Lemma run_graph_next (limit : nat) (n : Node) (st st' : WorkflowState) (tr tr' : Trace) :
  node_fn n st tr = (Ok st', tr') ->
  status (run_graph (S limit) n st tr) =
    match next_node n st' with
    | END => match limit with O => OutOfSteps | S _ => Finished end
    | Goto n' => status (run_graph limit n' st' tr')
    end.
Proof.
  intros E. cbn [run_graph]. rewrite E.
  destruct (next_node n st'); reflexivity.
Qed.

(** An exhausted state ends the run within two nodes of the caption step,
    normally when the limit is at least 3. *)
Lemma run_from_caption_exhausted (limit : nat) (st : WorkflowState) (tr : Trace) :
  exhausted st = true ->
  status (run_graph (S (S (S limit))) GenerateCaption st tr) = Finished.
Proof.
  intros Hex.
  destruct (opt_truthy (error st)) eqn:Herr.
  - rewrite (run_graph_next _ GenerateCaption st st tr tr)
      by (apply guarded_step_skips; auto).
    cbn [next_node].
    rewrite (run_graph_next _ CreateInstagramPost st st tr tr)
      by (apply guarded_step_skips; auto).
    cbn [next_node]. unfold decide_after_instagram. rewrite Herr, andb_false_r.
    reflexivity.
  - rewrite (run_graph_next _ GenerateCaption st
               (set_error st (Some "No more rows to process")) tr tr)
      by (apply exhausted_step; [discriminate | exact Hex | right; exact Herr]).
    cbn [next_node].
    rewrite (run_graph_next _ CreateInstagramPost
               (set_error st (Some "No more rows to process"))
               (set_error st (Some "No more rows to process")) tr tr)
      by (apply guarded_step_skips; auto).
    cbn [next_node]. unfold decide_after_instagram.
    cbn [set_error error opt_truthy]. rewrite andb_false_r. reflexivity.
Qed.

(** From the caption step, a run with [k] rows left finishes under a limit
    of [4 * k + 3]. *)
Lemma run_from_caption_finishes (k : nat) :
  forall (limit : nat) (st : WorkflowState) (tr : Trace),
    0 <= current_row_index st ->
    Z.of_nat (List.length (rows st)) - current_row_index st <= Z.of_nat k ->
    (4 * k + 3 <= limit)%nat ->
    status (run_graph limit GenerateCaption st tr) = Finished.
Proof.
  induction k as [|k IH]; intros limit st tr Hidx Hleft Hlimit.
  - destruct limit as [|[|[|limit]]]; try lia.
    apply run_from_caption_exhausted. unfold exhausted. apply Z.leb_le. lia.
  - destruct (exhausted st) eqn:Hex.
    { destruct limit as [|[|[|limit]]]; try lia.
      apply run_from_caption_exhausted. exact Hex. }
    destruct limit as [|[|[|[|limit]]]]; try lia.
    (* caption *)
    destruct (unclearing_step_returns GenerateCaption st ltac:(discriminate) tr)
      as [st1 [tr1 E1]].
    destruct (guarded_step_same_row GenerateCaption st (or_introl eq_refl)
                tr st1 tr1 E1) as [Hr1 Hi1].
    rewrite (run_graph_next _ _ _ _ _ _ E1). cbn [next_node].
    (* Instagram *)
    destruct (unclearing_step_returns CreateInstagramPost st1 ltac:(discriminate) tr1)
      as [st2 [tr2 E2]].
    destruct (guarded_step_same_row CreateInstagramPost st1
                (or_intror (or_introl eq_refl)) tr1 st2 tr2 E2) as [Hr2 Hi2].
    rewrite (run_graph_next _ _ _ _ _ _ E2).
    destruct (next_node CreateInstagramPost st2) as [n3|] eqn:N2; [|reflexivity].
    rewrite (next_node_successor _ _ _ N2). cbn [successor].
    (* Facebook *)
    destruct (unclearing_step_returns CreateFacebookPost st2 ltac:(discriminate) tr2)
      as [st3 [tr3 E3]].
    destruct (guarded_step_same_row CreateFacebookPost st2
                (or_intror (or_intror eq_refl)) tr2 st3 tr3 E3) as [Hr3 Hi3].
    rewrite (run_graph_next _ _ _ _ _ _ E3).
    destruct (next_node CreateFacebookPost st3) as [n4|] eqn:N3; [|reflexivity].
    rewrite (next_node_successor _ _ _ N3). cbn [successor].
    (* clear *)
    assert (Hin3 : 0 <= current_row_index st3 < Z.of_nat (List.length (rows st3))).
    { apply exhausted_false_iff in Hex. rewrite Hr3, Hr2, Hr1, Hi3, Hi2, Hi1. lia. }
    destruct (clear_row_in_bounds st3 tr3 Hin3) as [tr4 E4].
    rewrite (run_graph_next _ ClearRow _ _ _ _ E4).
    destruct (next_node ClearRow _) as [n5|] eqn:N4;
      [|destruct limit; [lia | reflexivity]].
    rewrite (next_node_successor _ _ _ N4). cbn [successor].
    apply IH; cbn [rows current_row_index]; try lia.
    rewrite Hr3, Hr2, Hr1, Hi3, Hi2, Hi1. lia.
Qed.

(** X16.  Every run terminates: with [m] rows in the context after
    [filter_rows], a recursion limit of [4 * m + 4] is enough for the run to
    end normally, whatever the outside world answers (a sheet without rows
    runs three nodes and needs a limit of 4); the limit of 100 of
    [run_workflow] covers 24 rows. *)
Theorem X16_run_finishes_within_limit :
  forall (limit : nat) (st' : WorkflowState) (tr' : Trace),
    filter_rows initial_state [] = (Ok st', tr') ->
    (4 * List.length (rows st') + 4 <= limit)%nat ->
    status (run_graph limit FilterRows initial_state []) = Finished.
Proof.
  intros limit st' tr' E Hlimit.
  destruct limit as [|limit]; [lia|].
  rewrite (run_graph_next _ FilterRows _ _ _ _ E). cbn [next_node].
  assert (Hidx : current_row_index st' = 0).
  { destruct (filter_rows_index initial_state [] st' tr' E) as [H | H]; exact H. }
  apply (run_from_caption_finishes (List.length (rows st'))); lia.
Qed.


(* ===================================================================== *)
(** ** Runs in a world that answers                                      *)
(* ===================================================================== *)

Lemma run_graph_goto (limit : nat) (n n' : Node) (st st' : WorkflowState)
    (tr tr' : Trace) :
  node_fn n st tr = (Ok st', tr') ->
  next_node n st' = Goto n' ->
  run_graph (S limit) n st tr =
    mkRun ((n, st') :: updates (run_graph limit n' st' tr'))
          (status (run_graph limit n' st' tr'))
          (final_state (run_graph limit n' st' tr'))
          (effects (run_graph limit n' st' tr')).
Proof. intros E N. cbn [run_graph]. rewrite E, N. reflexivity. Qed.

Lemma run_graph_end (limit : nat) (n : Node) (st st' : WorkflowState) (tr tr' : Trace) :
  node_fn n st tr = (Ok st', tr') ->
  next_node n st' = END ->
  run_graph (S limit) n st tr =
    mkRun [(n, st')] (match limit with O => OutOfSteps | S _ => Finished end)
          st' tr'.
Proof. intros E N. cbn [run_graph]. rewrite E, N. reflexivity. Qed.

(** An exhausted state without an error: the caption step reports it, the
    Instagram step is skipped and the run ends, with no effect; it ends
    normally when the limit left a step after the two nodes. *)
Lemma run_from_caption_no_rows (limit : nat) (st : WorkflowState) (tr : Trace) :
  exhausted st = true ->
  opt_truthy (error st) = false ->
  run_graph (S (S limit)) GenerateCaption st tr =
    mkRun [(GenerateCaption, set_error st (Some "No more rows to process"));
           (CreateInstagramPost, set_error st (Some "No more rows to process"))]
          (match limit with O => OutOfSteps | S _ => Finished end)
          (set_error st (Some "No more rows to process")) tr.
Proof.
  intros Hex Herr.
  rewrite (run_graph_goto _ GenerateCaption CreateInstagramPost st
             (set_error st (Some "No more rows to process")) tr tr);
    [|apply exhausted_step; [discriminate | exact Hex | right; exact Herr]
     |reflexivity].
  rewrite (run_graph_end _ CreateInstagramPost
             (set_error st (Some "No more rows to process"))
             (set_error st (Some "No more rows to process")) tr tr);
    [reflexivity | apply guarded_step_skips; auto |].
  cbn [next_node]. unfold decide_after_instagram.
  cbn [set_error error opt_truthy]. rewrite andb_false_r. reflexivity.
Qed.

(** X17.  A sheet without a qualifying row (no "values" entry, an empty
    table, a header alone, or only rows with a blank column) makes the run
    end after three nodes with the error "No more rows to process": nothing
    is asked of the model, nothing is posted and nothing is cleared.  The
    run ends normally under a limit of at least 4; under a limit of exactly
    3 the same three nodes run and the runner stops on its recursion
    error. *)
Theorem X17_sheet_without_rows_ends_the_run :
  forall (result : option (list (list string))) (limit : nat),
    sheets_service env [] = None ->
    values_get env (SPREADSHEET_ID cfg) (SHEET_NAME cfg ++ "!A1:DZ")%string
               [EvSheetsService] = Ok result ->
    filtered_rows (match result with Some v => v | None => [] end) = [] ->
    run_graph (S (S (S limit))) FilterRows initial_state [] =
      mkRun [(FilterRows, mkState [] 0 None None None None);
             (GenerateCaption,
              mkState [] 0 None None None (Some "No more rows to process"));
             (CreateInstagramPost,
              mkState [] 0 None None None (Some "No more rows to process"))]
            (match limit with O => OutOfSteps | S _ => Finished end)
            (mkState [] 0 None None None (Some "No more rows to process"))
            [EvSheetsService;
             EvValuesGet (SPREADSHEET_ID cfg) (SHEET_NAME cfg ++ "!A1:DZ")%string].
Proof.
  intros result limit Hs Hv Hnone.
  assert (E : filter_rows initial_state [] =
              (Ok (mkState [] 0 None None None None),
               [EvSheetsService;
                EvValuesGet (SPREADSHEET_ID cfg) (SHEET_NAME cfg ++ "!A1:DZ")%string])).
  { unfold filter_rows, get_sheets_service, max_retries, range.
    simpl. unfold_m. rewrite Hs. simpl. unfold execute_get. rewrite Hv.
    unfold set_error, set_current_row_index, set_rows. cbn. rewrite Hnone.
    reflexivity. }
  rewrite (run_graph_goto _ FilterRows GenerateCaption _ _ _ _ E eq_refl).
  rewrite run_from_caption_no_rows by reflexivity.
  reflexivity.
Qed.

Lemma handle_publish_truthy_id (st : WorkflowState) (attempt : Z) (r : Response)
    (body : list (string * json)) (id : json) (tr : Trace) :
  status_code r = 200 ->
  decoded r = Some (JDict body) ->
  assoc "id" body = Some id ->
  truthy id = true ->
  handle_publish_response st attempt r tr =
    (Ok (Return (set_error (set_post_id st (Some id)) None)), tr).
Proof.
  intros Hs Hd Hid Ht. unfold handle_publish_response. rewrite Hs. simpl.
  unfold response_json. rewrite Hd.
  unfold dict_get, dict_get_default. unfold_m. rewrite Hid, Ht. reflexivity.
Qed.

Lemma caption_step_answers (st : WorkflowState) (tr : Trace) (row : Row) :
  model_always_answers ->
  opt_truthy (error st) = false ->
  at_row st row ->
  exists c tr',
    generate_caption st tr = (Ok (set_error (set_caption st (Some c)) None), tr').
Proof.
  intros Hm Herr Hrow. unfold generate_caption.
  rewrite Herr, (at_row_not_exhausted st row Hrow).
  unfold try_except, bind. rewrite (current_row_of_at_row st row tr Hrow).
  unfold invoke.
  destruct (Hm "gemini-2.5-flash" (GEMINI_API_KEY cfg)
               (caption_prompt (prompt row)) tr) as [content ->].
  eexists. eexists. reflexivity.
Qed.

Lemma instagram_step_succeeds (st : WorkflowState) (tr : Trace) (row : Row) (c : string) :
  posts_always_succeed ->
  opt_truthy (error st) = false ->
  at_row st row ->
  caption st = Some c ->
  exists st' tr',
    create_instagram_post st tr = (Ok st', tr') /\ opt_truthy (error st') = false.
Proof.
  intros Hp Herr Hrow Hcap.
  rewrite (instagram_step_on_answer st tr row c Herr Hrow Hcap).
  change (range max_retries) with [0; 1; 2; 3; 4].
  unfold try_except, bind, post.
  destruct (Hp (create_media_url cfg) (media_payload cfg row c) tr)
    as [r [body [id [-> [Hs [Hd [Hid Ht]]]]]]].
  unfold raise_for_status. rewrite Hs. cbn [Z.leb Z.ltb Z.compare Pos.compare
    Pos.compare_cont andb ret].
  unfold response_json. rewrite Hd. cbn [or_raise ret].
  unfold dict_get, dict_get_default, ret. rewrite Hid, Ht. cbn [negb].
  cbn [publish_with_retries]. unfold bind, post.
  destruct (Hp (publish_url cfg) (publish_payload cfg id)
              (tr ++ [EvPost (create_media_url cfg) (media_payload cfg row c)]))
    as [r2 [body2 [id2 [-> [Hs2 [Hd2 [Hid2 Ht2]]]]]]].
  rewrite (handle_publish_truthy_id st 0 r2 body2 id2 _ Hs2 Hd2 Hid2 Ht2).
  eexists. eexists. split; reflexivity.
Qed.

Lemma facebook_step_succeeds (st : WorkflowState) (tr : Trace) (row : Row) (c : string) :
  posts_always_succeed ->
  opt_truthy (error st) = false ->
  at_row st row ->
  caption st = Some c ->
  exists st' tr',
    create_facebook_post st tr = (Ok st', tr') /\ opt_truthy (error st') = false.
Proof.
  intros Hp Herr Hrow Hcap.
  rewrite (facebook_step_on_answer st tr row c Herr Hrow Hcap).
  unfold try_except, bind, post.
  destruct (Hp facebook_url (facebook_payload cfg row c) tr)
    as [r [body [id [-> [Hs [Hd [Hid Ht]]]]]]].
  unfold raise_for_status. rewrite Hs. cbn [Z.leb Z.ltb Z.compare Pos.compare
    Pos.compare_cont andb ret].
  unfold response_json. rewrite Hd. cbn [or_raise ret].
  unfold dict_get, dict_get_default, ret. rewrite Hid, Ht. cbn [negb].
  eexists. eexists. split; reflexivity.
Qed.

Lemma at_row_ext (st st' : WorkflowState) (row : Row) :
  same_row st st' -> at_row st row -> at_row st' row.
Proof. intros [Hr Hi] H. unfold at_row in *. rewrite Hr, Hi. exact H. Qed.

(** With rows left and a world that answers, the run posts and clears
    every remaining row. *)
Lemma run_from_caption_clears_all (Hm : model_always_answers)
    (Hp : posts_always_succeed) (k : nat) :
  forall (limit : nat) (st : WorkflowState) (tr : Trace),
    opt_truthy (error st) = false ->
    0 <= current_row_index st ->
    Z.of_nat (List.length (rows st)) - current_row_index st = Z.of_nat (S k) ->
    (4 * S k + 1 <= limit)%nat ->
    status (run_graph limit GenerateCaption st tr) = Finished /\
    final_state (run_graph limit GenerateCaption st tr) =
      mkState (rows st) (Z.of_nat (List.length (rows st))) None None None None /\
    completed_rows (updates (run_graph limit GenerateCaption st tr)) = S k.
Proof.
  induction k as [|k IH]; intros limit st tr Herr Hidx Hleft Hlimit;
    (destruct limit as [|[|[|[|limit]]]]; [lia | lia | lia | lia |]);
    (assert (Hin : 0 <= current_row_index st < Z.of_nat (List.length (rows st))) by lia);
    (destruct (getitem_in_bounds (rows st) _ Hin) as [row0 _]);
    (destruct (nth_error (rows st) (Z.to_nat (current_row_index st))) as [row|] eqn:Hrow;
     [|apply nth_error_None in Hrow; lia]);
    (assert (Hat : at_row st row) by (split; assumption));
    (destruct (caption_step_answers st tr row Hm Herr Hat) as [c [tr1 E1]]);
    (set (st1 := set_error (set_caption st (Some c)) None) in *);
    (assert (Hat1 : at_row st1 row) by exact Hat);
    (destruct (instagram_step_succeeds st1 tr1 row c Hp eq_refl Hat1 eq_refl)
       as [st2 [tr2 [E2 Herr2]]]);
    (destruct (guarded_step_frame CreateInstagramPost st1
                 (or_intror (or_introl eq_refl)) tr1 st2 tr2 E2) as [Hf2 Hid2]);
    (destruct Hf2 as [Hr2 [Hi2 [Hc2 _]]]);
    (assert (Hat2 : at_row st2 row) by (apply (at_row_ext st1); [split|]; assumption));
    (assert (Hcap2 : caption st2 = Some c) by (rewrite Hc2; [reflexivity | discriminate]));
    (destruct (facebook_step_succeeds st2 tr2 row c Hp Herr2 Hat2 Hcap2)
       as [st3 [tr3 [E3 Herr3]]]);
    (destruct (guarded_step_frame CreateFacebookPost st2
                 (or_intror (or_intror eq_refl)) tr2 st3 tr3 E3) as [Hf3 Hid3]);
    (destruct Hf3 as [Hr3 [Hi3 _]]);
    (assert (Hin3 : 0 <= current_row_index st3 < Z.of_nat (List.length (rows st3)))
       by (rewrite Hr3, Hr2, Hi3, Hi2; exact Hin));
    (destruct (clear_row_in_bounds st3 tr3 Hin3) as [tr4 E4]);
    (assert (Hrows3 : rows st3 = rows st) by (rewrite Hr3, Hr2; reflexivity));
    (assert (Hidx3 : current_row_index st3 = current_row_index st)
       by (rewrite Hi3, Hi2; reflexivity));
    rewrite Hrows3, Hidx3 in E4;
    (set (st4 := mkState (rows st) (current_row_index st + 1) None None None None) in *);
    rewrite (run_graph_goto _ GenerateCaption CreateInstagramPost st st1 tr tr1 E1 eq_refl);
    rewrite (run_graph_goto _ CreateInstagramPost CreateFacebookPost st1 st2 tr1 tr2 E2)
      by (cbn [next_node]; unfold decide_after_instagram;
          rewrite Herr2, (proj1 (Hid2 Herr2) eq_refl); reflexivity);
    rewrite (run_graph_goto _ CreateFacebookPost ClearRow st2 st3 tr2 tr3 E3)
      by (cbn [next_node]; unfold decide_after_facebook;
          rewrite Herr3, (proj2 (Hid3 Herr3) eq_refl); reflexivity).
  - destruct limit as [|limit]; [lia|].
    rewrite (run_graph_end _ ClearRow st3 st4 tr3 tr4 E4)
      by (cbn [next_node]; unfold decide_next_step, exhausted;
          cbn [st4 rows current_row_index];
          replace (Z.of_nat (List.length (rows st)) <=? current_row_index st + 1)
            with true by (symmetry; apply Z.leb_le; lia);
          reflexivity).
    cbn [status final_state updates]. split; [reflexivity|].
    split; [unfold st4; f_equal; lia | reflexivity].
  - rewrite (run_graph_goto _ ClearRow GenerateCaption st3 st4 tr3 tr4 E4)
      by (cbn [next_node]; unfold decide_next_step, exhausted;
          cbn [st4 rows current_row_index];
          replace (Z.of_nat (List.length (rows st)) <=? current_row_index st + 1)
            with false by (symmetry; apply Z.leb_gt; lia);
          reflexivity).
    cbn [status final_state updates].
    destruct (IH limit st4 tr4) as [Hst [Hfin Hcount]];
      [reflexivity | cbn; lia | cbn; lia | lia |].
    rewrite !completed_rows_cons, Hst, Hfin, Hcount. cbn [is_clear_row st4 rows].
    repeat split.
Qed.

(** X18.  In a world where the sheet is read, the model answers and every
    POST returns an identifier, one run drains the sheet: given a recursion
    limit of at least [4 * m + 3] for [m] qualifying rows, it finishes with
    every row posted to both platforms and put through the clear step, the
    index at [m] and no error left, whether or not the clear calls
    succeed. *)
Theorem X18_cooperative_run_drains_the_sheet :
  forall (values : list (list string)) (limit : nat),
    sheets_service env [] = None ->
    values_get env (SPREADSHEET_ID cfg) (SHEET_NAME cfg ++ "!A1:DZ")%string
               [EvSheetsService] = Ok (Some values) ->
    filtered_rows values <> [] ->
    model_always_answers ->
    posts_always_succeed ->
    (4 * List.length (filtered_rows values) + 3 <= limit)%nat ->
    status (run_graph limit FilterRows initial_state []) = Finished /\
    final_state (run_graph limit FilterRows initial_state []) =
      mkState (filtered_rows values)
              (Z.of_nat (List.length (filtered_rows values))) None None None None /\
    completed_rows (updates (run_graph limit FilterRows initial_state [])) =
      List.length (filtered_rows values).
Proof.
  intros values limit Hs Hv Hrows Hm Hp Hlimit.
  pose proof (filter_rows_fetched initial_state [] values Hs Hv) as E.
  cbn [app initial_state caption post_id facebook_post_id] in E.
  destruct limit as [|limit]; [lia|].
  rewrite (run_graph_goto _ FilterRows GenerateCaption _ _ _ _ E eq_refl).
  cbn [status final_state updates]. rewrite completed_rows_cons. cbn [is_clear_row].
  destruct (List.length (filtered_rows values)) as [|k] eqn:Hlen.
  { destruct (filtered_rows values); [congruence | discriminate Hlen]. }
  destruct (run_from_caption_clears_all Hm Hp k limit
              (mkState (filtered_rows values) 0 None None None None)
              [EvSheetsService;
               EvValuesGet (SPREADSHEET_ID cfg) (SHEET_NAME cfg ++ "!A1:DZ")%string])
    as [Hst [Hfin Hcount]]; cbn [rows current_row_index error opt_truthy];
    try reflexivity; try lia.
  rewrite Hst, Hfin, Hcount. cbn [rows]. rewrite Hlen. repeat split.
Qed.


(* ===================================================================== *)
(** ** The settings check                                                *)
(* ===================================================================== *)

Lemma missing_vars_spec (getenv : string -> option string) (var : string) :
  In var (missing_vars getenv) <->
  In var required_vars /\ (getenv var = None \/ getenv var = Some "").
Proof.
  unfold missing_vars. rewrite filter_In.
  split; intros [Hin H]; (split; [exact Hin|]).
  - apply negb_true_iff in H. destruct (getenv var) as [s|]; [|auto].
    right. cbn in H. unfold str_truthy in H. apply negb_false_iff in H.
    apply String.eqb_eq in H. subst. reflexivity.
  - destruct H as [-> | ->]; reflexivity.
Qed.

(** X19.  The start-up check passes exactly when each of the eight required
    variables is set to a non-empty value; a variable set to the empty
    string counts as missing.  Otherwise it raises, and the variables named
    as missing are exactly the required ones that are unset or empty. *)
Theorem X19_settings_check :
  forall getenv : string -> option string,
    (check_required_vars getenv = Ok tt <->
     forall var, In var required_vars ->
                 exists s, getenv var = Some s /\ s <> "") /\
    (forall var,
        In var (missing_vars getenv) <->
        In var required_vars /\ (getenv var = None \/ getenv var = Some "")) /\
    (check_required_vars getenv <> Ok tt ->
     check_required_vars getenv =
       Raise (Exception ("Missing required environment variables: "
                         ++ String.concat ", " (missing_vars getenv))%string)).
Proof.
  intros getenv. split; [|split].
  - unfold check_required_vars. split.
    + intros Hok var Hin.
      destruct (missing_vars getenv) as [|m ms] eqn:Hm; [|discriminate Hok].
      destruct (getenv var) as [s|] eqn:Hv.
      * exists s. split; [reflexivity|]. intros ->.
        assert (Hmiss : In var (missing_vars getenv))
          by (apply missing_vars_spec; auto).
        rewrite Hm in Hmiss. destruct Hmiss.
      * assert (Hmiss : In var (missing_vars getenv))
          by (apply missing_vars_spec; auto).
        rewrite Hm in Hmiss. destruct Hmiss.
    + intros Hall.
      destruct (missing_vars getenv) as [|m ms] eqn:Hm; [reflexivity|].
      assert (Hmiss : In m (missing_vars getenv)) by (rewrite Hm; left; reflexivity).
      apply missing_vars_spec in Hmiss. destruct Hmiss as [Hin Hbad].
      destruct (Hall m Hin) as [s [Hs Hne]].
      destruct Hbad as [Hb | Hb]; rewrite Hb in Hs; [discriminate|].
      inversion Hs; subst. congruence.
  - apply missing_vars_spec.
  - unfold check_required_vars.
    destruct (missing_vars getenv); [congruence | reflexivity].
Qed.

(* ===================================================================== *)
(** ** The effects a node may perform                                    *)
(* ===================================================================== *)

Lemma effects_ret (P : Event -> Prop) {A : Type} (a : A) : effects_in P (ret a).
Proof.
  intros tr r tr' E. inversion E; subst. exists []. rewrite app_nil_r. auto.
Qed.

Lemma effects_raise (P : Event -> Prop) {A : Type} (e : exn) :
  effects_in P (@raise A e).
Proof.
  intros tr r tr' E. inversion E; subst. exists []. rewrite app_nil_r. auto.
Qed.

Lemma effects_bind (P : Event -> Prop) {A B : Type} (m : M A) (k : A -> M B) :
  effects_in P m -> (forall a, effects_in P (k a)) -> effects_in P (bind m k).
Proof.
  intros Hm Hk tr r tr' E. unfold bind in E.
  destruct (m tr) as [[a|e] tr1] eqn:Em;
    destruct (Hm tr _ tr1 Em) as [evs1 [-> H1]].
  - destruct (Hk a _ _ _ E) as [evs2 [-> H2]].
    exists (evs1 ++ evs2). rewrite app_assoc. split; [reflexivity|].
    apply Forall_app. auto.
  - inversion E; subst. exists evs1. auto.
Qed.

Lemma effects_try (P : Event -> Prop) {A : Type} (body : M A) (handler : exn -> M A) :
  effects_in P body -> (forall e, effects_in P (handler e)) ->
  effects_in P (try_except body handler).
Proof.
  intros Hb Hh tr r tr' E. unfold try_except in E.
  destruct (body tr) as [[a|e] tr1] eqn:Eb;
    destruct (Hb tr _ tr1 Eb) as [evs1 [-> H1]].
  - inversion E; subst. exists evs1. auto.
  - destruct (Hh e _ _ _ E) as [evs2 [-> H2]].
    exists (evs1 ++ evs2). rewrite app_assoc. split; [reflexivity|].
    apply Forall_app. auto.
Qed.

Lemma effects_one (P : Event -> Prop) {A : Type} (f : Trace -> Result A) (ev : Event) :
  P ev -> effects_in P (fun tr => (f tr, tr ++ [ev])).
Proof.
  intros Hev tr r tr' E. inversion E; subst. exists [ev]. auto.
Qed.

Lemma effects_or_raise (P : Event -> Prop) {A : Type} (o : option A) (e : exn) :
  effects_in P (or_raise o e).
Proof. destruct o; [apply effects_ret | apply effects_raise]. Qed.

Lemma effects_dict_get_default (P : Event -> Prop) (d : json) (key : string) (dflt : json) :
  effects_in P (dict_get_default d key dflt).
Proof. destruct d; simpl; first [apply effects_ret | apply effects_raise]. Qed.

Lemma effects_raise_for_status (P : Event -> Prop) (r : Response) :
  effects_in P (raise_for_status r).
Proof.
  unfold raise_for_status.
  destruct (_ && _); [apply effects_raise | apply effects_ret].
Qed.

Lemma effects_sleep (P : Event -> Prop) (seconds : Z) :
  P (EvSleep seconds) -> effects_in P (sleep seconds).
Proof. intros H. unfold sleep. apply effects_one. exact H. Qed.

Ltac effects_quiet :=
  repeat first
    [ apply effects_ret | apply effects_raise | apply effects_or_raise
    | apply effects_dict_get_default | apply effects_raise_for_status
    | match goal with
      | |- effects_in _ (bind _ _) => apply effects_bind; [|intros ?]
      | |- effects_in _ (if ?b then _ else _) => destruct b
      | |- effects_in _ (match ?x with _ => _ end) => destruct x
      end ].

Lemma effects_get_with_retries (P : Event -> Prop) (range_name : string) :
  P (EvValuesGet (SPREADSHEET_ID cfg) range_name) ->
  (forall s, P (EvSleep s)) ->
  forall attempts, effects_in P (get_with_retries range_name attempts).
Proof.
  intros Hget Hsleep. induction attempts as [|a rest IH].
  - simpl. apply effects_raise.
  - cbn [get_with_retries]. unfold execute_get.
    apply effects_try; [apply effects_one; exact Hget|].
    intros e. destruct e as [status msg| |]; try apply effects_raise.
    destruct (sheets_retryable status); [|apply effects_raise].
    apply effects_bind; [apply effects_sleep, Hsleep | intros _; exact IH].
Qed.

Lemma effects_clear_with_retries (P : Event -> Prop) (range_name : string) :
  P (EvValuesClear (SPREADSHEET_ID cfg) range_name) ->
  (forall s, P (EvSleep s)) ->
  forall attempts, effects_in P (clear_with_retries range_name attempts).
Proof.
  intros Hclear Hsleep. induction attempts as [|a rest IH].
  - simpl. apply effects_raise.
  - cbn [clear_with_retries]. unfold execute_clear.
    apply effects_try; [apply effects_one; exact Hclear|].
    intros e. destruct e as [status msg| |]; try apply effects_raise.
    destruct (sheets_retryable status); [|apply effects_raise].
    apply effects_bind; [apply effects_sleep, Hsleep | intros _; exact IH].
Qed.

Lemma effects_handle_publish_response (P : Event -> Prop) (st : WorkflowState)
    (attempt : Z) (r : Response) :
  (forall s, P (EvSleep s)) ->
  effects_in P (handle_publish_response st attempt r).
Proof.
  intros Hsleep. unfold handle_publish_response, response_json, dict_get.
  destruct (status_code r =? 200); [effects_quiet|].
  do 5 (apply effects_bind; [effects_quiet | intros ?]).
  destruct (_ && _); [|effects_quiet].
  apply effects_bind; [apply effects_sleep, Hsleep | intros _; apply effects_ret].
Qed.

Lemma effects_publish_with_retries (P : Event -> Prop) (st : WorkflowState)
    (payload : list (string * json)) :
  P (EvPost (publish_url cfg) payload) ->
  (forall s, P (EvSleep s)) ->
  forall attempts last,
    effects_in P (publish_with_retries st payload attempts last).
Proof.
  intros Hpost Hsleep. induction attempts as [|a rest IH]; intros last.
  - simpl. destruct last; apply effects_raise.
  - cbn [publish_with_retries]. unfold post.
    apply effects_bind; [apply effects_one; exact Hpost | intros r].
    apply effects_bind; [apply effects_handle_publish_response, Hsleep|].
    intros [st'|]; [apply effects_ret | apply IH].
Qed.

Lemma effects_bind_ret (P : Event -> Prop) {A B : Type} (a : A) (k : A -> M B) :
  effects_in P (k a) -> effects_in P (bind (ret a) k).
Proof. intros Hk tr r tr' E. exact (Hk tr r tr' E). Qed.

Lemma effects_bind_raise (P : Event -> Prop) {A B : Type} (e : exn) (k : A -> M B) :
  effects_in P (bind (@raise A e) k).
Proof.
  intros tr r tr' E. inversion E; subst. exists []. rewrite app_nil_r. auto.
Qed.

(** X20.  Each node acts on its own target only.  [filter_rows] builds the
    client, reads the fixed range [A1:DZ] and sleeps; the caption step asks
    the model about the current row's prompt; the publish steps post the
    current row's image and caption (the Instagram step also its publish
    requests and sleeps); the clear step builds the client, clears the
    range of the current row's number and sleeps.  No node performs any
    other effect, whatever the outside world answers. *)
Theorem X20_node_effects_are_confined :
  forall (n : Node) (st : WorkflowState) (tr : Trace)
         (r : Result WorkflowState) (tr' : Trace),
    node_fn n st tr = (r, tr') ->
    exists evs, tr' = tr ++ evs /\ Forall (allowed_effect n st) evs.
Proof.
  intros n st tr r tr'. revert tr r tr'.
  change (effects_in (allowed_effect n st) (node_fn n st)).
  destruct n; cbn [node_fn].
  - unfold filter_rows, get_sheets_service.
    apply effects_try; [|intros e; destruct e; apply effects_ret].
    apply effects_bind; [apply effects_one; cbn; auto | intros _].
    apply effects_bind; [|intros result; apply effects_ret].
    apply effects_get_with_retries; cbn; [auto|].
    intros s. right. right. exists s. reflexivity.
  - unfold generate_caption.
    destruct (opt_truthy _); [apply effects_ret|].
    destruct (exhausted _); [apply effects_ret|].
    apply effects_try; [|intros e; apply effects_ret].
    unfold current_row_of.
    destruct (getitem (rows st) (current_row_index st)) as [row|] eqn:Hrow;
      cbn [or_raise]; [apply effects_bind_ret | apply effects_bind_raise].
    unfold invoke.
    apply effects_bind; [|intros c; apply effects_ret].
    apply effects_one. exists row. split; [exact Hrow | reflexivity].
  - unfold create_instagram_post.
    destruct (opt_truthy _); [apply effects_ret|].
    destruct (exhausted _); [apply effects_ret|].
    apply effects_try; [|intros e; apply effects_ret].
    unfold current_row_of.
    destruct (getitem (rows st) (current_row_index st)) as [row|] eqn:Hrow;
      cbn [or_raise]; [apply effects_bind_ret | apply effects_bind_raise].
    destruct (caption st) as [c|] eqn:Hcap; cbn [subscript_optional];
      [apply effects_bind_ret | apply effects_bind_raise].
    unfold post, response_json, dict_get.
    apply effects_bind.
    { apply effects_one. exists row, c. repeat split; auto. }
    intros response.
    do 3 (apply effects_bind; [effects_quiet | intros ?]).
    destruct (negb _); [apply effects_raise|].
    apply effects_publish_with_retries.
    + exists row, c. repeat split; auto. right. left. eexists. reflexivity.
    + intros s. exists row, c. repeat split; auto. right. right. exists s. reflexivity.
  - unfold create_facebook_post.
    destruct (opt_truthy _); [apply effects_ret|].
    destruct (exhausted _); [apply effects_ret|].
    apply effects_try; [|intros e; destruct e; apply effects_ret].
    unfold current_row_of.
    destruct (getitem (rows st) (current_row_index st)) as [row|] eqn:Hrow;
      cbn [or_raise]; [apply effects_bind_ret | apply effects_bind_raise].
    destruct (caption st) as [c|] eqn:Hcap; cbn [subscript_optional];
      [apply effects_bind_ret | apply effects_bind_raise].
    unfold post, response_json, dict_get.
    apply effects_bind.
    { apply effects_one. exists row, c. repeat split; auto. }
    intros response. effects_quiet.
  - unfold clear_row.
    destruct (exhausted _); [apply effects_ret|].
    apply effects_bind; [|intros outcome; effects_quiet].
    unfold try_clear.
    apply effects_try; [|intros e; apply effects_ret].
    destruct (getitem (rows st) (current_row_index st)) as [row|] eqn:Hrow;
      cbn [or_raise]; [apply effects_bind_ret | apply effects_bind_raise].
    unfold get_sheets_service.
    apply effects_bind.
    { apply effects_one. exists row. split; [exact Hrow | left; reflexivity]. }
    intros _. apply effects_bind; [|intros _; apply effects_ret].
    apply effects_clear_with_retries.
    + exists row. split; [exact Hrow | right; left; reflexivity].
    + intros s. exists row. split; [exact Hrow|]. right. right. exists s. reflexivity.
Qed.

(** X21.  The clear step entered with an index below [- len(rows)] lets an
    exception out of the node: the subscript raises, the handler records
    it, and the warning logged on the failed clear then reads the local
    that was never assigned.  No call to the sheet is made. *)
Theorem X21_clear_row_below_range_raises :
  forall (st : WorkflowState) (tr : Trace),
    current_row_index st < - Z.of_nat (List.length (rows st)) ->
    exists e, clear_row st tr = (Raise e, tr).
Proof.
  intros st tr Hlow. unfold clear_row.
  replace (exhausted st) with false
    by (symmetry; apply exhausted_false_iff; lia).
  unfold getitem.
  replace (0 <=? current_row_index st) with false by (symmetry; apply Z.leb_gt; lia).
  replace (- Z.of_nat (List.length (rows st)) <=? current_row_index st) with false
    by (symmetry; apply Z.leb_gt; lia).
  cbn [andb]. unfold try_clear. unfold_m. eexists. reflexivity.
Qed.


End Nodes.

(* ===================================================================== *)
(** ** The scenarios                                                     *)
(* ===================================================================== *)

Import Scenario.

(** The row after a failed Instagram post is not processed: with two rows
    in the sheet and the container creation refused, the run ends after the
    Instagram step of the first row, and [generate_caption] never runs on
    the second. *)
Lemma C1_later_row_not_processed :
  ~ later_rows_processed (run_workflow cfg rt instagram_down).
Proof.
  intros H.
  destruct (H 0) as [st [Hin Hidx]].
  - exists CreateInstagramPost, (final_state (run_workflow cfg rt instagram_down)).
    split; [vm_compute; right; right; left; reflexivity|].
    repeat split; vm_compute; reflexivity.
  - vm_compute. reflexivity.
  - vm_compute in Hin.
    destruct Hin as [E | [E | [E | []]]]; try discriminate E.
    inversion E; subst. discriminate Hidx.
Qed.

(** The refused container creation on the first of two rows, as an instance
    of the theorem. *)
Lemma C1_instagram_refused_ends_run :
  exists st' tr',
    node_fn cfg rt instagram_down CreateInstagramPost at_first_row [] = (Ok st', tr') /\
    opt_truthy (error st') = true /\
    run_graph cfg rt instagram_down recursion_limit CreateInstagramPost at_first_row []
      = mkRun [(CreateInstagramPost, st')] Finished st' tr' /\
    rows st' = two_rows /\
    current_row_index st' = 0.
Proof.
  eexists. eexists.
  split; [vm_compute; reflexivity|].
  split; [vm_compute; reflexivity|].
  destruct (C1_publish_failure_ends_the_run cfg rt instagram_down
              CreateInstagramPost at_first_row
              (set_error at_first_row
                 (Some "Error creating Instagram post: 400 Client Error"))
              []
              [EvPost (create_media_url cfg)
                      (media_payload cfg (mkRow 2 "desc1" "http://a") "A caption #tag")]
              99)
    as [Hrun [Hrows [Hidx _]]].
  - left. reflexivity.
  - vm_compute. reflexivity.
  - vm_compute. reflexivity.
  - split; [exact Hrun|]. split; [exact Hrows | exact Hidx].
Defined.

(** The scenario table read at the third attempt, after two answers 503. *)
Lemma C2_scenario_table_read_after_retries :
  exists tr' st',
    get_with_retries cfg flaky "Sheet1!A1:DZ" (range max_retries) [EvSheetsService]
      = (Ok (Some scenario_table), tr') /\
    seen is_get tr' = 3%nat /\
    filter_rows cfg flaky initial_state [] = (Ok st', tr') /\
    rows st' = filtered_rows scenario_table /\
    current_row_index st' = 0 /\
    error st' = None /\
    rows_at_raw_index scenario_table (rows st') /\
    increasing (map row_number (rows st')) /\
    filtered_rows scenario_table
      = [mkRow 2 "desc1" "http://a"; mkRow 4 "desc3" "http://c"].
Proof.
  eexists.
  destruct (C2_filter_rows_numbers_rows_from_two cfg flaky initial_state []
              _ (Some scenario_table) eq_refl
              ltac:(vm_compute; reflexivity)) as [st' H].
  exists st'. split; [vm_compute; reflexivity|].
  split; [vm_compute; reflexivity | exact H].
Defined.

(** The clear step on the first of two rows while every clear call fails. *)
Lemma C3_clear_fails_yet_advances :
  exists st' tr',
    clear_row cfg busy posted_first_row [] = (Ok st', tr') /\
    current_row_index st' = 0 + 1 /\
    rows st' = two_rows /\
    caption st' = None /\ post_id st' = None /\ facebook_post_id st' = None /\
    error st' = None /\
    (0 + 1 < 2 -> next_node ClearRow st' = Goto GenerateCaption).
Proof.
  apply (C3_clear_row_advances_and_resets cfg busy posted_first_row []).
  simpl. lia.
Defined.

(** The publish loop against an endpoint that is never ready. *)
Lemma C4_publish_never_ready :
  exists e evs,
    retry_loop cfg rt busy
      (InstagramPublish at_first_row (publish_payload cfg (JStr "17"))) []
      = (Raise e, [] ++ evs) /\
    max_retries_failure
      (InstagramPublish at_first_row (publish_payload cfg (JStr "17"))) e /\
    attempts_of evs = 5%nat /\
    sleeps_of evs = [1; 2; 4; 8; 16] /\
    increasing (sleeps_of evs) /\
    sleeps_between false evs = 4%nat.
Proof.
  apply (C4_backoff_schedule cfg rt busy
           (InstagramPublish at_first_row (publish_payload cfg (JStr "17"))) []).
  intros h. exists not_ready.
  split; [reflexivity|]. split; [simpl; lia | reflexivity].
Defined.

(** Under status 200 the pair does not put the pass on the back-off path,
    and a redirect without the pair is not fatal. *)
Lemma C5_pair_under_200_and_redirect :
  ~ (backs_off rt at_first_row 0 not_ready_but_200 [] <->
     carries_pair not_ready_but_200 = true) /\
  (carries_pair redirect = false /\
   ~ (200 <= status_code redirect < 300) /\
   ~ fatal rt at_first_row 0 redirect []).
Proof.
  split.
  - intros [_ H]. specialize (H eq_refl). vm_compute in H. discriminate H.
  - split; [reflexivity|]. split; [simpl; lia|].
    intros [e H]. vm_compute in H. discriminate H.
Qed.

(** A refused publish (400 without the pair) is fatal at once. *)
Lemma C5_bad_request_is_fatal :
  fatal rt at_first_row 0 bad_request [] /\
  (backs_off rt at_first_row 0 not_ready [] <-> carries_pair not_ready = true).
Proof.
  split.
  - destruct (C5_publish_classification cfg rt happy at_first_row 0 bad_request [])
      as [_ H]; [simpl; lia|].
    apply H; [reflexivity | simpl; lia].
  - apply (C5_publish_classification cfg rt happy at_first_row 0 not_ready []).
    simpl. lia.
Defined.

Lemma container_created_at_first_row (env : Env) :
  requests_post env (create_media_url cfg)
    (media_payload cfg (mkRow 2 "desc1" "http://a") "A caption #tag") [] = Ok (ok_id "17") ->
  container_created cfg env at_first_row [] (mkRow 2 "desc1" "http://a")
    "A caption #tag" (JStr "17").
Proof.
  intros H. unfold container_created.
  split; [reflexivity|]. split; [simpl; lia|].
  split; [reflexivity|]. split; [reflexivity|].
  exists (ok_id "17"), [("id", JStr "17")].
  split; [exact H|]. split; [simpl; lia|]. repeat split.
Defined.

(** The scenario of the specification: not ready three times, then "999". *)
Lemma C6_scenario_ready_on_fourth :
  exists st' evs,
    create_instagram_post cfg rt ready_on_fourth at_first_row []
      = (Ok st',
         ([] ++ [EvPost (create_media_url cfg)
                   (media_payload cfg (mkRow 2 "desc1" "http://a") "A caption #tag")])
         ++ evs) /\
    post_id st' = Some (JStr "999") /\
    error st' = None /\
    evs = [EvPost (publish_url cfg) (publish_payload cfg (JStr "17")); EvSleep 1;
           EvPost (publish_url cfg) (publish_payload cfg (JStr "17")); EvSleep 2;
           EvPost (publish_url cfg) (publish_payload cfg (JStr "17")); EvSleep 4;
           EvPost (publish_url cfg) (publish_payload cfg (JStr "17"))] /\
    attempts_of evs = 4%nat /\
    sleeps_of evs = [1; 2; 4].
Proof.
  apply (C6_media_ready_on_fourth_attempt cfg rt ready_on_fourth at_first_row []
           (mkRow 2 "desc1" "http://a") "A caption #tag" (JStr "17")
           not_ready not_ready not_ready (ok_id "999")).
  - apply container_created_at_first_row. reflexivity.
  - reflexivity.
  - reflexivity.
  - reflexivity.
  - reflexivity.
  - split; [simpl; lia | reflexivity].
  - split; [simpl; lia | reflexivity].
  - split; [simpl; lia | reflexivity].
  - reflexivity.
  - exists [("id", JStr "999")]. split; reflexivity.
Defined.

(** After a failed fetch, [generate_caption] is entered with the index at
    the end of the (empty) rows and keeps the fetch error instead of setting
    "No more rows to process". *)
Lemma C7_fetch_error_is_kept :
  filter_rows cfg fetch_denied initial_state []
    = (Ok fetch_failed, [EvSheetsService; EvValuesGet "sheet-id" "Sheet1!A1:DZ"]) /\
  exhausted fetch_failed = true /\
  node_fn cfg rt fetch_denied GenerateCaption fetch_failed
      [EvSheetsService; EvValuesGet "sheet-id" "Sheet1!A1:DZ"]
    = (Ok fetch_failed, [EvSheetsService; EvValuesGet "sheet-id" "Sheet1!A1:DZ"]) /\
  error fetch_failed <> Some "No more rows to process".
Proof.
  split; [vm_compute; reflexivity|]. split; [reflexivity|].
  split; [vm_compute; reflexivity | discriminate].
Qed.

(** An empty sheet: [generate_caption] reports that no row is left and the
    run finishes under the limit of [run_workflow]. *)
Lemma C7_empty_rows_end_the_run :
  node_fn cfg rt happy GenerateCaption initial_state []
    = (Ok (mkState [] 0 None None None (Some "No more rows to process")), []) /\
  (forall l : nat,
      Forall (fun u => snd u = mkState [] 0 None None None
                                       (Some "No more rows to process"))
             (updates (run_graph cfg rt happy l GenerateCaption initial_state [])) /\
      effects (run_graph cfg rt happy l GenerateCaption initial_state []) = []) /\
  exists ups,
    run_graph cfg rt happy recursion_limit GenerateCaption initial_state []
      = mkRun ups Finished
              (mkState [] 0 None None None (Some "No more rows to process")) [] /\
    (List.length ups <= 2)%nat.
Proof.
  apply (C7_exhausted_step_is_terminal cfg rt happy GenerateCaption initial_state [] 97).
  - discriminate.
  - reflexivity.
  - right. reflexivity.
Defined.

(** The sheet cannot be read: the run enters [generate_caption] and then
    [create_instagram_post] with the error of the fetch, and both return the
    state as it is, with no call. *)
Lemma C8_fetch_error_skips_the_steps :
  entries cfg rt fetch_denied recursion_limit FilterRows initial_state []
    = [ (FilterRows, initial_state, []);
        (GenerateCaption, fetch_failed,
         [EvSheetsService; EvValuesGet "sheet-id" "Sheet1!A1:DZ"]);
        (CreateInstagramPost, fetch_failed,
         [EvSheetsService; EvValuesGet "sheet-id" "Sheet1!A1:DZ"]) ] /\
  error fetch_failed <> None /\
  node_fn cfg rt fetch_denied GenerateCaption fetch_failed
      [EvSheetsService; EvValuesGet "sheet-id" "Sheet1!A1:DZ"]
    = (Ok fetch_failed, [EvSheetsService; EvValuesGet "sheet-id" "Sheet1!A1:DZ"]) /\
  (GenerateCaption = GenerateCaption \/ GenerateCaption = CreateInstagramPost) /\
  opt_truthy (error fetch_failed) = true.
Proof.
  split; [vm_compute; reflexivity|].
  split; [discriminate|].
  apply (C8_step_entered_with_error_skips cfg rt fetch_denied recursion_limit
           GenerateCaption fetch_failed
           [EvSheetsService; EvValuesGet "sheet-id" "Sheet1!A1:DZ"]).
  - vm_compute. right. left. reflexivity.
  - discriminate.
Defined.

(** A row abandoned at the Instagram step does not move the index: the run
    ends with index 0, one abandoned row and no completed row. *)
Lemma C9_abandoned_row_does_not_advance :
  ~ index_counts_abandoned (run_workflow cfg rt instagram_down).
Proof.
  unfold index_counts_abandoned. vm_compute. discriminate.
Qed.

(** Five answers of 200 without an identifier. *)
Lemma C10_five_empty_answers :
  (forall attempt r h,
      status_code r = 200 -> lacks_id r = true ->
      handle_publish_response rt at_first_row attempt r h = (Ok NextAttempt, h)) /\
  exists msg evs,
    create_instagram_post cfg rt publish_without_id at_first_row [] =
      (Ok (set_error at_first_row (Some msg)),
       ([] ++ [EvPost (create_media_url cfg)
                 (media_payload cfg (mkRow 2 "desc1" "http://a") "A caption #tag")])
       ++ evs) /\
    contains "Failed to publish media after 5 attempts" msg = true /\
    evs = repeat (EvPost (publish_url cfg) (publish_payload cfg (JStr "17"))) 5 /\
    attempts_of evs = 5%nat /\
    sleeps_of evs = [].
Proof.
  apply (C10_ok_without_id_exhausts_attempts cfg rt publish_without_id at_first_row []
           (mkRow 2 "desc1" "http://a") "A caption #tag" (JStr "17")).
  - apply container_created_at_first_row. reflexivity.
  - intros h. exists no_id. repeat split.
Defined.

(* ===================================================================== *)
(** ** Further scenarios                                                 *)
(* ===================================================================== *)

(** The attempts [0; 1] split in two ways only. *)
Ltac split_two_fails E l1 :=
  destruct l1 as [|? [|? l1]];
  [ | | exfalso; cbn in E; inversion E as [[E0 E1 E2]]; destruct l1; discriminate E2 ].

(** Two failed reads, then the table. *)
Lemma X1_two_failed_reads_then_table :
  exists evs,
    get_with_retries cfg flaky "Sheet1!A1:DZ" (range max_retries) [] =
      (Ok (Some scenario_table), [] ++ evs) /\
    attempts_of evs = 3%nat /\
    sleeps_of evs = [1; 2] /\
    sleeps_between false evs = 2%nat.
Proof.
  apply (X1_fetch_settles_after_transient_failures cfg flaky "Sheet1!A1:DZ"
           [0; 1] 2 [3; 4] []).
  - reflexivity.
  - intros l1 x l2 E. split_two_fails E l1;
      exists 503, "unavailable"; split; reflexivity.
  - exact I.
Defined.

(** Two failed clears, then the row is cleared. *)
Lemma X2_two_failed_clears_then_cleared :
  exists evs,
    clear_with_retries cfg flaky "Sheet1!A2:DZ2" (range max_retries) [] =
      (Ok tt, [] ++ evs) /\
    attempts_of evs = 3%nat /\
    sleeps_of evs = [1; 2] /\
    sleeps_between false evs = 2%nat.
Proof.
  apply (X2_clear_settles_after_transient_failures cfg flaky "Sheet1!A2:DZ2"
           [0; 1] 2 [3; 4] []).
  - reflexivity.
  - intros l1 x l2 E. split_two_fails E l1;
      exists 503, "unavailable"; split; reflexivity.
  - exact I.
Defined.

(** The media is ready on the third publish attempt. *)
Lemma X3_ready_on_third_attempt :
  exists evs,
    publish_with_retries cfg rt flaky at_first_row (publish_payload cfg (JStr "17"))
      (range max_retries) None [] =
      (Ok (mkState two_rows 0 (Some "A caption #tag") (Some (JStr "999")) None None),
       [] ++ evs) /\
    attempts_of evs = 3%nat /\
    sleeps_of evs = [1; 2].
Proof.
  apply (X3_publish_succeeds_after_not_ready cfg rt flaky at_first_row
           (publish_payload cfg (JStr "17")) [0; 1] 2 [3; 4] [] (ok_id "999") "999").
  - reflexivity.
  - intros l1 x l2 E. split_two_fails E l1;
      exists not_ready; (split; [reflexivity|]); (split; [simpl; lia | reflexivity]).
  - reflexivity.
  - reflexivity.
  - exists [("id", JStr "999")]. split; reflexivity.
  - discriminate.
Defined.

(** The Instagram step in the world where it backs off twice. *)
Lemma X4_instagram_step_cost :
  exists evs,
    snd (node_fn cfg rt flaky CreateInstagramPost at_first_row []) = [] ++ evs /\
    (attempts_of evs <= 6)%nat /\
    total_sleep evs <= 31.
Proof.
  apply (X4_node_cost_is_bounded cfg rt flaky CreateInstagramPost at_first_row []
           (fst (node_fn cfg rt flaky CreateInstagramPost at_first_row []))
           (snd (node_fn cfg rt flaky CreateInstagramPost at_first_row []))).
  vm_compute. reflexivity.
Defined.

(** The model refuses the caption of the first row. *)
Lemma X6_model_refuses_first_caption :
  generate_caption cfg rt model_down uncaptioned [] =
    (Ok (mkState two_rows 0 None None None
                 (Some "Error generating caption: quota exceeded")),
     [] ++ [EvLlmInvoke "gemini-2.5-flash" (GEMINI_API_KEY cfg)
                        (caption_prompt "desc1")]) /\
  run_graph cfg rt model_down recursion_limit GenerateCaption uncaptioned [] =
    mkRun [(GenerateCaption,
            mkState two_rows 0 None None None
                    (Some "Error generating caption: quota exceeded"));
           (CreateInstagramPost,
            mkState two_rows 0 None None None
                    (Some "Error generating caption: quota exceeded"))]
          Finished
          (mkState two_rows 0 None None None
                   (Some "Error generating caption: quota exceeded"))
          ([] ++ [EvLlmInvoke "gemini-2.5-flash" (GEMINI_API_KEY cfg)
                              (caption_prompt "desc1")]).
Proof.
  apply (X6_caption_failure_ends_the_run cfg rt model_down uncaptioned []
           (mkRow 2 "desc1" "http://a") (Exception "quota exceeded") 98).
  - reflexivity.
  - split; [simpl; lia | reflexivity].
  - reflexivity.
Defined.

(** Facebook refuses the post of the first row. *)
Lemma X7_facebook_refuses_first_row :
  exists msg,
    create_facebook_post cfg rt facebook_down posted_instagram [] =
      (Ok (mkState two_rows 0 (Some "A caption #tag") (Some (JStr "999")) None
                   (Some msg)),
       [] ++ [EvPost facebook_url
                (facebook_payload cfg (mkRow 2 "desc1" "http://a") "A caption #tag")]) /\
    starts_with "Error creating Facebook post: " msg /\
    next_node CreateFacebookPost
      (mkState two_rows 0 (Some "A caption #tag") (Some (JStr "999")) None (Some msg))
      = END /\
    (forall r,
        requests_post facebook_down facebook_url
          (facebook_payload cfg (mkRow 2 "desc1" "http://a") "A caption #tag") [] = Ok r ->
        400 <= status_code r < 600 ->
        msg = ("Error creating Facebook post: " ++ http_error_msg rt r
               ++ ". Response: " ++ text r)%string).
Proof.
  apply (X7_facebook_failure_is_recorded cfg rt facebook_down posted_instagram []
           (mkRow 2 "desc1" "http://a") "A caption #tag").
  - reflexivity.
  - split; [simpl; lia | reflexivity].
  - reflexivity.
  - left. simpl. lia.
Defined.

(** Instagram refuses the container of the first row. *)
Lemma X8_container_refused_first_row :
  exists msg,
    create_instagram_post cfg rt instagram_down at_first_row [] =
      (Ok (mkState two_rows 0 (Some "A caption #tag") None None (Some msg)),
       [] ++ [EvPost (create_media_url cfg)
                (media_payload cfg (mkRow 2 "desc1" "http://a") "A caption #tag")]) /\
    starts_with "Error creating Instagram post: " msg /\
    next_node CreateInstagramPost
      (mkState two_rows 0 (Some "A caption #tag") None None (Some msg)) = END.
Proof.
  apply (X8_container_failure_skips_publish cfg rt instagram_down at_first_row []
           (mkRow 2 "desc1" "http://a") "A caption #tag").
  - reflexivity.
  - split; [simpl; lia | reflexivity].
  - reflexivity.
  - left. simpl. lia.
Defined.

(** The Facebook step on a row without a caption. *)
Lemma X9_facebook_without_caption :
  exists msg,
    node_fn cfg rt happy CreateFacebookPost uncaptioned [] =
      (Ok (mkState two_rows 0 None None None (Some msg)), []) /\
    str_truthy msg = true.
Proof.
  apply (X9_publish_without_caption_makes_no_request cfg rt happy
           CreateFacebookPost uncaptioned [] (mkRow 2 "desc1" "http://a")).
  - right. reflexivity.
  - reflexivity.
  - split; [simpl; lia | reflexivity].
  - reflexivity.
Defined.

(** The edge after the Instagram post of the first row. *)
Lemma X10_edge_after_first_instagram_post :
  (next_node CreateInstagramPost posted_instagram = END <->
   opt_truthy (error posted_instagram) = true) /\
  (opt_truthy (error posted_instagram) = false ->
   next_node CreateInstagramPost posted_instagram = Goto CreateFacebookPost).
Proof.
  apply (X10_publish_edge_follows_the_error cfg rt happy CreateInstagramPost
           at_first_row posted_instagram []
           [EvPost (create_media_url cfg)
              (media_payload cfg (mkRow 2 "desc1" "http://a") "A caption #tag");
            EvPost (publish_url cfg) (publish_payload cfg (JStr "17"))]).
  - left. reflexivity.
  - vm_compute. reflexivity.
Defined.

(** The frame of the refused Facebook post. *)
Lemma X11_frame_of_refused_facebook_post :
  exists st' tr',
    node_fn cfg rt facebook_down CreateFacebookPost posted_instagram [] = (Ok st', tr') /\
    step_frame CreateFacebookPost posted_instagram st'.
Proof.
  eexists. eexists. split; [vm_compute; reflexivity|].
  eapply (X11_guarded_step_frame cfg rt facebook_down CreateFacebookPost
            posted_instagram _ [] _).
  - right. right. reflexivity.
  - vm_compute. reflexivity.
Defined.

(** The two rows of the scenario table within the limit of 100. *)
Lemma X16_two_rows_within_limit :
  status (run_graph cfg rt instagram_down recursion_limit FilterRows initial_state [])
    = Finished.
Proof.
  apply (X16_run_finishes_within_limit cfg rt instagram_down recursion_limit
           (mkState two_rows 0 None None None None)
           [EvSheetsService; EvValuesGet "sheet-id" "Sheet1!A1:DZ"]).
  - vm_compute. reflexivity.
  - vm_compute. lia.
Defined.

(** A sheet with its header alone. *)
Lemma X17_header_only_sheet :
  run_graph cfg rt header_only recursion_limit FilterRows initial_state [] =
    mkRun [(FilterRows, mkState [] 0 None None None None);
           (GenerateCaption,
            mkState [] 0 None None None (Some "No more rows to process"));
           (CreateInstagramPost,
            mkState [] 0 None None None (Some "No more rows to process"))]
          Finished
          (mkState [] 0 None None None (Some "No more rows to process"))
          [EvSheetsService; EvValuesGet "sheet-id" "Sheet1!A1:DZ"].
Proof.
  apply (X17_sheet_without_rows_ends_the_run cfg rt header_only
           (Some [["p"; "u"]]) 97).
  - reflexivity.
  - reflexivity.
  - reflexivity.
Defined.

(** The scenario table in the world where every call succeeds. *)
Lemma X18_scenario_table_is_drained :
  status (run_graph cfg rt happy recursion_limit FilterRows initial_state []) = Finished /\
  final_state (run_graph cfg rt happy recursion_limit FilterRows initial_state []) =
    mkState (filtered_rows scenario_table)
            (Z.of_nat (List.length (filtered_rows scenario_table))) None None None None /\
  completed_rows (updates (run_graph cfg rt happy recursion_limit FilterRows
                             initial_state [])) =
    List.length (filtered_rows scenario_table).
Proof.
  apply (X18_cooperative_run_drains_the_sheet cfg rt happy scenario_table
           recursion_limit).
  - reflexivity.
  - reflexivity.
  - discriminate.
  - intros model key p h. eexists. reflexivity.
  - intros url data h. unfold happy, world. cbn [requests_post].
    destruct (url =? publish_url cfg)%string;
      [|destruct (url =? create_media_url cfg)%string];
      do 3 eexists; repeat split; reflexivity.
  - vm_compute. lia.
Defined.

(** The Instagram step of the first row stays on that row. *)
Lemma X20_instagram_effects_of_first_row :
  exists evs,
    snd (node_fn cfg rt flaky CreateInstagramPost at_first_row []) = [] ++ evs /\
    Forall (allowed_effect cfg CreateInstagramPost at_first_row) evs.
Proof.
  apply (X20_node_effects_are_confined cfg rt flaky CreateInstagramPost at_first_row []
           (fst (node_fn cfg rt flaky CreateInstagramPost at_first_row []))
           (snd (node_fn cfg rt flaky CreateInstagramPost at_first_row []))).
  vm_compute. reflexivity.
Defined.

(** The clear step at index -3 of two rows. *)
Lemma X21_clear_at_minus_three :
  exists e, clear_row cfg happy below_range [] = (Raise e, []).
Proof.
  apply (X21_clear_row_below_range_raises cfg happy below_range []).
  simpl. lia.
Defined.

(** One variable unset and one empty: both are named, in the order of the
    list. *)
Lemma X19_unset_and_empty_are_missing :
  check_required_vars partial_environment =
    Raise (Exception
             "Missing required environment variables: SHEET_NAME, FACEBOOK_PAGE_ID").
Proof.
  apply (proj2 (proj2 (X19_settings_check partial_environment))).
  vm_compute. discriminate.
Defined.
